(** * StormBee charge controller: decoder, charge control and command ingress

    A shallow embedding of [Stormbee_charge_controller.ino] (ESP32 firmware
    that reads a Greenway battery management unit over BLE and drives a
    charge relay), with the properties of its specification stated and
    proved over the embedding.

    Conventions.
    - C integers are [Z]; conversions to a fixed width are written out
      ([u8], [u16], [u32], [s8], [s32]).
    - [float] is IEEE-754 binary32 and [double] binary64, both as
      [spec_float] with the operations of [SpecFloat] instantiated at
      (24,128) and (53,1024).
    - The globals of the sketch are one record [Globals]; every function is
      a computation in the monad [M], which threads the globals and
      collects the observable events (frame reads, cell writes, serial
      lines, pin writes, publications). *)

From Stdlib Require Import ZArith List Bool Lia String Ascii QArith Qabs.
From Stdlib.Strings Require Import Byte.
From Stdlib Require Import SpecFloat.
From stdpp Require Import base list.

Import ListNotations.
Local Open Scope Z_scope.

(** ** Fixed-width integers *)

Module Word.

Definition u8 (z : Z) : Z := z mod 256.
Definition u16 (z : Z) : Z := z mod 65536.
Definition u32 (z : Z) : Z := z mod 4294967296.

(** Reinterpretation of the low bits as a two's complement value. *)
Definition s8 (z : Z) : Z :=
  let r := u8 z in if r <? 128 then r else r - 256.
Definition s32 (z : Z) : Z :=
  let r := u32 z in if r <? 2147483648 then r else r - 4294967296.

Definition INT_MIN : Z := -2147483648.
Definition INT_MAX : Z := 2147483647.

(** The value of a received byte, as the [uint8_t] the code reads. *)
Definition byte_val (b : byte) : Z := Z.of_N (Byte.to_N b).

(** The byte holding the low eight bits of [z]. *)
Definition byte_of_Z (z : Z) : byte :=
  match Byte.of_N (Z.to_N (u8 z)) with
  | Some b => b
  | None => x00
  end.

End Word.
Import Word.

(** ** Floating point: binary32 and binary64 *)

Module Float.

Definition f32 : Type := spec_float.
Definition f64 : Type := spec_float.

Definition prec32 : Z := 24.
Definition emax32 : Z := 128.
Definition prec64 : Z := 53.
Definition emax64 : Z := 1024.

Definition signed_mantissa (s : bool) (m : positive) : Z :=
  if s then Zneg m else Zpos m.

(** [(float)z] for an integer [z]: round to nearest even. *)
Definition f32_of_Z (z : Z) : f32 := binary_normalize prec32 emax32 z 0 false.
Definition f64_of_Z (z : Z) : f64 := binary_normalize prec64 emax64 z 0 false.

(** The implicit promotion of a [float] operand to [double] (exact). *)
Definition f64_of_f32 (x : f32) : f64 :=
  match x with
  | S754_finite s m e => binary_normalize prec64 emax64 (signed_mantissa s m) e s
  | _ => x
  end.

(** The conversion of a [double] result stored in a [float]. *)
Definition f32_of_f64 (x : f64) : f32 :=
  match x with
  | S754_finite s m e => binary_normalize prec32 emax32 (signed_mantissa s m) e s
  | _ => x
  end.

Definition f32_zero : f32 := S754_zero false.

(** The literals of the sketch. *)
Definition d1000 : f64 := f64_of_Z 1000.
Definition d0_1 : f64 := SFdiv prec64 emax64 (f64_of_Z 1) (f64_of_Z 10).
Definition f10 : f32 := f32_of_Z 10.

(** [x / 1000.0] with [x : float], stored in a [float]: the division is
    done in [double] (the literal is a [double]) and the quotient is
    rounded to [float] by the assignment. *)
Definition div1000 (x : f32) : f32 :=
  f32_of_f64 (SFdiv prec64 emax64 (f64_of_f32 x) d1000).

(** [(float)z / 1000.0]. *)
Definition milli (z : Z) : f32 := div1000 (f32_of_Z z).

(** [a < b] on two [float]s, and on two [double]s. *)
Definition f32_ltb (a b : f32) : bool := SFltb a b.
Definition f64_ltb (a b : f64) : bool := SFltb a b.

(** The real number a finite float denotes. *)
Definition pow2 (e : Z) : Q :=
  match e with
  | Z0 => 1%Q
  | Zpos p => inject_Z (2 ^ Zpos p)
  | Zneg p => (1 # (2 ^ p))%Q
  end.

Definition to_Q (x : spec_float) : option Q :=
  match x with
  | S754_zero _ => Some 0%Q
  | S754_finite s m e => Some (inject_Z (signed_mantissa s m) * pow2 e)%Q
  | _ => None
  end.

(** [x] is a finite float within 0.001 (exclusive) of [mv] thousandths. *)
Definition within_1mV (x : f32) (mv : Z) : Prop :=
  match to_Q x with
  | Some q => (Qabs (q - (mv # 1000)) < 1 # 1000)%Q
  | None => False
  end.

End Float.
Import Float.


(** ** The globals of the sketch *)

(** [struct BmsData]. [cellVolts] is declared with 32 entries, of which the
    firmware uses the first 28. *)
Record BmsData : Type := mkBmsData {
  totalVoltage : f32;
  current : f32;
  soc : Z;                  (* uint8_t *)
  soh : Z;                  (* uint8_t *)
  cycleCount : Z;           (* uint16_t *)
  remainingCapacity : f32;
  fullCapacity : f32;
  tempT1 : Z;
  tempT2 : Z;
  tempMOS : Z;
  minVoltage : f32;
  maxVoltage : f32;
  minCellIndex : Z;         (* uint8_t *)
  maxCellIndex : Z;         (* uint8_t *)
  cellVolts : list f32;
  lastUpdateTime : Z        (* unsigned long; 0 = never populated *)
}.

Record Globals : Type := mkGlobals {
  bmsData : BmsData;
  (* decoding variables *)
  main_packet_shift_byte : Z;
  expect_suite_24 : bool;
  expect_suite_25 : bool;
  (* system state *)
  chargeTargetPercent : Z;  (* int *)
  chargeMasterSwitch : bool;
  modeMQTT : bool;
  relayActive : bool;
  useZigbee : bool;
  zigbeeConnected : bool;
  mqttForceOff : bool;
  debugMode : bool;
  bluetoothDataReceived : bool
}.

Definition CELL_ARRAY_LEN : nat := 32.

(** The initial values given by the declarations. *)
Definition bmsData_init : BmsData :=
  {| totalVoltage := f32_zero; current := f32_zero; soc := 0; soh := 0;
     cycleCount := 0; remainingCapacity := f32_zero; fullCapacity := f32_zero;
     tempT1 := 0; tempT2 := 0; tempMOS := 0;
     minVoltage := f32_zero; maxVoltage := f32_zero;
     minCellIndex := 0; maxCellIndex := 0;
     cellVolts := repeat f32_zero CELL_ARRAY_LEN;
     lastUpdateTime := 0 |}.

Definition globals_init : Globals :=
  {| bmsData := bmsData_init;
     main_packet_shift_byte := 0;
     expect_suite_24 := false; expect_suite_25 := false;
     chargeTargetPercent := 80;
     chargeMasterSwitch := true;
     modeMQTT := false;
     relayActive := false;
     useZigbee := false; zigbeeConnected := false;
     mqttForceOff := false;
     debugMode := false;
     bluetoothDataReceived := false |}.

(** Field updates of [bmsData]. *)
Definition set_totalVoltage (v : f32) (b : BmsData) : BmsData :=
  mkBmsData v (current b) (soc b) (soh b) (cycleCount b) (remainingCapacity b)
    (fullCapacity b) (tempT1 b) (tempT2 b) (tempMOS b) (minVoltage b)
    (maxVoltage b) (minCellIndex b) (maxCellIndex b) (cellVolts b)
    (lastUpdateTime b).
Definition set_current (v : f32) (b : BmsData) : BmsData :=
  mkBmsData (totalVoltage b) v (soc b) (soh b) (cycleCount b)
    (remainingCapacity b) (fullCapacity b) (tempT1 b) (tempT2 b) (tempMOS b)
    (minVoltage b) (maxVoltage b) (minCellIndex b) (maxCellIndex b)
    (cellVolts b) (lastUpdateTime b).
Definition set_soc (v : Z) (b : BmsData) : BmsData :=
  mkBmsData (totalVoltage b) (current b) v (soh b)
    (cycleCount b) (remainingCapacity b) (fullCapacity b) (tempT1 b)
    (tempT2 b) (tempMOS b) (minVoltage b) (maxVoltage b) (minCellIndex b)
    (maxCellIndex b) (cellVolts b) (lastUpdateTime b).
Definition set_soh (v : Z) (b : BmsData) : BmsData :=
  mkBmsData (totalVoltage b) (current b)
    (soc b) v (cycleCount b) (remainingCapacity b)
    (fullCapacity b) (tempT1 b) (tempT2 b) (tempMOS b) (minVoltage b)
    (maxVoltage b) (minCellIndex b) (maxCellIndex b) (cellVolts b)
    (lastUpdateTime b).
Definition set_cycleCount (v : Z) (b : BmsData) : BmsData :=
  mkBmsData (totalVoltage b) (current b)
    (soc b) (soh b) v (remainingCapacity b)
    (fullCapacity b) (tempT1 b) (tempT2 b) (tempMOS b) (minVoltage b)
    (maxVoltage b) (minCellIndex b) (maxCellIndex b) (cellVolts b)
    (lastUpdateTime b).
Definition set_fullCapacity (v : f32) (b : BmsData) : BmsData :=
  mkBmsData (totalVoltage b) (current b)
    (soc b) (soh b) (cycleCount b)
    (remainingCapacity b) v (tempT1 b) (tempT2 b) (tempMOS b)
    (minVoltage b) (maxVoltage b) (minCellIndex b) (maxCellIndex b)
    (cellVolts b) (lastUpdateTime b).
Definition set_temps (t1 t2 tm : Z) (b : BmsData) : BmsData :=
  mkBmsData (totalVoltage b) (current b)
    (soc b) (soh b) (cycleCount b)
    (remainingCapacity b) (fullCapacity b) t1 t2 tm
    (minVoltage b) (maxVoltage b) (minCellIndex b) (maxCellIndex b)
    (cellVolts b) (lastUpdateTime b).
Definition set_minVoltage (v : f32) (b : BmsData) : BmsData :=
  mkBmsData (totalVoltage b) (current b)
    (soc b) (soh b) (cycleCount b)
    (remainingCapacity b) (fullCapacity b) (tempT1 b) (tempT2 b)
    (tempMOS b) v (maxVoltage b) (minCellIndex b) (maxCellIndex b)
    (cellVolts b) (lastUpdateTime b).
Definition set_maxVoltage (v : f32) (b : BmsData) : BmsData :=
  mkBmsData (totalVoltage b) (current b)
    (soc b) (soh b) (cycleCount b)
    (remainingCapacity b) (fullCapacity b) (tempT1 b) (tempT2 b)
    (tempMOS b) (minVoltage b) v (minCellIndex b)
    (maxCellIndex b) (cellVolts b) (lastUpdateTime b).
Definition set_minCellIndex (v : Z) (b : BmsData) : BmsData :=
  mkBmsData (totalVoltage b) (current b)
    (soc b) (soh b) (cycleCount b)
    (remainingCapacity b) (fullCapacity b) (tempT1 b) (tempT2 b)
    (tempMOS b) (minVoltage b) (maxVoltage b) v
    (maxCellIndex b) (cellVolts b) (lastUpdateTime b).
Definition set_maxCellIndex (v : Z) (b : BmsData) : BmsData :=
  mkBmsData (totalVoltage b) (current b)
    (soc b) (soh b) (cycleCount b)
    (remainingCapacity b) (fullCapacity b) (tempT1 b) (tempT2 b)
    (tempMOS b) (minVoltage b) (maxVoltage b)
    (minCellIndex b) v (cellVolts b) (lastUpdateTime b).
Definition set_cellVolts (v : list f32) (b : BmsData) : BmsData :=
  mkBmsData (totalVoltage b) (current b)
    (soc b) (soh b) (cycleCount b)
    (remainingCapacity b) (fullCapacity b) (tempT1 b) (tempT2 b)
    (tempMOS b) (minVoltage b) (maxVoltage b)
    (minCellIndex b) (maxCellIndex b) v
    (lastUpdateTime b).
Definition set_lastUpdateTime (v : Z) (b : BmsData) : BmsData :=
  mkBmsData (totalVoltage b) (current b)
    (soc b) (soh b) (cycleCount b)
    (remainingCapacity b) (fullCapacity b) (tempT1 b) (tempT2 b)
    (tempMOS b) (minVoltage b) (maxVoltage b)
    (minCellIndex b) (maxCellIndex b)
    (cellVolts b) v.

(** Updates of the globals. *)
Definition with_bms (f : BmsData -> BmsData) (g : Globals) : Globals :=
  mkGlobals (f (bmsData g)) (main_packet_shift_byte g) (expect_suite_24 g)
    (expect_suite_25 g) (chargeTargetPercent g) (chargeMasterSwitch g)
    (modeMQTT g) (relayActive g) (useZigbee g) (zigbeeConnected g)
    (mqttForceOff g) (debugMode g) (bluetoothDataReceived g).

Definition with_shift_byte (v : Z) (g : Globals) : Globals :=
  mkGlobals (bmsData g) v (expect_suite_24 g) (expect_suite_25 g)
    (chargeTargetPercent g) (chargeMasterSwitch g) (modeMQTT g)
    (relayActive g) (useZigbee g) (zigbeeConnected g) (mqttForceOff g)
    (debugMode g) (bluetoothDataReceived g).

Definition with_expect (e24 e25 : bool) (g : Globals) : Globals :=
  mkGlobals (bmsData g) (main_packet_shift_byte g) e24 e25
    (chargeTargetPercent g) (chargeMasterSwitch g) (modeMQTT g)
    (relayActive g) (useZigbee g) (zigbeeConnected g) (mqttForceOff g)
    (debugMode g) (bluetoothDataReceived g).

Definition with_chargeTargetPercent (v : Z) (g : Globals) : Globals :=
  mkGlobals (bmsData g) (main_packet_shift_byte g) (expect_suite_24 g)
    (expect_suite_25 g) v (chargeMasterSwitch g) (modeMQTT g) (relayActive g)
    (useZigbee g) (zigbeeConnected g) (mqttForceOff g) (debugMode g)
    (bluetoothDataReceived g).

Definition with_chargeMasterSwitch (v : bool) (g : Globals) : Globals :=
  mkGlobals (bmsData g) (main_packet_shift_byte g) (expect_suite_24 g)
    (expect_suite_25 g) (chargeTargetPercent g) v (modeMQTT g) (relayActive g)
    (useZigbee g) (zigbeeConnected g) (mqttForceOff g) (debugMode g)
    (bluetoothDataReceived g).

Definition with_modeMQTT (v : bool) (g : Globals) : Globals :=
  mkGlobals (bmsData g) (main_packet_shift_byte g) (expect_suite_24 g)
    (expect_suite_25 g) (chargeTargetPercent g) (chargeMasterSwitch g) v
    (relayActive g) (useZigbee g) (zigbeeConnected g) (mqttForceOff g)
    (debugMode g) (bluetoothDataReceived g).

Definition with_relayActive (v : bool) (g : Globals) : Globals :=
  mkGlobals (bmsData g) (main_packet_shift_byte g) (expect_suite_24 g)
    (expect_suite_25 g) (chargeTargetPercent g) (chargeMasterSwitch g)
    (modeMQTT g) v (useZigbee g) (zigbeeConnected g) (mqttForceOff g)
    (debugMode g) (bluetoothDataReceived g).

Definition with_mqttForceOff (v : bool) (g : Globals) : Globals :=
  mkGlobals (bmsData g) (main_packet_shift_byte g) (expect_suite_24 g)
    (expect_suite_25 g) (chargeTargetPercent g) (chargeMasterSwitch g)
    (modeMQTT g) (relayActive g) (useZigbee g) (zigbeeConnected g) v
    (debugMode g) (bluetoothDataReceived g).

Definition with_bluetoothDataReceived (v : bool) (g : Globals) : Globals :=
  mkGlobals (bmsData g) (main_packet_shift_byte g) (expect_suite_24 g)
    (expect_suite_25 g) (chargeTargetPercent g) (chargeMasterSwitch g)
    (modeMQTT g) (relayActive g) (useZigbee g) (zigbeeConnected g)
    (mqttForceOff g) (debugMode g) v.

(** ** Observable events *)

Inductive serial_line : Type :=
| SerRelayChange (old new : bool) (soc limit : Z) (master mode : bool)
| SerDebugPacket (regId : Z) (len : nat) (raw : list Z)
| SerDebugDecoded (regId : Z)
| SerDebugDump (b : BmsData).

(** What is published: the two JSON documents keep their fields, the
    other publications are fixed texts. *)
Inductive payload : Type :=
| JsonStatus (v i : f32) (soc soh : Z) (cap : f32) (cyc t1 t2 tm : Z)
    (rly : bool) (lim : Z)
| JsonCells (cells : list f32)
| JsonText (s : string).

Inductive event : Type :=
| EvFrameRead (i : nat)               (* data[i] of the received frame *)
| EvCellWrite (i : Z) (v : f32)       (* bmsData.cellVolts[i] = v *)
| EvSerial (l : serial_line)
| EvDigitalWrite (pin : Z) (high : bool)
| EvMqttPublish (topic : string) (p : payload)
| EvZigbeePrintln (p : payload)
| EvPrefPutInt (key : string) (v : Z)
| EvHttpSend (code : Z).

(** ** The monad of the sketch: globals and the event log *)

Definition M (A : Type) : Type := Globals -> A * Globals * list event.

Definition ret {A : Type} (a : A) : M A := fun g => (a, g, []).

Definition bind {A B : Type} (m : M A) (k : A -> M B) : M B :=
  fun g =>
    let '(a, g1, t1) := m g in
    let '(b, g2, t2) := k a g1 in
    (b, g2, t1 ++ t2).

Definition gets {A : Type} (f : Globals -> A) : M A := fun g => (f g, g, []).
Definition modify (f : Globals -> Globals) : M unit := fun g => (tt, f g, []).
Definition emit (e : event) : M unit := fun g => (tt, g, [e]).
Definition when (b : bool) (m : M unit) : M unit := if b then m else ret tt.

Declare Scope sketch_scope.
Delimit Scope sketch_scope with sketch.
Notation "'let*' x := m 'in' k" := (bind m (fun x => k))
  (at level 10, x name, m at level 100, k at level 200) : sketch_scope.
Notation "m ;;; k" := (bind m (fun _ => k))
  (at level 100, k at level 200, right associativity) : sketch_scope.
Local Open Scope sketch_scope.

Definition state_of {A : Type} (r : A * Globals * list event) : Globals :=
  snd (fst r).
Definition trace_of {A : Type} (r : A * Globals * list event) : list event :=
  snd r.

(** ** Received frames *)

(** A [uint8_t*]: the memory it points into and the offset reached by
    pointer arithmetic. The memory extends past the frame: [mem] gives
    whatever byte lies at each index, also at and beyond the frame length. *)
Record ptr : Type := mkptr { mem : nat -> byte; off : nat }.

Definition frame_ptr (m : nat -> byte) : ptr := mkptr m 0.
Definition padd (p : ptr) (k : nat) : ptr := mkptr (mem p) (off p + k).

(** [data[i]]: the read is logged with its index in the frame. *)
Definition rd (data : ptr) (i : nat) : M Z :=
  fun g => (byte_val (mem data (off data + i)%nat), g,
            [EvFrameRead (off data + i)%nat]).

(** A frame given by its bytes, followed in memory by [rest]. *)
Definition frame_mem (bytes : list byte) (rest : byte) : nat -> byte :=
  fun i => nth i bytes rest.

(** [get32BitLEValue<int32_t>]. *)
Definition get32BitLEValue (data : ptr) (index : nat) : M Z :=
  if (20 <=? index + 3)%nat then ret 0
  else
    let* b0 := rd data index in
    let* b1 := rd data (index + 1) in
    let* b2 := rd data (index + 2) in
    let* b3 := rd data (index + 3) in
    let raw :=
      u32 (Z.lor (Z.lor (Z.lor b0 (Z.shiftl b1 8)) (Z.shiftl b2 16))
                 (Z.shiftl b3 24)) in
    ret (s32 raw).

(** ** Cell voltage packets *)

(** [bmsData.cellVolts[i] = v]. The array has [CELL_ARRAY_LEN] entries; a
    store outside it is undefined in C and leaves the model's array as it
    is, but is logged like every store. *)
Definition store_cell (i : Z) (v : f32) (cells : list f32) : list f32 :=
  if (0 <=? i) && (i <? Z.of_nat (length cells)) then <[Z.to_nat i := v]> cells
  else cells.

Definition write_cell (i : Z) (v : f32) : M unit :=
  fun g => (tt, with_bms (fun b => set_cellVolts (store_cell i v (cellVolts b)) b) g,
            [EvCellWrite i v]).

(** The [for] loop of [printDetailedCellTable]; [fuel] bounds the number
    of iterations and [dataMaxIndex - i] is always enough. *)
Fixpoint cell_loop (fuel : nat) (data : ptr) (i dataMaxIndex : nat)
    (currentCell cellEndNum : Z) (isShiftedBlock : bool) : M unit :=
  match fuel with
  | O => ret tt
  | S fuel' =>
      if (i <? dataMaxIndex)%nat then
        if cellEndNum <? currentCell then ret tt
        else
          let* lsb := rd data i in
          let* msb := rd data (i + 1) in
          let val_mv := u16 (Z.lor (Z.shiftl msb 8) lsb) in
          if negb isShiftedBlock && (dataMaxIndex <=? i + 1)%nat then ret tt
          else
            write_cell (currentCell - 1) (milli val_mv) ;;;
            cell_loop fuel' data (i + 2) dataMaxIndex (currentCell + 1)
              cellEndNum isShiftedBlock
      else ret tt
  end.

Definition printDetailedCellTable (cellStartNum cellEndNum : Z) (data : ptr)
    (startDataIndex dataMaxIndex : nat) (shiftLSB : Z)
    (isShiftedBlock : bool) : M unit :=
  if isShiftedBlock then
    let* msb := rd data 0 in
    let val_mv := u16 (Z.lor (Z.shiftl msb 8) shiftLSB) in
    write_cell (cellStartNum - 1) (milli val_mv) ;;;
    cell_loop (dataMaxIndex - (startDataIndex + 1)) data (startDataIndex + 1)
      dataMaxIndex (cellStartNum + 1) cellEndNum isShiftedBlock
  else
    cell_loop (dataMaxIndex - startDataIndex) data startDataIndex dataMaxIndex
      cellStartNum cellEndNum isShiftedBlock.

(** ** Minimum and maximum cell *)

(** The locals [minV], [maxV] of the scan and the two indices it updates. *)
Record scan_state : Type := mkScan {
  sc_minV : f32; sc_maxV : f32; sc_minIdx : Z; sc_maxIdx : Z
}.

(** [bmsData.cellVolts[i]] for an index inside the array. *)
Definition cell_at (cells : list f32) (i : Z) : f32 :=
  nth (Z.to_nat i) cells f32_zero.

(** One iteration: [if (v > 0.1) { if (v < minV) ...; if (v > maxV) ... }].
    The literal [0.1] is a [double], so [v] is promoted for that test. *)
Definition scan_step (i : Z) (v : f32) (s : scan_state) : scan_state :=
  if f64_ltb d0_1 (f64_of_f32 v) then
    let s1 :=
      if f32_ltb v (sc_minV s)
      then mkScan v (sc_maxV s) (u8 i) (sc_maxIdx s) else s in
    if f32_ltb (sc_maxV s1) v
    then mkScan (sc_minV s1) v (sc_minIdx s1) (u8 i) else s1
  else s.

Fixpoint scan_loop (n : nat) (i : Z) (cells : list f32) (s : scan_state)
    : scan_state :=
  match n with
  | O => s
  | S n' => scan_loop n' (i + 1) cells (scan_step i (cell_at cells i) s)
  end.

(** [for (int i = 0; i < 28; i++)] with [minV = 10.0], [maxV = 0.0]. *)
Definition scan_cells (b : BmsData) : scan_state :=
  scan_loop 28 0 (cellVolts b)
    (mkScan f10 f32_zero (minCellIndex b) (maxCellIndex b)).

Definition update_min_max (b : BmsData) : BmsData :=
  let s := scan_cells b in
  set_maxCellIndex (sc_maxIdx s) (set_minCellIndex (sc_minIdx s) b).

(** ** Decoding of a BLE notification *)

Fixpoint read_all (data : ptr) (i n : nat) : M (list Z) :=
  match n with
  | O => ret []
  | S n' =>
      let* b := rd data i in
      let* r := read_all data (i + 1) n' in
      ret (b :: r)
  end.

(** [if (debugMode) Serial.printf(...)]. *)
Definition debug_line (l : serial_line) : M unit :=
  let* dbg := gets debugMode in when dbg (emit (EvSerial l)).

Definition debug_packet (data : ptr) (len : nat) (regId : Z) : M unit :=
  let* dbg := gets debugMode in
  when dbg (let* raw := read_all data 0 len in
            emit (EvSerial (SerDebugPacket regId len raw))).

(** [uint16_t x = data[i] | (data[j] << 8)]. *)
Definition rd16 (data : ptr) (i j : nat) : M Z :=
  let* lo := rd data i in
  let* hi := rd data j in
  ret (u16 (Z.lor lo (Z.shiftl hi 8))).

(** The follow-up packet, [else if (len == 18)]. *)
Definition decode_followup (data : ptr) : M unit :=
  let* e25 := gets expect_suite_25 in
  if e25 then
    let* sh := gets main_packet_shift_byte in
    printDetailedCellTable 24 24 data 0 18 sh true ;;;
    printDetailedCellTable 25 28 data 1 9 0 false ;;;
    let* maxV := rd16 data 13 14 in
    let* minV := rd16 data 15 16 in
    modify (with_bms (set_maxVoltage (milli maxV))) ;;;
    modify (with_bms (set_minVoltage (milli minV))) ;;;
    modify (fun g => with_expect (expect_suite_24 g) false g)
  else
    let* e24 := gets expect_suite_24 in
    if e24 then
      let* sh := gets main_packet_shift_byte in
      printDetailedCellTable 8 8 data 0 18 sh true ;;;
      printDetailedCellTable 9 16 data 1 17 0 false ;;;
      modify (fun g => with_expect false (expect_suite_25 g) g)
    else ret tt.

(** The chain of [if]/[else if] on the register id and the length. *)
Definition decode_register (data : ptr) (len : nat) (regId : Z) : M unit :=
  if (regId =? 0x09) && (9 <=? len)%nat then
    let* vRaw := get32BitLEValue (padd data 5) 0 in
    modify (with_bms (set_totalVoltage (milli vRaw))) ;;;
    debug_line (SerDebugDecoded 0x09)
  else if (regId =? 0x0A) && (18 <=? len)%nat then
    let* iRaw := get32BitLEValue (padd data 5) 0 in
    modify (with_bms (set_current (milli iRaw))) ;;;
    let* b9 := rd data 9 in
    modify (with_bms (set_soc b9)) ;;;
    let* b13 := rd data 13 in
    modify (with_bms (set_soh b13)) ;;;
    let* cap := rd16 data 17 18 in
    modify (with_bms (set_fullCapacity (f32_of_Z cap))) ;;;
    debug_line (SerDebugDecoded 0x0A)
  else if (regId =? 0x08) && (9 <=? len)%nat then
    let* t1 := rd data 5 in
    let* t2 := rd data 7 in
    let* tm := rd data 9 in
    modify (with_bms (set_temps (s8 t1) (s8 t2) (s8 tm))) ;;;
    debug_line (SerDebugDecoded 0x08)
  else if (regId =? 0x17) && (7 <=? len)%nat then
    let* cycleCountRaw := rd16 data 5 6 in
    modify (with_bms (set_cycleCount cycleCountRaw)) ;;;
    debug_line (SerDebugDecoded 0x17)
  else if (regId =? 0x25) && (20 <=? len)%nat then
    printDetailedCellTable 17 23 data 5 19 0 false ;;;
    let* sh := rd data 19 in
    modify (with_shift_byte sh) ;;;
    modify (with_expect false true)
  else if (regId =? 0x24) && (20 <=? len)%nat then
    printDetailedCellTable 1 7 data 5 19 0 false ;;;
    let* sh := rd data 19 in
    modify (with_shift_byte sh) ;;;
    modify (with_expect true false)
  else if (len =? 18)%nat then decode_followup data
  else ret tt.

(** [decodeGreenway(chr, data, len, isNotify)]; [now] is what [millis()]
    returns during the call. *)
Definition decodeGreenway (data : ptr) (len : nat) (now : Z) : M unit :=
  modify (with_bluetoothDataReceived true) ;;;
  if (len <? 6)%nat then ret tt
  else
    let* regId := rd data 3 in
    modify (with_bms (set_lastUpdateTime now)) ;;;
    debug_packet data len regId ;;;
    decode_register data len regId ;;;
    modify (with_bms update_min_max).

(** ** Charge control *)

Definition RELAY_PIN : Z := 2.

(** [int] addition and subtraction, with the wrap-around of the target
    (overflow of a signed [int] is undefined in C++; the statements below
    exclude it). *)
Definition int_add (a b : Z) : Z := s32 (a + b).
Definition int_sub (a b : Z) : Z := s32 (a - b).

(** The value [desiredState] has when [checkChargeControl] reaches
    "Apply the new state if different". *)
Definition desiredState (g : Globals) : bool :=
  if negb (chargeMasterSwitch g) then false
  else
    let byLimit :=
      if chargeTargetPercent g =? 100 then true
      else if int_add (chargeTargetPercent g) 1 <=? soc (bmsData g) then false
      else if soc (bmsData g) <=? int_sub (chargeTargetPercent g) 1 then true
      else relayActive g in
    if modeMQTT g && mqttForceOff g then false else byLimit.

Definition checkChargeControl : M unit :=
  let* desired := gets desiredState in
  let* active := gets relayActive in
  if negb (Bool.eqb desired active) then
    let* g := gets (fun g => g) in
    emit (EvSerial (SerRelayChange active desired (soc (bmsData g))
                      (chargeTargetPercent g) (chargeMasterSwitch g)
                      (modeMQTT g))) ;;;
    emit (EvDigitalWrite RELAY_PIN (negb desired)) ;;;
    modify (with_relayActive desired)
  else ret tt.

(** ** Publication *)

Definition topic_status : string := "stormbee/bms/status".
Definition topic_cells : string := "stormbee/bms/cells".
Definition topic_set_limit : string := "stormbee/charge/set_limit".
Definition topic_set_power : string := "stormbee/charge/set_power".

Definition printBMSDataDebug : M unit :=
  let* g := gets (fun g => g) in
  if negb (debugMode g) || (lastUpdateTime (bmsData g) =? 0) then ret tt
  else emit (EvSerial (SerDebugDump (bmsData g))).

Definition jsonStatus (g : Globals) : payload :=
  let b := bmsData g in
  JsonStatus (totalVoltage b) (current b) (soc b) (soh b) (fullCapacity b)
    (cycleCount b) (tempT1 b) (tempT2 b) (tempMOS b) (relayActive g)
    (chargeTargetPercent g).

Definition jsonCells (g : Globals) : payload :=
  JsonCells (map (fun i => cell_at (cellVolts (bmsData g)) (Z.of_nat i))
               (seq 0 28)).

(** [publishData()]; [mqttConnected] is what [mqttClient.connected()]
    answers. The fixed texts sent on the status topic when Zigbee is in use
    are [JsonText] values naming them. *)
Definition publishData (mqttConnected : bool) : M unit :=
  let* t := gets (fun g => lastUpdateTime (bmsData g)) in
  if t =? 0 then ret tt
  else
    printBMSDataDebug ;;;
    let* g := gets (fun g => g) in
    if useZigbee g && zigbeeConnected g then
      emit (EvZigbeePrintln (jsonStatus g)) ;;;
      emit (EvZigbeePrintln (jsonCells g)) ;;;
      when mqttConnected
        (emit (EvMqttPublish topic_status (JsonText "zb UP, data UART")))
    else if negb (useZigbee g) || (useZigbee g && negb (zigbeeConnected g)) then
      when mqttConnected
        (when (useZigbee g)
           (emit (EvMqttPublish topic_status (JsonText "zb DOWN"))) ;;;
         emit (EvMqttPublish topic_status (jsonStatus g)) ;;;
         emit (EvMqttPublish topic_cells (jsonCells g)))
    else ret tt.

(** ** Commands *)

(** [String::toInt()] is the C library's [atol] on the characters: leading
    white space, an optional sign, then decimal digits up to the first
    other character; no digit gives 0, and a value out of the range of
    [long] (32 bits on the target) gives the nearest bound. *)
Module CLib.

Definition isspace (c : ascii) : bool :=
  let n := nat_of_ascii c in
  (n =? 32)%nat || ((9 <=? n)%nat && (n <=? 13)%nat).

Definition digit_val (c : ascii) : option Z :=
  let n := Z.of_nat (nat_of_ascii c) in
  if (48 <=? n) && (n <=? 57) then Some (n - 48) else None.

Fixpoint skip_space (s : string) : string :=
  match s with
  | String c r => if isspace c then skip_space r else s
  | EmptyString => s
  end.

Fixpoint digits (s : string) (acc : Z) : Z :=
  match s with
  | String c r =>
      match digit_val c with
      | Some d => digits r (acc * 10 + d)
      | None => acc
      end
  | EmptyString => acc
  end.

Definition clamp_long (z : Z) : Z := Z.max INT_MIN (Z.min INT_MAX z).

Definition atol (s : string) : Z :=
  match skip_space s with
  | String "-" r => clamp_long (- digits r 0)
  | String "+" r => clamp_long (digits r 0)
  | r => clamp_long (digits r 0)
  end.

(** The C string a buffer holds: its characters up to the first NUL. A
    [String] built a character at a time keeps the NUL characters it was
    given, and the functions of the C library stop at the first of them. *)
Fixpoint c_str (s : string) : string :=
  match s with
  | String c r => if Ascii.eqb c zero then EmptyString else String c (c_str r)
  | EmptyString => EmptyString
  end.

(** [strcmp(a, b) == 0]. *)
Definition strcmp_eq (a b : string) : bool := String.eqb (c_str a) (c_str b).

(** [strstr(haystack, needle)] as an offset into [haystack]: the first
    occurrence of the C string [needle] in the C string [haystack]. *)
Definition strstr (haystack needle : string) : option nat :=
  String.index 0 (c_str needle) (c_str haystack).

End CLib.

Definition toInt (s : string) : Z := CLib.atol s.

(** [String::equals], the [==] of a [String] and a string literal:
    an empty [String] equals the empty literal only, any other is compared
    by [strcmp] on its buffer. *)
Definition equals (s cstr : string) : bool :=
  if (String.length s =? 0)%nat then CLib.strcmp_eq EmptyString cstr
  else CLib.strcmp_eq s cstr.

(** [String::indexOf] of a [String]: -1 for an empty [String], otherwise
    the offset [strstr] finds in the buffer, or -1 when it finds none. *)
Definition indexOf (s needle : string) : Z :=
  if (String.length s =? 0)%nat then -1
  else
    match CLib.strstr s needle with
    | Some i => Z.of_nat i
    | None => -1
    end.

(** [mqttCb(topic, payload, length)]: [topic] is the C string received,
    which holds no NUL, so that its [==] with a literal is the equality of
    the two strings; [payload] lists the [length] bytes received, [msg] is
    the [String] built from them, one character a byte, NUL included. *)
Definition mqttCb (topic : string) (payload : list byte) : M unit :=
  let msg := string_of_list_byte payload in
  (if String.eqb topic topic_set_limit then
     let v := toInt msg in
     if (50 <=? v) && (v <=? 100) then
       modify (with_chargeTargetPercent v) ;;;
       checkChargeControl
     else ret tt
   else ret tt) ;;;
  (if String.eqb topic topic_set_power then
     (if equals msg "OFF" then modify (with_mqttForceOff true)
      else modify (with_mqttForceOff false)) ;;;
     checkChargeControl
   else ret tt).

(** The web handlers; [val] is what [server.arg("val")] returns. *)
Definition handleSetMaster : M unit :=
  modify (fun g => with_chargeMasterSwitch (negb (chargeMasterSwitch g)) g) ;;;
  checkChargeControl ;;;
  emit (EvHttpSend 200).

Definition handleSetMode : M unit :=
  modify (fun g => with_modeMQTT (negb (modeMQTT g)) g) ;;;
  checkChargeControl ;;;
  emit (EvHttpSend 200).

Definition handleSetLimit (val : string) : M unit :=
  modify (with_chargeTargetPercent (toInt val)) ;;;
  let* lim := gets chargeTargetPercent in
  emit (EvPrefPutInt "lim" lim) ;;;
  checkChargeControl ;;;
  emit (EvHttpSend 303).

(** [CB::onDisconnect], and the same reset in the BLE task. *)
Definition onDisconnect : M unit := modify (with_bms (set_lastUpdateTime 0)).

(** The serial command [debug] of the main loop. *)
Definition toggleDebug : M unit :=
  modify (fun g =>
    mkGlobals (bmsData g) (main_packet_shift_byte g) (expect_suite_24 g)
      (expect_suite_25 g) (chargeTargetPercent g) (chargeMasterSwitch g)
      (modeMQTT g) (relayActive g) (useZigbee g) (zigbeeConnected g)
      (mqttForceOff g) (negb (debugMode g)) (bluetoothDataReceived g)).

(** ** The main loop: the Zigbee heartbeat and the status LEDs *)

Definition LED_RELAY : Z := 25.
Definition LED_WIFI : Z := 26.
Definition LED_BT : Z := 27.
Definition LED_MQTT : Z := 32.
Definition LED_ZIGBEE : Z := 33.
Definition BLE_FLASH_DURATION : Z := 100.

Definition with_zigbeeConnected (v : bool) (g : Globals) : Globals :=
  mkGlobals (bmsData g) (main_packet_shift_byte g) (expect_suite_24 g)
    (expect_suite_25 g) (chargeTargetPercent g) (chargeMasterSwitch g)
    (modeMQTT g) (relayActive g) (useZigbee g) v (mqttForceOff g)
    (debugMode g) (bluetoothDataReceived g).

(** The Zigbee status check of [loop()]. [line] is the [String] that
    [readStringUntil] built from the bytes of the Zigbee serial port when
    some are available; [t_beat] and [t_check] are what [millis()] returns
    at its two calls; the variable [lastZigbeeHeartbeat] is passed in and
    returned. *)
Definition zigbeeStatusCheck (line : option string) (t_beat t_check : Z)
    (lastZigbeeHeartbeat : Z) : M Z :=
  let* last :=
    match line with
    | Some s =>
        if (0 <=? indexOf s "heartbeat") || (0 <=? indexOf s "zb_beat") then
          modify (with_zigbeeConnected true) ;;; ret t_beat
        else ret lastZigbeeHeartbeat
    | None => ret lastZigbeeHeartbeat
    end in
  when (30000 <? u32 (t_check - last)) (modify (with_zigbeeConnected false)) ;;;
  ret last.

(** [updateLeds()]. [wifiConnected] is [WiFi.status() == WL_CONNECTED],
    [mqttConnected] is [mqttClient.connected()], [now] what [millis()]
    returns; the variable [lastBleFlashTime] is passed in and returned.
    The level written to a pin is [true] for HIGH. *)
Definition updateLeds (isApMode wifiConnected connected : bool)
    (mqtt_server : string) (mqttConnected : bool) (now lastBleFlashTime : Z)
    : M Z :=
  let* rly := gets relayActive in
  emit (EvDigitalWrite LED_RELAY rly) ;;;
  (if isApMode then emit (EvDigitalWrite LED_WIFI true)
   else emit (EvDigitalWrite LED_WIFI wifiConnected)) ;;;
  let* flash :=
    (if connected then
       let* received := gets bluetoothDataReceived in
       if received then
         emit (EvDigitalWrite LED_BT true) ;;;
         modify (with_bluetoothDataReceived false) ;;;
         ret now
       else if u32 (now - lastBleFlashTime) <? BLE_FLASH_DURATION then
         emit (EvDigitalWrite LED_BT true) ;;; ret lastBleFlashTime
       else
         emit (EvDigitalWrite LED_BT false) ;;; ret lastBleFlashTime
     else
       emit (EvDigitalWrite LED_BT false) ;;; ret lastBleFlashTime) in
  emit (EvDigitalWrite LED_MQTT
          (negb (String.eqb mqtt_server EmptyString) && mqttConnected)) ;;;
  let* zc := gets zigbeeConnected in
  emit (EvDigitalWrite LED_ZIGBEE zc) ;;;
  ret flash.

(** The level last written to [pin] by the events [t], if any. *)
Definition last_write (pin : Z) (t : list event) : option bool :=
  fold_left (fun acc e =>
               match e with
               | EvDigitalWrite p h => if p =? pin then Some h else acc
               | _ => acc
               end) t None.

(** [handleZigbeeJoin]: the join command goes out on the Zigbee serial
    line, as a [JsonText] value naming it, and the browser is sent back to
    the configuration page. *)
Definition handleZigbeeJoin : M unit :=
  emit (EvZigbeePrintln (JsonText "cmd JOIN")) ;;;
  emit (EvHttpSend 303).

(** ** Runs of the firmware *)

(** One call of a function of the sketch: every function that writes a
    global of the model, sends on MQTT or on the Zigbee line, or writes
    the pin of the relay. The BLE task and the main loop run on two cores
    without locking; the model interleaves whole calls. The variables
    [lastBleFlashTime] and [lastZigbeeHeartbeat] are no globals of the
    model: a call may pass any value for them. A pass of the BLE task is
    a sequence of these calls ([CallDisconnect], or [CallPublish] and
    [CallCheck]). The pages and the handlers of the settings and of the
    scans read the globals and write none of them. *)
Inductive call : Type :=
| CallDecode (m : nat -> byte) (len : nat) (now : Z)
| CallCheck
| CallPublish (mqttConnected : bool)
| CallMqtt (topic : string) (payload : list byte)
| CallSetMaster
| CallSetMode
| CallSetLimit (val : string)
| CallDisconnect
| CallDebugToggle
| CallLeds (isApMode wifiConnected connected : bool) (mqtt_server : string)
    (mqttConnected : bool) (now lastBleFlashTime : Z)
| CallZigbeeCheck (line : option string) (t_beat t_check : Z)
    (lastZigbeeHeartbeat : Z)
| CallZigbeeJoin.

Definition run_call (c : call) : M unit :=
  match c with
  | CallDecode m len now => decodeGreenway (frame_ptr m) len now
  | CallCheck => checkChargeControl
  | CallPublish c => publishData c
  | CallMqtt t p => mqttCb t p
  | CallSetMaster => handleSetMaster
  | CallSetMode => handleSetMode
  | CallSetLimit v => handleSetLimit v
  | CallDisconnect => onDisconnect
  | CallDebugToggle => toggleDebug
  | CallLeds ap wifi conn srv mq now last =>
      let* _ := updateLeds ap wifi conn srv mq now last in ret tt
  | CallZigbeeCheck line t_beat t_check last =>
      let* _ := zigbeeStatusCheck line t_beat t_check last in ret tt
  | CallZigbeeJoin => handleZigbeeJoin
  end.

Fixpoint run_calls (cs : list call) : M unit :=
  match cs with
  | [] => ret tt
  | c :: cs' => run_call c ;;; run_calls cs'
  end.

(** The state [setup] leaves, with the persisted limit [lim] (80 when
    nothing is stored); a restart leads back to it. The states the
    firmware can be in are those reached from it by calls. *)
Definition boot (lim : Z) : Globals := with_chargeTargetPercent lim globals_init.

Inductive reachable : Globals -> Prop :=
| reach_boot lim : reachable (boot lim)
| reach_call g c : reachable g -> reachable (state_of (run_call c g)).

(** The reassembly state of the specification, read off the two flags in
    the order the decoder tests them. *)
Inductive pending : Type := NONE | LOW_BLOCK | HIGH_BLOCK.

Definition pendingBlock (g : Globals) : pending :=
  if expect_suite_25 g then HIGH_BLOCK
  else if expect_suite_24 g then LOW_BLOCK
  else NONE.

(** ** The charge decision as the specification words it *)

(** Steps 1 to 4 of the charge controller of the specification, on
    unbounded integers: master switch, limit 100, hysteresis around the
    limit, then the remote override. *)
Definition decide_spec (masterSwitchOn : bool) (limitPercent socPercent : Z)
    (remoteModeEnabled remoteForceOff currentRelayState : bool) : bool :=
  let desired :=
    if negb masterSwitchOn then false
    else if limitPercent =? 100 then true
    else if limitPercent + 1 <=? socPercent then false
    else if socPercent <=? limitPercent - 1 then true
    else currentRelayState in
  if remoteModeEnabled && remoteForceOff then false else desired.

(** The range of the limit in the data model of the specification. *)
Definition limit_in_range (g : Globals) : Prop :=
  50 <= chargeTargetPercent g <= 100.

(** ** The cell stores of a packet, as a function on the array *)

(** [lsb | (msb << 8)] in a [uint16_t]. *)
Definition word_of (lsb msb : Z) : Z := u16 (Z.lor (Z.shiftl msb 8) lsb).

Definition byte_at (data : ptr) (i : nat) : Z :=
  byte_val (mem data (off data + i)%nat).

Definition set_cells (cs : list f32) (g : Globals) : Globals :=
  with_bms (set_cellVolts cs) g.

(** What [cell_loop] leaves in the array. *)
Fixpoint loop_stores (fuel : nat) (data : ptr) (i dataMaxIndex : nat)
    (currentCell cellEndNum : Z) (isShiftedBlock : bool) (cells : list f32)
    : list f32 :=
  match fuel with
  | O => cells
  | S fuel' =>
      if (i <? dataMaxIndex)%nat then
        if cellEndNum <? currentCell then cells
        else if negb isShiftedBlock && (dataMaxIndex <=? i + 1)%nat then cells
        else
          loop_stores fuel' data (i + 2) dataMaxIndex (currentCell + 1)
            cellEndNum isShiftedBlock
            (store_cell (currentCell - 1)
               (milli (word_of (byte_at data i) (byte_at data (i + 1)))) cells)
      else cells
  end.

(** What [printDetailedCellTable] leaves in the array. *)
Definition table_stores (cellStartNum cellEndNum : Z) (data : ptr)
    (startDataIndex dataMaxIndex : nat) (shiftLSB : Z) (isShiftedBlock : bool)
    (cells : list f32) : list f32 :=
  if isShiftedBlock then
    loop_stores (dataMaxIndex - (startDataIndex + 1)) data (startDataIndex + 1)
      dataMaxIndex (cellStartNum + 1) cellEndNum isShiftedBlock
      (store_cell (cellStartNum - 1)
         (milli (word_of shiftLSB (byte_at data 0))) cells)
  else
    loop_stores (dataMaxIndex - startDataIndex) data startDataIndex
      dataMaxIndex cellStartNum cellEndNum isShiftedBlock cells.

(** ** Synthetic cell frames *)

(** A cell voltage on the wire: millivolts in 16 bits. *)
Definition is_mv (mv : Z) : Prop := 0 <= mv < 65536.

Definition lo_byte (mv : Z) : byte := byte_of_Z (mv mod 256).
Definition hi_byte (mv : Z) : byte := byte_of_Z (mv / 256).
Definition le16_bytes (mv : Z) : list byte := [lo_byte mv; hi_byte mv].

(** The layout the decoder reads. A block header of 20 bytes carries the
    register id at offset 3, seven cells from offset 5 and, as its last
    byte, the low byte of the eighth cell. The follow-up frame of 18 bytes
    starts with the high byte of that eighth cell; the cells that follow
    start at offset 1: eight of them after the header [0x24], four after
    the header [0x25], whose follow-up also carries the maximum and the
    minimum voltage at offsets 13 and 15. [pad] fills the bytes the
    decoder does not look at. *)
Definition block_header (tag pad : byte) (mvs : list Z) : list byte :=
  [pad; pad; pad; tag; pad] ++ flat_map le16_bytes (firstn 7 mvs)
  ++ [lo_byte (nth 7 mvs 0)].

Definition low_followup (pad : byte) (mvs : list Z) : list byte :=
  hi_byte (nth 7 mvs 0) :: flat_map le16_bytes (skipn 8 mvs) ++ [pad].

Definition high_followup (pad : byte) (maxV minV : Z) (mvs : list Z)
    : list byte :=
  hi_byte (nth 7 mvs 0) :: flat_map le16_bytes (skipn 8 mvs)
  ++ [pad; pad; pad; pad] ++ le16_bytes maxV ++ le16_bytes minV ++ [pad].

(** The register ids that an 18-byte frame is decoded as when they stand
    at offset 3, before the frame is looked at as a follow-up. *)
Definition followup_tag_clash (b : Z) : Prop :=
  b = 0x09 \/ b = 0x0A \/ b = 0x08 \/ b = 0x17.

(** [x] is within one millivolt (exclusive) of [mv] thousandths, on
    integers: [|1000 m - mv 2^e| < 2^e] for [x = m 2^-e]. *)
Definition close_Z (x : f32) (mv : Z) : bool :=
  match x with
  | S754_zero _ => mv =? 0
  | S754_finite false m (Zneg e) =>
      Z.abs (1000 * Zpos m - mv * Zpos (2 ^ e)) <? Zpos (2 ^ e)
  | _ => false
  end.

(** The quotient of a [double] with a 53-bit mantissa by [1000.0], by a
    division of the mantissa by 1000 instead of by the mantissa of
    [1000.0]; [div1000_fast] below shows it is the same [double]. *)
Definition m1000 : positive := 8796093022208000.   (* 1000 * 2^43 *)

Definition div1000_small (m1 : positive) (e1 : Z) : f64 :=
  let '(q, r) := Z.div_eucl (Zpos m1 * 1024) 1000 in
  binary_round_aux prec64 emax64 false q (e1 - 10) (new_location 1000 r).

(** ** Predicates on states and events *)

(** The register ids the decoder knows. *)
Definition recognized_tag (regId : Z) : Prop :=
  regId = 0x09 \/ regId = 0x0A \/ regId = 0x08 \/ regId = 0x17 \/
  regId = 0x25 \/ regId = 0x24.

(** The two cell indices are what the scan of the cells leaves. *)
Definition min_max_settled (b : BmsData) : Prop := update_min_max b = b.

(** Every event a computation emits satisfies [P]. *)
Definition emits_only {A : Type} (P : event -> Prop) (m : M A) : Prop :=
  forall (g : Globals) (e : event), In e (trace_of (m g)) -> P e.

(** A cell store has its index in [lo..hi]; a frame read is below [n]. *)
Definition cell_write_in (lo hi : Z) (e : event) : Prop :=
  match e with
  | EvCellWrite i _ => lo <= i <= hi
  | _ => True
  end.

Definition read_below (n : nat) (e : event) : Prop :=
  match e with
  | EvFrameRead i => (i < n)%nat
  | _ => True
  end.

(** ** Example states and frames *)

(** Limit 85, relay on, state of charge 86. *)
Definition g_soc86 : Globals :=
  with_bms (set_soc 86) (with_relayActive true (boot 85)).

(** A temperature frame of exactly 9 bytes and a current frame of exactly
    18 bytes; the byte after each frame in memory is [xff]. *)
Definition temp_frame_9 : list byte :=
  [x47; x16; x01; x08; x04; x19; x00; x1a; x00].

Definition current_frame_18 : list byte :=
  [x47; x16; x01; x0a; x0d; x24; xfa; xff; xff; x52; x00; x00; x00; x62;
   x00; x00; x00; xe8].

(** A frame of 18 bytes that is no register frame. *)
Definition stray_frame_18 : list byte :=
  [x0e; x7c; x0e; x7d; x0e; x7e; x0e; x7f; x0e; x80; x0e; x81; x0e; x82;
   x0e; x83; x0e; x00].

(** A 6-byte frame with an unknown register id. *)
Definition unknown_frame_6 : list byte := [x47; x16; x01; xee; x00; x00].

(** Sixteen cells for the block [0x24], twelve for the block [0x25]. *)
Definition low_cells : list Z :=
  [3700; 3701; 3702; 3703; 3704; 3705; 3706; 3707;
   3708; 3709; 3710; 3711; 3712; 3713; 3714; 3715].

Definition high_cells : list Z :=
  [3800; 3801; 3802; 3803; 3804; 3805; 3806; 3807;
   3808; 3809; 3810; 3811].

(** Decoding a header frame, then its follow-up frame. *)
Definition low_block_calls (pad : byte) (mvs : list Z) (t1 t2 : Z) : list call :=
  [CallDecode (frame_mem (block_header x24 pad mvs) pad) 20 t1;
   CallDecode (frame_mem (low_followup pad mvs) pad) 18 t2].

Definition high_block_calls (pad : byte) (maxV minV : Z) (mvs : list Z)
    (t1 t2 : Z) : list call :=
  [CallDecode (frame_mem (block_header x25 pad mvs) pad) 20 t1;
   CallDecode (frame_mem (high_followup pad maxV minV mvs) pad) 18 t2].

(** A block [0x24] whose tenth cell is 3849 mV: the byte at offset 3 of
    its follow-up frame is [0x09]. *)
Definition clash_cells : list Z :=
  [3700; 3701; 3702; 3703; 3704; 3705; 3706; 3707;
   3708; 3849; 3710; 3711; 3712; 3713; 3714; 3715].


(** ** The number a stored value denotes *)

(** The finite float [x] is the rational [q]. *)
Definition denotes (x : spec_float) (q : Q) : Prop :=
  match to_Q x with
  | Some r => (r == q)%Q
  | None => False
  end.

(** ** Synthetic register frames *)

(** The four bytes of a 32-bit value, least significant first. *)
Definition le32_bytes (z : Z) : list byte :=
  [byte_of_Z z; byte_of_Z (z / 256); byte_of_Z (z / 65536);
   byte_of_Z (z / 16777216)].

(** The [int32_t] that [get32BitLEValue] assembles from the four bytes at
    [index]. *)
Definition int32_at (data : ptr) (index : nat) : Z :=
  s32 (u32 (Z.lor (Z.lor (Z.lor (byte_at data index)
                                (Z.shiftl (byte_at data (index + 1)) 8))
                         (Z.shiftl (byte_at data (index + 2)) 16))
                  (Z.shiftl (byte_at data (index + 3)) 24))).

(** A register frame: the register id at offset 3, its data from offset 5
    on; the other bytes of the header are [pad]. *)
Definition register_frame (tag pad : byte) (data : list byte) : list byte :=
  [pad; pad; pad; tag; pad] ++ data.

(** Register [0x09]: the total voltage in millivolts at offsets 5 to 8. *)
Definition voltage_frame (pad : byte) (mv : Z) : list byte :=
  register_frame x09 pad (le32_bytes mv).

(** Register [0x0A]: the current in milliamperes at offsets 5 to 8, the
    state of charge at 9, the state of health at 13, the capacity at 17
    and 18. *)
Definition current_frame (pad : byte) (ma socv sohv cap : Z) : list byte :=
  register_frame x0a pad
    (le32_bytes ma ++ [byte_of_Z socv; pad; pad; pad; byte_of_Z sohv;
                       pad; pad; pad] ++ le16_bytes cap).

(** Register [0x08]: three temperatures, one signed byte each, at offsets
    5, 7 and 9. *)
Definition temperature_frame (pad : byte) (t1 t2 tm : Z) : list byte :=
  register_frame x08 pad [byte_of_Z t1; pad; byte_of_Z t2; pad; byte_of_Z tm].

(** Register [0x17]: the cycle count at offsets 5 and 6. *)
Definition cycle_frame (pad : byte) (n : Z) : list byte :=
  register_frame x17 pad (le16_bytes n).

(** The register ids decoded into a field of the snapshot, with the
    length each needs. *)
Definition value_register (regId : Z) (len : nat) : Prop :=
  (regId = 0x09 /\ (9 <= len)%nat) \/ (regId = 0x0A /\ (18 <= len)%nat) \/
  (regId = 0x08 /\ (9 <= len)%nat) \/ (regId = 0x17 /\ (7 <= len)%nat).

(** ** What a call leaves alone *)

(** The computation [m] leaves the part [f] of the globals as it is. *)
Definition keeps {A B : Type} (f : Globals -> B) (m : M A) : Prop :=
  forall g : Globals, f (state_of (m g)) = f g.

(** What the reassembly of a cell block depends on: the cells stored so
    far, the shift byte of the header and the two flags. *)
Definition reassembly (g : Globals) : list f32 * Z * bool * bool :=
  (cellVolts (bmsData g), main_packet_shift_byte g, expect_suite_24 g,
   expect_suite_25 g).

(** The settings and flags that are no business of the decoder: those of
    the charge control, of the Zigbee link and of the debug mode. *)
Definition control (g : Globals)
    : Z * bool * bool * bool * bool * bool * bool * bool :=
  (chargeTargetPercent g, chargeMasterSwitch g, modeMQTT g, relayActive g,
   mqttForceOff g, useZigbee g, zigbeeConnected g, debugMode g).

(** A call that may come between the header and the follow-up of a cell
    block: a frame of a value register, or any call that is no frame. *)
Definition between_block (c : call) : Prop :=
  match c with
  | CallDecode m len _ => value_register (byte_val (m 3%nat)) len
  | _ => True
  end.

(** A header frame, the calls [cs], then the follow-up frame. *)
Definition low_block_interleaved (pad : byte) (mvs : list Z) (t1 t2 : Z)
    (cs : list call) : list call :=
  CallDecode (frame_mem (block_header x24 pad mvs) pad) 20 t1
  :: cs ++ [CallDecode (frame_mem (low_followup pad mvs) pad) 18 t2].

Definition high_block_interleaved (pad : byte) (maxV minV : Z) (mvs : list Z)
    (t1 t2 : Z) (cs : list call) : list call :=
  CallDecode (frame_mem (block_header x25 pad mvs) pad) 20 t1
  :: cs ++ [CallDecode (frame_mem (high_followup pad maxV minV mvs) pad) 18 t2].

(** A total-voltage frame, a run of the charge control and a publication,
    as they may come between the two frames of a block. *)
Definition calls_between : list call :=
  [CallDecode (frame_mem (voltage_frame x00 100800) xff) 9 2; CallCheck;
   CallPublish true].

(** ** Ranges of the fields *)

(** Every integer field holds a value of its C type, the two cell indices
    lie below 28, the cell array has its 32 entries and at most one block
    is pending. *)
Definition fields_in_range (g : Globals) : Prop :=
  length (cellVolts (bmsData g)) = CELL_ARRAY_LEN
  /\ 0 <= soc (bmsData g) < 256 /\ 0 <= soh (bmsData g) < 256
  /\ 0 <= cycleCount (bmsData g) < 65536
  /\ -128 <= tempT1 (bmsData g) <= 127
  /\ -128 <= tempT2 (bmsData g) <= 127
  /\ -128 <= tempMOS (bmsData g) <= 127
  /\ 0 <= minCellIndex (bmsData g) < 28
  /\ 0 <= maxCellIndex (bmsData g) < 28
  /\ 0 <= main_packet_shift_byte g < 256
  /\ expect_suite_24 g && expect_suite_25 g = false.

(** The computation [m] keeps the property [I] of the globals. *)
Definition preserves {A : Type} (I : Globals -> Prop) (m : M A) : Prop :=
  forall g : Globals, I g -> I (state_of (m g)).

(** Every value [m] returns satisfies [P]. *)
Definition returns {A : Type} (P : A -> Prop) (m : M A) : Prop :=
  forall g : Globals, P (fst (fst (m g))).

(** ** The lowest and the highest cell *)

(** The test [v > 0.1] of the scan. *)
Definition eligible (v : f32) : bool := f64_ltb d0_1 (f64_of_f32 v).

(** Cell [k] is the first of the lowest cells among those above 0.1 V,
    and it is below 10 V. *)
Definition lowest_cell (cells : list f32) (k : Z) : Prop :=
  0 <= k < 28
  /\ eligible (cell_at cells k) = true
  /\ f32_ltb (cell_at cells k) f10 = true
  /\ (forall j : Z, 0 <= j < 28 -> eligible (cell_at cells j) = true ->
      f32_ltb (cell_at cells j) (cell_at cells k) = false)
  /\ (forall j : Z, 0 <= j < k -> eligible (cell_at cells j) = true ->
      f32_ltb (cell_at cells k) (cell_at cells j) = true).

(** Cell [k] is the first of the highest cells among those above 0.1 V. *)
Definition highest_cell (cells : list f32) (k : Z) : Prop :=
  0 <= k < 28
  /\ eligible (cell_at cells k) = true
  /\ f32_ltb f32_zero (cell_at cells k) = true
  /\ (forall j : Z, 0 <= j < 28 -> eligible (cell_at cells j) = true ->
      f32_ltb (cell_at cells k) (cell_at cells j) = false)
  /\ (forall j : Z, 0 <= j < k -> eligible (cell_at cells j) = true ->
      f32_ltb (cell_at cells j) (cell_at cells k) = true).

(** No cell above 0.1 V is below 10 V; none is above 0 V. *)
Definition no_lowest (cells : list f32) : Prop :=
  forall j : Z, 0 <= j < 28 -> eligible (cell_at cells j) = true ->
  f32_ltb (cell_at cells j) f10 = false.

Definition no_highest (cells : list f32) : Prop :=
  forall j : Z, 0 <= j < 28 -> eligible (cell_at cells j) = true ->
  f32_ltb f32_zero (cell_at cells j) = false.

(** What the scan has established when it has looked at the cells below
    index [i]: [idx0] is the index held before the scan. *)
Definition min_scanned (cells : list f32) (idx0 i : Z) (s : scan_state)
    : Prop :=
  (forall j : Z, 0 <= j < i -> eligible (cell_at cells j) = true ->
   f32_ltb (cell_at cells j) (sc_minV s) = false)
  /\ ((sc_minV s = f10 /\ sc_minIdx s = idx0)
      \/ exists k : Z,
           0 <= k < i /\ sc_minIdx s = k /\ sc_minV s = cell_at cells k
           /\ eligible (cell_at cells k) = true
           /\ f32_ltb (cell_at cells k) f10 = true
           /\ forall j : Z, 0 <= j < k -> eligible (cell_at cells j) = true ->
              f32_ltb (cell_at cells k) (cell_at cells j) = true).

Definition max_scanned (cells : list f32) (idx0 i : Z) (s : scan_state)
    : Prop :=
  (forall j : Z, 0 <= j < i -> eligible (cell_at cells j) = true ->
   f32_ltb (sc_maxV s) (cell_at cells j) = false)
  /\ ((sc_maxV s = f32_zero /\ sc_maxIdx s = idx0)
      \/ exists k : Z,
           0 <= k < i /\ sc_maxIdx s = k /\ sc_maxV s = cell_at cells k
           /\ eligible (cell_at cells k) = true
           /\ f32_ltb f32_zero (cell_at cells k) = true
           /\ forall j : Z, 0 <= j < k -> eligible (cell_at cells j) = true ->
              f32_ltb (cell_at cells j) (cell_at cells k) = true).

(** ** The relay pin *)

(** The level of the relay pin after the events [t], from the level
    [high]: [true] is HIGH, which opens the relay (the pin is active
    low). *)
Fixpoint relay_level (high : bool) (t : list event) : bool :=
  match t with
  | [] => high
  | EvDigitalWrite pin h :: t' =>
      relay_level (if pin =? RELAY_PIN then h else high) t'
  | _ :: t' => relay_level high t'
  end.

(** What the decoder may emit: reads of the frame, stores of cells and
    the lines of the debug mode. *)
Definition decoder_event (e : event) : Prop :=
  match e with
  | EvFrameRead _ | EvCellWrite _ _ => True
  | EvSerial (SerDebugPacket _ _ _) | EvSerial (SerDebugDecoded _) => True
  | _ => False
  end.

(** No write to a pin and no write to the preferences. *)
Definition no_pin_write (e : event) : Prop :=
  match e with
  | EvDigitalWrite _ _ => False
  | _ => True
  end.

Definition no_pref_write (e : event) : Prop :=
  match e with
  | EvPrefPutInt _ _ => False
  | _ => True
  end.

(** The computation [m] keeps the pin at the level that goes with
    [relayActive]: HIGH when the relay is off, LOW when it is on. *)
Definition tracks {A : Type} (m : M A) : Prop :=
  forall g : Globals,
  relay_level (negb (relayActive g)) (trace_of (m g))
  = negb (relayActive (state_of (m g))).

(** ** Publications *)

(** The snapshot goes out: a JSON document on MQTT or on the Zigbee
    serial line. *)
Definition publishes (e : event) : Prop :=
  match e with
  | EvMqttPublish _ _ | EvZigbeePrintln _ => True
  | _ => False
  end.

Definition sent_on_mqtt (t : list event) : Prop :=
  exists (topic : string) (p : payload), In (EvMqttPublish topic p) t.

Definition sent_on_zigbee (t : list event) : Prop :=
  exists p : payload, In (EvZigbeePrintln p) t.

(** A call that is no frame. *)
Definition no_frame (c : call) : Prop :=
  match c with
  | CallDecode _ _ _ => False
  | _ => True
  end.

(** Of what goes out on MQTT and on the Zigbee line, the event is at most
    the join command of [handleZigbeeJoin]. *)
Definition join_only (e : event) : Prop :=
  publishes e -> e = EvZigbeePrintln (JsonText "cmd JOIN").

(** What [publishData] sends once the snapshot is valid, after the dump
    of the debug mode. *)
Definition publications (mqttConnected : bool) (g : Globals) : list event :=
  if useZigbee g && zigbeeConnected g then
    [EvZigbeePrintln (jsonStatus g); EvZigbeePrintln (jsonCells g)]
    ++ (if mqttConnected
        then [EvMqttPublish topic_status (JsonText "zb UP, data UART")]
        else [])
  else if mqttConnected then
    (if useZigbee g
     then [EvMqttPublish topic_status (JsonText "zb DOWN")] else [])
    ++ [EvMqttPublish topic_status (jsonStatus g);
        EvMqttPublish topic_cells (jsonCells g)]
  else [].

(** ** The BLE task: the request cycle *)

(** [registersToRequest], asked for in rotation. *)
Definition registersToRequest : list Z := [0x09; 0x0A; 0x08; 0x24; 0x25; 0x17].

Definition REQUEST_INTERVAL_MS : Z := 500.
Definition publishInterval : Z := 10000.

(** [a % b] on two [int]s: the remainder has the sign of [a]. *)
Definition int_rem (a b : Z) : Z := Z.rem a b.

(** The command the task writes to the characteristic:
    [{0x46, 0x16, 0x01, registersToRequest[requestIndex % 6], 0x20, s}]
    with [s] the sum of the first five bytes in a [uint8_t]. A negative
    [requestIndex] indexes before the array, which is undefined: the
    model has no command then. *)
Definition checksum (cmd : list Z) : Z := fold_left (fun s b => u8 (s + b)) cmd 0.

Definition request_command (requestIndex : Z) : option (list Z) :=
  let k := int_rem requestIndex 6 in
  if k <? 0 then None
  else
    match registersToRequest !! Z.to_nat k with
    | Some reg =>
        let cmd := [0x46; 0x16; 0x01; reg; 0x20] in
        Some (cmd ++ [checksum cmd])
    | None => None
    end.

(** The variables of the task that are not in [Globals]. *)
Record BleTask : Type := mkBleTask {
  connected : bool;
  chrData : bool;            (* chrData != nullptr *)
  requestIndex : Z;          (* int *)
  lastRequestTime : Z;       (* unsigned long *)
  lastPublish : Z;           (* unsigned long *)
  lastTry : Z                (* unsigned long, local to the task *)
}.

(** What [millis()] returns at each of its five calls in the branch, and
    what the BLE client and the MQTT client answer. *)
Record BleEnv : Type := mkBleEnv {
  linkUp : bool;             (* pClient->isConnected() *)
  t_lost : Z;                (* lastTry = millis() *)
  t_request : Z;             (* millis() - lastRequestTime *)
  t_requested : Z;           (* lastRequestTime = millis() *)
  t_publish : Z;             (* millis() - lastPublish *)
  t_published : Z;           (* lastPublish = millis() *)
  mqttUp : bool              (* mqttClient.connected() *)
}.

(** What the task does besides the calls into the sketch: a line on the
    serial console, a command written to the characteristic ([None]
    where its content is undefined), a reset of the watchdog. *)
Inductive task_event : Type :=
| TkSerial (text : string)
| TkWdtReset
| TkBleWrite (cmd : option (list Z)).

(** One pass through the branch [else if (connected && chrData)] of the
    task loop: the new values of the task's variables and what the task
    did, besides the events of [publishData] and [checkChargeControl]. *)
Definition active_connection (env : BleEnv) (t : BleTask)
    : M (BleTask * list task_event) :=
  if negb (linkUp env) then
    modify (with_bms (set_lastUpdateTime 0)) ;;;
    ret (mkBleTask false false (requestIndex t) (lastRequestTime t)
           (lastPublish t) (t_lost env),
         [TkSerial "BLE physical link lost (inside active loop). Forcing reconnect."])
  else
    let requested :=
      REQUEST_INTERVAL_MS <? u32 (t_request env - lastRequestTime t) in
    let t1 :=
      if requested then
        mkBleTask (connected t) (chrData t) (int_add (requestIndex t) 1)
          (t_requested env) (lastPublish t) (lastTry t)
      else t in
    let done :=
      if requested
      then [TkWdtReset; TkBleWrite (request_command (requestIndex t))]
      else [] in
    let publish := publishInterval <? u32 (t_publish env - lastPublish t1) in
    when publish (publishData (mqttUp env)) ;;;
    let t2 :=
      if publish then
        mkBleTask (connected t1) (chrData t1) (requestIndex t1)
          (lastRequestTime t1) (t_published env) (lastTry t1)
      else t1 in
    checkChargeControl ;;;
    ret (t2, done).

(** ** The limit in the preferences *)

(** What [preferences.getInt("lim", 80)] answers after the events [t],
    when it answered [stored] before them. *)
Definition persisted_limit (stored : Z) (t : list event) : Z :=
  fold_left (fun v e =>
               match e with
               | EvPrefPutInt key x => if String.eqb key "lim" then x else v
               | _ => v
               end) t stored.

(** The call is a limit command that [mqttCb] accepts. *)
Definition sets_limit_over_mqtt (c : call) : bool :=
  match c with
  | CallMqtt topic payload =>
      String.eqb topic topic_set_limit
      && ((50 <=? toInt (string_of_list_byte payload))
          && (toInt (string_of_list_byte payload) <=? 100))
  | _ => false
  end.

(** The computation [m] leaves the limit and the preferences in step:
    when the limit is the stored one before, so it is after. *)
Definition limit_stored {A : Type} (m : M A) : Prop :=
  forall (g : Globals) (stored : Z),
  chargeTargetPercent g = stored ->
  chargeTargetPercent (state_of (m g)) = persisted_limit stored (trace_of (m g)).
(** * Properties *)

(** ** Fixed-width arithmetic *)

Lemma s32_in_range (z : Z) : INT_MIN <= z <= INT_MAX -> s32 z = z.
Proof.
  unfold INT_MIN, INT_MAX, s32, u32. intros Hz.
  destruct (Z_lt_le_dec z 0) as [Hneg | Hpos].
  - assert (Hm : z mod 4294967296 = z + 4294967296).
    { symmetry. apply Z.mod_unique with (q := -1); lia. }
    rewrite Hm.
    destruct (Z.ltb_spec (z + 4294967296) 2147483648); lia.
  - rewrite Z.mod_small by lia.
    destruct (Z.ltb_spec z 2147483648); lia.
Qed.

Lemma byte_val_of_Z (z : Z) : 0 <= z < 256 -> byte_val (byte_of_Z z) = z.
Proof.
  intros Hz. unfold byte_val, byte_of_Z, u8.
  rewrite Z.mod_small by lia.
  destruct (Byte.of_N (Z.to_N z)) as [b |] eqn:Hb.
  - apply Byte.to_of_N in Hb. rewrite Hb. lia.
  - apply Byte.of_N_None_iff in Hb. lia.
Qed.

(** ** The monad *)

Lemma state_of_bind {A B : Type} (m : M A) (k : A -> M B) (g : Globals) :
  state_of (bind m k g) = state_of (k (fst (fst (m g))) (state_of (m g))).
Proof.
  unfold bind, state_of.
  destruct (m g) as [[a g1] t1]; simpl.
  destruct (k a g1) as [[b g2] t2]; reflexivity.
Qed.

Lemma trace_of_bind {A B : Type} (m : M A) (k : A -> M B) (g : Globals) :
  trace_of (bind m k g) =
  trace_of (m g) ++ trace_of (k (fst (fst (m g))) (state_of (m g))).
Proof.
  unfold bind, state_of, trace_of.
  destruct (m g) as [[a g1] t1]; simpl.
  destruct (k a g1) as [[b g2] t2]; reflexivity.
Qed.

(** ** The main loop *)

Lemma zigbee_check_value (line : option string) (t_beat t_check last : Z)
    (g : Globals) :
  fst (fst (zigbeeStatusCheck line t_beat t_check last g))
  = match line with
    | Some s =>
        if (0 <=? indexOf s "heartbeat") || (0 <=? indexOf s "zb_beat")
        then t_beat else last
    | None => last
    end.
Proof.
  unfold zigbeeStatusCheck.
  destruct line as [s |];
    [destruct ((0 <=? indexOf s "heartbeat") || (0 <=? indexOf s "zb_beat")) |];
    cbn [bind modify ret fst snd];
    match goal with |- context [when ?b _] => destruct b end; reflexivity.
Qed.

Lemma zigbee_check_state (line : option string) (t_beat t_check last : Z)
    (g : Globals) :
  let beat :=
    match line with
    | Some s => (0 <=? indexOf s "heartbeat") || (0 <=? indexOf s "zb_beat")
    | None => false
    end in
  let last' := if beat then t_beat else last in
  state_of (zigbeeStatusCheck line t_beat t_check last g)
  = if 30000 <? u32 (t_check - last') then with_zigbeeConnected false g
    else if beat then with_zigbeeConnected true g else g.
Proof.
  cbv zeta. unfold zigbeeStatusCheck.
  destruct line as [s |];
    [destruct ((0 <=? indexOf s "heartbeat") || (0 <=? indexOf s "zb_beat")) |];
    cbn [bind modify ret fst snd state_of];
    match goal with |- context [when ?b _] => destruct b end; reflexivity.
Qed.

Lemma with_zigbeeConnected_same (g : Globals) :
  with_zigbeeConnected (zigbeeConnected g) g = g.
Proof. destruct g; reflexivity. Qed.

Lemma zigbee_check_trace (line : option string) (t_beat t_check last : Z)
    (g : Globals) :
  trace_of (zigbeeStatusCheck line t_beat t_check last g) = [].
Proof.
  unfold zigbeeStatusCheck.
  destruct line as [s |];
    [destruct ((0 <=? indexOf s "heartbeat") || (0 <=? indexOf s "zb_beat")) |];
    cbn [bind modify ret fst snd trace_of];
    match goal with |- context [when ?b _] => destruct b end; reflexivity.
Qed.

Lemma updateLeds_run (isApMode wifiConnected connected : bool)
    (mqtt_server : string) (mqttConnected : bool) (now last : Z)
    (g : Globals) :
  updateLeds isApMode wifiConnected connected mqtt_server mqttConnected now
    last g
  = (if connected && bluetoothDataReceived g then now else last,
     if connected then with_bluetoothDataReceived false g else g,
     [EvDigitalWrite LED_RELAY (relayActive g);
      EvDigitalWrite LED_WIFI (isApMode || wifiConnected);
      EvDigitalWrite LED_BT
        (connected
         && (bluetoothDataReceived g
             || (u32 (now - last) <? BLE_FLASH_DURATION)));
      EvDigitalWrite LED_MQTT
        (negb (String.eqb mqtt_server EmptyString) && mqttConnected);
      EvDigitalWrite LED_ZIGBEE (zigbeeConnected g)]).
Proof.
  destruct g as [b sh e24 e25 lim ms md rly uz zc fo dbg rcv].
  unfold updateLeds, bind, gets, emit, modify, ret,
    with_bluetoothDataReceived.
  cbn [relayActive bluetoothDataReceived zigbeeConnected bmsData
       main_packet_shift_byte expect_suite_24 expect_suite_25
       chargeTargetPercent chargeMasterSwitch modeMQTT useZigbee mqttForceOff
       debugMode].
  destruct isApMode, connected; cbn [andb orb app];
    try destruct rcv; cbn [andb orb app];
    try destruct (u32 (now - last) <? BLE_FLASH_DURATION);
    reflexivity.
Qed.

(** The two cases of the line read from the Zigbee port. *)
Ltac split_line :=
  match goal with
  | |- context [match ?l with Some _ => _ | None => _ end] => destruct l
  end.

Lemma run_leds (isApMode wifiConnected connected : bool)
    (mqtt_server : string) (mqttConnected : bool) (now last : Z)
    (g : Globals) :
  state_of (run_call (CallLeds isApMode wifiConnected connected mqtt_server
                        mqttConnected now last) g)
  = (if connected then with_bluetoothDataReceived false g else g)
  /\ trace_of (run_call (CallLeds isApMode wifiConnected connected mqtt_server
                           mqttConnected now last) g)
     = trace_of (updateLeds isApMode wifiConnected connected mqtt_server
                   mqttConnected now last g).
Proof.
  cbn [run_call]. rewrite state_of_bind, trace_of_bind, updateLeds_run.
  cbn [ret state_of trace_of fst snd]. rewrite app_nil_r.
  split; reflexivity.
Qed.

Lemma run_zigbee_check (line : option string) (t_beat t_check last : Z)
    (g : Globals) :
  state_of (run_call (CallZigbeeCheck line t_beat t_check last) g)
  = state_of (zigbeeStatusCheck line t_beat t_check last g)
  /\ trace_of (run_call (CallZigbeeCheck line t_beat t_check last) g) = [].
Proof.
  cbn [run_call]. rewrite state_of_bind, trace_of_bind, zigbee_check_trace.
  split; reflexivity.
Qed.

Lemma zigbee_check_flag (line : option string) (t_beat t_check last : Z)
    (g : Globals) :
  exists b : bool,
    state_of (zigbeeStatusCheck line t_beat t_check last g)
    = with_zigbeeConnected b g.
Proof.
  rewrite zigbee_check_state. cbv zeta.
  match goal with |- context [if ?c then with_zigbeeConnected false g else _] =>
    destruct c end.
  - exists false. reflexivity.
  - match goal with |- context [if ?c then with_zigbeeConnected true g else _] =>
      destruct c end.
    + exists true. reflexivity.
    + exists (zigbeeConnected g). symmetry. apply with_zigbeeConnected_same.
Qed.

(** ** Charge control *)

Lemma checkChargeControl_relay (g : Globals) :
  relayActive (state_of (checkChargeControl g)) = desiredState g.
Proof.
  unfold checkChargeControl, bind, gets, emit, modify, ret, state_of; simpl.
  destruct (desiredState g) eqn:Hd, (relayActive g) eqn:Hr; simpl; congruence.
Qed.

Lemma checkChargeControl_state (g : Globals) :
  state_of (checkChargeControl g) = with_relayActive (desiredState g) g.
Proof.
  unfold checkChargeControl, bind, gets, emit, modify, ret, state_of; simpl.
  destruct g as [b sh e24 e25 lim ms mode rly uz zc fo dbg btr].
  destruct (desiredState _) eqn:Hd, rly; simpl; reflexivity.
Qed.

(** C1. The charge decision computed by [checkChargeControl] is the one
    of the specification: OFF when the master switch is off; otherwise ON
    when the limit is 100; otherwise OFF for [soc >= limit + 1], ON for
    [soc <= limit - 1] and the prior relay state in between; and OFF
    whenever remote mode and remote force-off both hold. The relay takes
    that value, and the decision is a function of these six inputs alone.
    The limit is any [int] for which [limit + 1] and [limit - 1] do not
    overflow. *)
Theorem C1_charge_decision (g : Globals) :
  INT_MIN < chargeTargetPercent g < INT_MAX ->
  desiredState g =
    decide_spec (chargeMasterSwitch g) (chargeTargetPercent g)
      (soc (bmsData g)) (modeMQTT g) (mqttForceOff g) (relayActive g)
  /\ (modeMQTT g = true -> mqttForceOff g = true -> desiredState g = false)
  /\ (chargeMasterSwitch g = false -> desiredState g = false)
  /\ relayActive (state_of (checkChargeControl g)) = desiredState g
  /\ (forall g' : Globals,
        chargeMasterSwitch g' = chargeMasterSwitch g ->
        chargeTargetPercent g' = chargeTargetPercent g ->
        soc (bmsData g') = soc (bmsData g) ->
        modeMQTT g' = modeMQTT g ->
        mqttForceOff g' = mqttForceOff g ->
        relayActive g' = relayActive g ->
        desiredState g' = desiredState g).
Proof.
  intros Hlim.
  assert (Hp : int_add (chargeTargetPercent g) 1 = chargeTargetPercent g + 1).
  { apply s32_in_range. unfold INT_MIN, INT_MAX in *. lia. }
  assert (Hm : int_sub (chargeTargetPercent g) 1 = chargeTargetPercent g - 1).
  { apply s32_in_range. unfold INT_MIN, INT_MAX in *. lia. }
  repeat split.
  - unfold desiredState, decide_spec. rewrite Hp, Hm.
    destruct (chargeMasterSwitch g); simpl; [reflexivity |].
    destruct (modeMQTT g && mqttForceOff g); reflexivity.
  - intros Hmode Hoff. unfold desiredState. rewrite Hmode, Hoff.
    destruct (chargeMasterSwitch g); reflexivity.
  - intros Hms. unfold desiredState. rewrite Hms. reflexivity.
  - apply checkChargeControl_relay.
  - intros g' H1 H2 H3 H4 H5 H6. unfold desiredState.
    rewrite H1, H2, H3, H4, H5, H6. reflexivity.
Qed.

Lemma C1_charge_decision_witness :
  INT_MIN < chargeTargetPercent g_soc86 < INT_MAX /\
  desiredState g_soc86 = false /\
  relayActive (state_of (checkChargeControl g_soc86)) = false.
Proof.
  assert (Hlim : INT_MIN < chargeTargetPercent g_soc86 < INT_MAX).
  { unfold INT_MIN, INT_MAX. simpl. lia. }
  destruct (C1_charge_decision g_soc86 Hlim) as (Hspec & _ & _ & Hrelay & _).
  split; [exact Hlim |].
  split.
  - rewrite Hspec. reflexivity.
  - rewrite Hrelay, Hspec. reflexivity.
Defined.

(** ** Publication *)

(** C9. While the snapshot is invalid ([lastUpdateTime == 0]) the publish
    step emits nothing at all (no MQTT publication, no Zigbee line, no
    serial line) and leaves the globals as they are; so anything it emits
    is emitted with [lastUpdateTime != 0]. *)
Theorem C9_publish_gated (mqttConnected : bool) (g : Globals) :
  (lastUpdateTime (bmsData g) = 0 ->
   publishData mqttConnected g = (tt, g, []))
  /\ (trace_of (publishData mqttConnected g) <> [] ->
      lastUpdateTime (bmsData g) <> 0)
  /\ (forall (topic : string) (p : payload),
        In (EvMqttPublish topic p) (trace_of (publishData mqttConnected g)) ->
        lastUpdateTime (bmsData g) <> 0).
Proof.
  assert (Hzero : lastUpdateTime (bmsData g) = 0 ->
                  publishData mqttConnected g = (tt, g, [])).
  { intros H0. unfold publishData, bind, gets. rewrite H0. reflexivity. }
  split; [exact Hzero |]. split.
  - intros Hne H0. apply Hne. rewrite (Hzero H0). reflexivity.
  - intros topic p Hin H0. rewrite (Hzero H0) in Hin. exact Hin.
Qed.

Lemma C9_publish_gated_witness :
  lastUpdateTime (bmsData globals_init) = 0 /\
  publishData true globals_init = (tt, globals_init, []).
Proof.
  split; [reflexivity |].
  exact (proj1 (C9_publish_gated true globals_init) eq_refl).
Defined.

(** A valid snapshot is published on both topics when MQTT is connected
    and Zigbee is not in use. *)
Lemma publishData_valid (g : Globals) :
  lastUpdateTime (bmsData g) <> 0 -> useZigbee g = false ->
  debugMode g = false ->
  publishData true g =
  (tt, g, [EvMqttPublish topic_status (jsonStatus g);
           EvMqttPublish topic_cells (jsonCells g)]).
Proof.
  intros Ht Hz Hd.
  unfold publishData, printBMSDataDebug, bind, gets, when, emit, ret.
  destruct (Z.eqb_spec (lastUpdateTime (bmsData g)) 0) as [H0 | _];
    [contradiction |].
  rewrite Hd. cbn [negb orb fst snd]. rewrite Hz. reflexivity.
Qed.

(** ** Commands *)

Lemma topic_set_limit_not_power : String.eqb topic_set_limit topic_set_power = false.
Proof. reflexivity. Qed.

Lemma mqttCb_set_limit (payload : list byte) (g : Globals) :
  mqttCb topic_set_limit payload g =
  (let v := toInt (string_of_list_byte payload) in
   if (50 <=? v) && (v <=? 100)
   then bind (bind (modify (with_chargeTargetPercent v))
                   (fun _ => checkChargeControl)) (fun _ => ret tt) g
   else (tt, g, [])).
Proof.
  unfold mqttCb. cbv zeta.
  change (String.eqb topic_set_limit topic_set_limit) with true.
  change (String.eqb topic_set_limit topic_set_power) with false.
  cbv iota.
  destruct ((50 <=? toInt (string_of_list_byte payload)) &&
            (toInt (string_of_list_byte payload) <=? 100)); reflexivity.
Qed.

(** C6. The remote [set_limit] command: when the payload parses (by
    [toInt]) to [v] with [50 <= v <= 100], the limit becomes [v] and the
    charge decision runs on the updated flags; for every other payload the
    globals are left exactly as they were and nothing is emitted. The
    payloads 49, 101 and abc leave the limit unchanged, 85 sets it. *)
Theorem C6_set_limit (payload : list byte) (g : Globals) :
  let v := toInt (string_of_list_byte payload) in
  let r := mqttCb topic_set_limit payload g in
  (50 <= v <= 100 ->
     chargeTargetPercent (state_of r) = v /\
     state_of r = state_of (checkChargeControl (with_chargeTargetPercent v g)) /\
     trace_of r = trace_of (checkChargeControl (with_chargeTargetPercent v g)))
  /\ (~ 50 <= v <= 100 -> r = (tt, g, []))
  /\ (forall p : string, In p ["49"; "101"; "abc"; ""; "0"]%string ->
        mqttCb topic_set_limit (list_byte_of_string p) g = (tt, g, []))
  /\ chargeTargetPercent
       (state_of (mqttCb topic_set_limit (list_byte_of_string "85") g)) = 85.
Proof.
  cbv zeta. rewrite !mqttCb_set_limit. cbv zeta.
  split; [| split; [| split]].
  - intros Hv.
    destruct (Z.leb_spec 50 (toInt (string_of_list_byte payload)));
      destruct (Z.leb_spec (toInt (string_of_list_byte payload)) 100);
      try lia.
    cbn [andb].
    rewrite !state_of_bind, !trace_of_bind.
    unfold modify. cbn [fst snd state_of trace_of ret app].
    rewrite checkChargeControl_state. rewrite app_nil_r.
    split; [reflexivity |]. split; reflexivity.
  - intros Hv.
    destruct (Z.leb_spec 50 (toInt (string_of_list_byte payload)));
      destruct (Z.leb_spec (toInt (string_of_list_byte payload)) 100);
      try lia; reflexivity.
  - intros p Hp. rewrite mqttCb_set_limit.
    cbn in Hp.
    destruct Hp as [<- | [<- | [<- | [<- | [<- | []]]]]]; reflexivity.
  - change (toInt (string_of_list_byte (list_byte_of_string "85"))) with 85.
    cbv zeta. cbn [Z.leb Z.compare Pos.compare Pos.compare_cont andb].
    rewrite !state_of_bind.
    unfold modify. cbn [fst snd state_of ret].
    rewrite checkChargeControl_state. reflexivity.
Qed.

Lemma C6_set_limit_witness :
  50 <= toInt (string_of_list_byte (list_byte_of_string "85")) <= 100 /\
  chargeTargetPercent
    (state_of (mqttCb topic_set_limit (list_byte_of_string "85") globals_init))
  = 85 /\
  ~ 50 <= toInt (string_of_list_byte (list_byte_of_string "101")) <= 100 /\
  mqttCb topic_set_limit (list_byte_of_string "101") globals_init
  = (tt, globals_init, []).
Proof.
  assert (H85 : 50 <= toInt (string_of_list_byte (list_byte_of_string "85")) <= 100).
  { vm_compute. split; discriminate. }
  assert (H101 : ~ 50 <= toInt (string_of_list_byte (list_byte_of_string "101")) <= 100).
  { vm_compute. intros [_ H]. apply H. reflexivity. }
  split; [exact H85 |]. split.
  - exact (proj1 (proj1 (C6_set_limit (list_byte_of_string "85") globals_init) H85)).
  - split; [exact H101 |].
    exact (proj1 (proj2 (C6_set_limit (list_byte_of_string "101") globals_init)) H101).
Defined.

(** Away from the two ends of [int] the decision of the code is the one
    of the specification. *)
Lemma desiredState_spec (g : Globals) :
  INT_MIN < chargeTargetPercent g < INT_MAX ->
  desiredState g =
    decide_spec (chargeMasterSwitch g) (chargeTargetPercent g)
      (soc (bmsData g)) (modeMQTT g) (mqttForceOff g) (relayActive g).
Proof.
  intros Hlim.
  assert (Hp : int_add (chargeTargetPercent g) 1 = chargeTargetPercent g + 1).
  { apply s32_in_range. unfold INT_MIN, INT_MAX in *. lia. }
  assert (Hm : int_sub (chargeTargetPercent g) 1 = chargeTargetPercent g - 1).
  { apply s32_in_range. unfold INT_MIN, INT_MAX in *. lia. }
  unfold desiredState, decide_spec. rewrite Hp, Hm.
  destruct (chargeMasterSwitch g); simpl; [reflexivity |].
  destruct (modeMQTT g && mqttForceOff g); reflexivity.
Qed.








(** The limit under the commands. *)

Lemma limit_in_range_init : limit_in_range globals_init.
Proof. unfold limit_in_range. simpl. lia. Qed.

(** The remote command keeps the limit in range, whatever the topic and
    the payload. *)
Lemma mqttCb_limit_in_range (topic : string) (payload : list byte) (g : Globals) :
  limit_in_range g -> limit_in_range (state_of (mqttCb topic payload g)).
Proof.
  unfold limit_in_range. intros Hg. unfold mqttCb. cbv zeta.
  rewrite !state_of_bind.
  set (v := toInt (string_of_list_byte payload)).
  assert (H1 : 50 <= chargeTargetPercent
            (state_of ((if String.eqb topic topic_set_limit
                        then if (50 <=? v) && (v <=? 100)
                             then bind (modify (with_chargeTargetPercent v))
                                       (fun _ => checkChargeControl)
                             else ret tt
                        else ret tt) g)) <= 100).
  { destruct (String.eqb topic topic_set_limit); [| exact Hg].
    destruct (Z.leb_spec 50 v); destruct (Z.leb_spec v 100);
      cbn [andb]; try exact Hg.
    rewrite state_of_bind, checkChargeControl_state. simpl. lia. }
  destruct (String.eqb topic topic_set_power); [| exact H1].
  rewrite state_of_bind, checkChargeControl_state.
  destruct (equals (string_of_list_byte payload) "OFF"); exact H1.
Qed.

(** The web handler stores whatever [toInt] returns. *)
Lemma handleSetLimit_limit (val : string) (g : Globals) :
  chargeTargetPercent (state_of (handleSetLimit val g)) = toInt val.
Proof.
  unfold handleSetLimit.
  rewrite !state_of_bind.
  unfold emit, gets, modify. cbn [fst snd state_of].
  rewrite checkChargeControl_state. reflexivity.
Qed.

(** C5. The limit does not stay in [50,100]: it starts at 80 and the
    remote command keeps it in range, but the web handler
    [/set_limit?val=5] stores 5, and a non-numeric or missing value
    stores 0. *)
Theorem C5_web_limit_out_of_range :
  limit_in_range globals_init
  /\ chargeTargetPercent (state_of (handleSetLimit "5" globals_init)) = 5
  /\ chargeTargetPercent (state_of (handleSetLimit "" globals_init)) = 0
  /\ ~ limit_in_range (state_of (handleSetLimit "5" globals_init))
  /\ reachable (state_of (handleSetLimit "5" globals_init)).
Proof.
  split; [exact limit_in_range_init |].
  split; [apply handleSetLimit_limit |].
  split; [apply handleSetLimit_limit |].
  split.
  - unfold limit_in_range. rewrite handleSetLimit_limit.
    change (toInt "5") with 5. lia.
  - apply (reach_call (boot 80) (CallSetLimit "5")). apply reach_boot.
Qed.

(** ** Decoding: the globals after a frame *)

Local Arguments milli : simpl never.
Local Arguments byte_val : simpl never.
Local Arguments byte_of_Z : simpl never.
Local Arguments u16 : simpl never.
Local Arguments s8 : simpl never.
Local Arguments s32 : simpl never.
Local Arguments u32 : simpl never.
Local Arguments Z.lor : simpl never.
Local Arguments Z.shiftl : simpl never.
Local Arguments f32_of_Z : simpl never.
Local Arguments update_min_max : simpl never.
Local Arguments store_cell : simpl never.

Lemma read_all_state (data : ptr) (i n : nat) (g : Globals) :
  state_of (read_all data i n g) = g.
Proof.
  revert i g. induction n as [| n IH]; intros i g; [reflexivity |].
  cbn [read_all]. rewrite !state_of_bind. cbn [rd fst snd state_of].
  rewrite IH. reflexivity.
Qed.

Lemma debug_packet_state (data : ptr) (len : nat) (regId : Z) (g : Globals) :
  state_of (debug_packet data len regId g) = g.
Proof.
  unfold debug_packet. rewrite state_of_bind. cbn [gets fst snd state_of].
  destruct (debugMode g); [| reflexivity].
  cbn [when]. rewrite state_of_bind, read_all_state. reflexivity.
Qed.

(** The globals after [decodeGreenway]: a frame shorter than 6 bytes only
    sets the BLE flash flag; any other frame stamps [lastUpdateTime], runs
    the register chain and rescans the cells. *)
Lemma decodeGreenway_state (data : ptr) (len : nat) (now : Z) (g : Globals) :
  state_of (decodeGreenway data len now g) =
  if (len <? 6)%nat then with_bluetoothDataReceived true g
  else with_bms update_min_max
         (state_of
            (decode_register data len
               (byte_val (mem data (off data + 3)%nat))
               (with_bms (set_lastUpdateTime now)
                  (with_bluetoothDataReceived true g)))).
Proof.
  unfold decodeGreenway. rewrite state_of_bind. cbn [modify fst snd state_of].
  destruct (len <? 6)%nat; [reflexivity |].
  rewrite !state_of_bind. cbn [rd modify fst snd state_of].
  rewrite debug_packet_state. reflexivity.
Qed.

Lemma pendingBlock_NONE (g : Globals) :
  pendingBlock g = NONE <->
  expect_suite_24 g = false /\ expect_suite_25 g = false.
Proof.
  unfold pendingBlock.
  destruct (expect_suite_25 g), (expect_suite_24 g); split;
    try discriminate; try tauto; intros [H1 H2]; discriminate.
Qed.

(** ** Reads of the frame *)

(** A temperature frame of length 9 is read at index 9, whatever it holds. *)
Lemma temperature_frame_reads_9 (m : nat -> byte) (now : Z) (g : Globals) :
  byte_val (m 3%nat) = 0x08 ->
  In (EvFrameRead 9) (trace_of (decodeGreenway (frame_ptr m) 9 now g)).
Proof.
  intros Hreg. unfold decodeGreenway, decode_register.
  destruct g as [b sh e24 e25 lim ms mode rly uz zc fo dbg btr].
  destruct dbg; cbn; rewrite Hreg; cbn; tauto.
Qed.

(** A current frame of length 18 is read at index 18. *)
Lemma current_frame_reads_18 (m : nat -> byte) (now : Z) (g : Globals) :
  byte_val (m 3%nat) = 0x0A ->
  In (EvFrameRead 18) (trace_of (decodeGreenway (frame_ptr m) 18 now g)).
Proof.
  intros Hreg. unfold decodeGreenway, decode_register.
  destruct g as [b sh e24 e25 lim ms mode rly uz zc fo dbg btr].
  destruct dbg; cbn; rewrite Hreg; cbn; tauto.
Qed.

(** C2. The decoder reads past the end of a frame of minimum length: a
    temperature frame of exactly 9 bytes is read at index 9 and a
    current/SOC/SOH/capacity frame of exactly 18 bytes at index 18, and
    the MOS temperature and the capacity then come from the byte that
    follows the frame in memory ([xff] here). *)
Theorem C2_reads_past_frame_end :
  let r8 := decodeGreenway (frame_ptr (frame_mem temp_frame_9 xff))
              (length temp_frame_9) 1000 globals_init in
  let rA := decodeGreenway (frame_ptr (frame_mem current_frame_18 xff))
              (length current_frame_18) 1000 globals_init in
  length temp_frame_9 = 9%nat
  /\ In (EvFrameRead 9) (trace_of r8)
  /\ tempMOS (bmsData (state_of r8)) = -1
  /\ length current_frame_18 = 18%nat
  /\ In (EvFrameRead 18) (trace_of rA)
  /\ fullCapacity (bmsData (state_of rA)) = Float.f32_of_Z 65512.
Proof.
  cbv zeta. repeat split; try reflexivity.
  - apply temperature_frame_reads_9. reflexivity.
  - apply current_frame_reads_18. reflexivity.
Qed.

(** ** Follow-up frame without a pending block *)

(** C8. An 18-byte frame received while no block is pending leaves the
    whole cell-voltage array as it is, performs no cell store at all, and
    leaves the pending state at NONE. *)
Theorem C8_followup_without_pending (m : nat -> byte) (now : Z) (g : Globals) :
  pendingBlock g = NONE ->
  let r := decodeGreenway (frame_ptr m) 18 now g in
  cellVolts (bmsData (state_of r)) = cellVolts (bmsData g)
  /\ pendingBlock (state_of r) = NONE
  /\ (forall (i : Z) (v : f32), ~ In (EvCellWrite i v) (trace_of r)).
Proof.
  intros Hp. apply pendingBlock_NONE in Hp. destruct Hp as [H24 H25].
  destruct g as [b sh e24 e25 lim ms mode rly uz zc fo dbg btr].
  cbn in H24, H25. subst e24 e25.
  cbv zeta. unfold decodeGreenway, decode_register, pendingBlock.
  destruct dbg; cbn; rewrite ?andb_false_r;
    (destruct (byte_val (m 3%nat) =? 9); [cbn |
     destruct (byte_val (m 3%nat) =? 10); [cbn |
     destruct (byte_val (m 3%nat) =? 8); [cbn |
     destruct (byte_val (m 3%nat) =? 23); cbn ]]]).
  all: split; [reflexivity | split; [reflexivity |]].
  all: intros i v Hin;
    repeat (destruct Hin as [Hin | Hin]; [discriminate Hin |]); exact Hin.
Qed.

Lemma C8_followup_without_pending_witness :
  pendingBlock globals_init = NONE /\
  cellVolts (bmsData (state_of
    (decodeGreenway (frame_ptr (frame_mem stray_frame_18 xff)) 18 7
       globals_init)))
  = cellVolts (bmsData globals_init).
Proof.
  split; [reflexivity |].
  exact (proj1 (C8_followup_without_pending
                  (frame_mem stray_frame_18 xff) 7 globals_init eq_refl)).
Defined.

(** ** The scan for the minimum and maximum cell *)

Lemma scan_step_related (i : Z) (v : f32) (s s' : scan_state) :
  sc_minV s = sc_minV s' -> sc_maxV s = sc_maxV s' ->
  let r := scan_step i v s in
  let r' := scan_step i v s' in
  sc_minV r = sc_minV r' /\ sc_maxV r = sc_maxV r'
  /\ ((sc_minIdx r = sc_minIdx s /\ sc_minIdx r' = sc_minIdx s')
      \/ sc_minIdx r = sc_minIdx r')
  /\ ((sc_maxIdx r = sc_maxIdx s /\ sc_maxIdx r' = sc_maxIdx s')
      \/ sc_maxIdx r = sc_maxIdx r').
Proof.
  intros Hmin Hmax. cbv zeta. unfold scan_step.
  destruct (f64_ltb d0_1 (f64_of_f32 v)); [| tauto].
  rewrite <- Hmin.
  destruct (f32_ltb v (sc_minV s)); cbn [sc_minV sc_maxV sc_minIdx sc_maxIdx];
    rewrite <- Hmax;
    destruct (f32_ltb (sc_maxV s) v);
    cbn [sc_minV sc_maxV sc_minIdx sc_maxIdx]; tauto.
Qed.

(** Two scans that start with the same [minV], [maxV] end with the same
    ones, and each index either was never assigned in both or is the same
    in both. *)
Lemma scan_loop_related (n : nat) (cells : list f32) :
  forall (i : Z) (s s' : scan_state),
  sc_minV s = sc_minV s' -> sc_maxV s = sc_maxV s' ->
  let r := scan_loop n i cells s in
  let r' := scan_loop n i cells s' in
  sc_minV r = sc_minV r' /\ sc_maxV r = sc_maxV r'
  /\ ((sc_minIdx r = sc_minIdx s /\ sc_minIdx r' = sc_minIdx s')
      \/ sc_minIdx r = sc_minIdx r')
  /\ ((sc_maxIdx r = sc_maxIdx s /\ sc_maxIdx r' = sc_maxIdx s')
      \/ sc_maxIdx r = sc_maxIdx r').
Proof.
  induction n as [| n IH]; intros i s s' Hmin Hmax; cbv zeta.
  - cbn [scan_loop]. tauto.
  - cbn [scan_loop].
    destruct (scan_step_related i (cell_at cells i) s s' Hmin Hmax)
      as (H1 & H2 & H3 & H4).
    destruct (IH (i + 1) _ _ H1 H2) as (K1 & K2 & K3 & K4).
    split; [exact K1 |]. split; [exact K2 |].
    split.
    + destruct K3 as [[Ka Kb] | Kc]; [| right; exact Kc].
      destruct H3 as [[Ha Hb] | Hc].
      * left. split; congruence.
      * right. congruence.
    + destruct K4 as [[Ka Kb] | Kc]; [| right; exact Kc].
      destruct H4 as [[Ha Hb] | Hc].
      * left. split; congruence.
      * right. congruence.
Qed.

(** Scanning twice is scanning once. *)
Lemma update_min_max_idempotent (b : BmsData) :
  min_max_settled (update_min_max b).
Proof.
  unfold min_max_settled, update_min_max at 1.
  unfold scan_cells, update_min_max, scan_cells.
  cbn [cellVolts minCellIndex maxCellIndex set_maxCellIndex set_minCellIndex].
  set (s := mkScan f10 f32_zero (minCellIndex b) (maxCellIndex b)).
  set (r := scan_loop 28 0 (cellVolts b) s).
  destruct (scan_loop_related 28 (cellVolts b) 0 s
              (mkScan f10 f32_zero (sc_minIdx r) (sc_maxIdx r))
              eq_refl eq_refl) as (_ & _ & Hmin & Hmax).
  fold r in Hmin, Hmax.
  cbn [sc_minIdx sc_maxIdx] in Hmin, Hmax.
  assert (Emin : sc_minIdx
            (scan_loop 28 0 (cellVolts b)
               (mkScan f10 f32_zero (sc_minIdx r) (sc_maxIdx r)))
          = sc_minIdx r) by (destruct Hmin as [[_ H] | H]; congruence).
  assert (Emax : sc_maxIdx
            (scan_loop 28 0 (cellVolts b)
               (mkScan f10 f32_zero (sc_minIdx r) (sc_maxIdx r)))
          = sc_maxIdx r) by (destruct Hmax as [[_ H] | H]; congruence).
  unfold set_maxCellIndex, set_minCellIndex.
  cbn [totalVoltage current soc soh cycleCount remainingCapacity fullCapacity
       tempT1 tempT2 tempMOS minVoltage maxVoltage minCellIndex maxCellIndex
       cellVolts lastUpdateTime].
  rewrite Emin, Emax. reflexivity.
Qed.

Lemma min_max_settled_lastUpdateTime (t : Z) (b : BmsData) :
  min_max_settled b -> min_max_settled (set_lastUpdateTime t b).
Proof.
  unfold min_max_settled. intros H.
  transitivity (set_lastUpdateTime t (update_min_max b)).
  - reflexivity.
  - rewrite H. reflexivity.
Qed.

(** ** What each call does to the snapshot *)

Lemma printBMSDataDebug_state (g : Globals) :
  state_of (printBMSDataDebug g) = g.
Proof.
  unfold printBMSDataDebug. rewrite state_of_bind.
  cbn [gets fst snd state_of].
  destruct (negb (debugMode g) || (lastUpdateTime (bmsData g) =? 0));
    reflexivity.
Qed.

Lemma publishData_state (c : bool) (g : Globals) :
  state_of (publishData c g) = g.
Proof.
  unfold publishData.
  rewrite state_of_bind. cbn [gets fst snd state_of].
  destruct (lastUpdateTime (bmsData g) =? 0); [reflexivity |].
  rewrite !state_of_bind, printBMSDataDebug_state.
  cbn [gets fst snd state_of].
  destruct (useZigbee g), (zigbeeConnected g), c; reflexivity.
Qed.

Lemma mqttCb_bmsData (topic : string) (payload : list byte) (g : Globals) :
  bmsData (state_of (mqttCb topic payload g)) = bmsData g.
Proof.
  unfold mqttCb. cbv zeta. rewrite !state_of_bind.
  set (v := toInt (string_of_list_byte payload)).
  assert (H1 : bmsData
            (state_of ((if String.eqb topic topic_set_limit
                        then if (50 <=? v) && (v <=? 100)
                             then bind (modify (with_chargeTargetPercent v))
                                       (fun _ => checkChargeControl)
                             else ret tt
                        else ret tt) g)) = bmsData g).
  { destruct (String.eqb topic topic_set_limit); [| reflexivity].
    destruct ((50 <=? v) && (v <=? 100)); [| reflexivity].
    rewrite state_of_bind, checkChargeControl_state. reflexivity. }
  destruct (String.eqb topic topic_set_power); [| exact H1].
  rewrite state_of_bind, checkChargeControl_state.
  destruct (equals (string_of_list_byte payload) "OFF"); exact H1.
Qed.

Lemma run_call_bmsData (c : call) (g : Globals) :
  match c with
  | CallDecode _ _ _ => True
  | CallDisconnect =>
      bmsData (state_of (run_call c g)) = set_lastUpdateTime 0 (bmsData g)
  | _ => bmsData (state_of (run_call c g)) = bmsData g
  end.
Proof.
  destruct c as [m0 len0 now0 | | mq0 | tp pl | | | val | |
                 | isApMode wifiConnected connected mqtt_server mqttConnected
                   now lastBleFlashTime
                 | line t_beat t_check lastZigbeeHeartbeat |];
    cbn [run_call]; try exact I.
  - rewrite checkChargeControl_state. reflexivity.
  - rewrite publishData_state. reflexivity.
  - apply mqttCb_bmsData.
  - unfold handleSetMaster. rewrite !state_of_bind.
    cbn [emit modify fst snd state_of].
    rewrite checkChargeControl_state. reflexivity.
  - unfold handleSetMode. rewrite !state_of_bind.
    cbn [emit modify fst snd state_of].
    rewrite checkChargeControl_state. reflexivity.
  - unfold handleSetLimit. rewrite !state_of_bind.
    cbn [emit gets modify fst snd state_of].
    rewrite checkChargeControl_state. reflexivity.
  - reflexivity.
  - reflexivity.
  - pose proof (proj1 (run_leds isApMode wifiConnected connected mqtt_server
                         mqttConnected now lastBleFlashTime g)) as H.
    cbn [run_call] in H. rewrite H. destruct connected; reflexivity.
  - pose proof (proj1 (run_zigbee_check line t_beat t_check
                         lastZigbeeHeartbeat g)) as H.
    cbn [run_call] in H. rewrite H.
    destruct (zigbee_check_flag line t_beat t_check lastZigbeeHeartbeat g)
      as [b ->].
    reflexivity.
  - reflexivity.
Qed.

(** In every reachable state the two cell indices are settled: decoding
    ends with the scan, and nothing else touches the cells. *)
Lemma reachable_min_max_settled (g : Globals) :
  reachable g -> min_max_settled (bmsData g).
Proof.
  induction 1 as [lim | g c Hg IH].
  - reflexivity.
  - pose proof (run_call_bmsData c g) as Hc.
    destruct c; try (rewrite Hc; exact IH).
    + cbn [run_call]. rewrite decodeGreenway_state.
      destruct (len <? 6)%nat; [exact IH |].
      apply update_min_max_idempotent.
    + rewrite Hc. apply min_max_settled_lastUpdateTime. exact IH.
Qed.

(** ** Frames with an unknown register id *)

Lemma decode_register_unknown (data : ptr) (len : nat) (regId : Z) (g : Globals) :
  ~ recognized_tag regId -> len <> 18%nat ->
  decode_register data len regId g = (tt, g, []).
Proof.
  unfold recognized_tag. intros Htag Hlen. unfold decode_register.
  destruct (Z.eqb_spec regId 9); [tauto |].
  destruct (Z.eqb_spec regId 10); [tauto |].
  destruct (Z.eqb_spec regId 8); [tauto |].
  destruct (Z.eqb_spec regId 23); [tauto |].
  destruct (Z.eqb_spec regId 37); [tauto |].
  destruct (Z.eqb_spec regId 36); [tauto |].
  cbn [andb].
  destruct (Nat.eqb_spec len 18); [contradiction | reflexivity].
Qed.

(** C4 as the code has it. A frame with an unknown register id and a
    length other than 18 leaves the snapshot untouched when it is shorter
    than 6 bytes; a longer one changes [lastUpdateTime], which becomes the
    time of reception, and no other field. The state is any state in
    which the two cell indices are those the scan of the cells leaves, so
    that the scan that ends the decoding finds them as they are: [setup]
    starts in such a state, every frame ends with the scan, and no other
    function writes the cells or the indices
    ([reachable_min_max_settled]). *)
Theorem C4_unknown_frame (m : nat -> byte) (len : nat) (now : Z) (g : Globals) :
  min_max_settled (bmsData g) ->
  ~ recognized_tag (byte_val (m 3%nat)) ->
  len <> 18%nat ->
  let g' := state_of (decodeGreenway (frame_ptr m) len now g) in
  bmsData g' =
    (if (len <? 6)%nat then bmsData g
     else set_lastUpdateTime now (bmsData g))
  /\ ((6 <= len)%nat -> lastUpdateTime (bmsData g') = now)
  /\ pendingBlock g' = pendingBlock g.
Proof.
  intros Hsettled Htag Hlen. cbv zeta.
  rewrite decodeGreenway_state.
  cbn [frame_ptr mem off Nat.add].
  rewrite (decode_register_unknown _ _ _ _ Htag Hlen).
  cbn [state_of fst snd].
  destruct (Nat.ltb_spec len 6) as [Hshort | Hlong].
  - split; [reflexivity |]. split; [lia | reflexivity].
  - assert (Hb : update_min_max (set_lastUpdateTime now (bmsData g))
                 = set_lastUpdateTime now (bmsData g)).
    { apply min_max_settled_lastUpdateTime. exact Hsettled. }
    cbn [with_bms bmsData with_bluetoothDataReceived].
    rewrite Hb. split; [reflexivity |]. split; reflexivity.
Qed.

Lemma C4_unknown_frame_witness :
  min_max_settled (bmsData globals_init) /\
  ~ recognized_tag (byte_val (frame_mem unknown_frame_6 xff 3%nat)) /\
  6%nat <> 18%nat /\
  bmsData (state_of (decodeGreenway (frame_ptr (frame_mem unknown_frame_6 xff))
                       6 1000 globals_init))
  = set_lastUpdateTime 1000 (bmsData globals_init).
Proof.
  assert (Hreach : min_max_settled (bmsData globals_init)) by reflexivity.
  assert (Htag : ~ recognized_tag (byte_val (frame_mem unknown_frame_6 xff 3%nat))).
  { unfold recognized_tag.
    change (byte_val (frame_mem unknown_frame_6 xff 3%nat)) with 238. lia. }
  assert (Hlen : 6%nat <> 18%nat) by discriminate.
  split; [exact Hreach |]. split; [exact Htag |]. split; [exact Hlen |].
  exact (proj1 (C4_unknown_frame (frame_mem unknown_frame_6 xff) 6 1000
                  globals_init Hreach Htag Hlen)).
Defined.

(** The claim as stated fails: the unknown 6-byte frame received at time
    1000 by a firmware that has decoded nothing makes the snapshot valid. *)
Lemma C4_counterexample :
  let g' := state_of (decodeGreenway (frame_ptr (frame_mem unknown_frame_6 xff))
                        (length unknown_frame_6) 1000 globals_init) in
  ~ recognized_tag (byte_val (frame_mem unknown_frame_6 xff 3%nat))
  /\ length unknown_frame_6 <> 18%nat
  /\ lastUpdateTime (bmsData globals_init) = 0
  /\ lastUpdateTime (bmsData g') = 1000
  /\ bmsData g' <> bmsData globals_init.
Proof.
  cbv zeta. split.
  - unfold recognized_tag.
    change (byte_val (frame_mem unknown_frame_6 xff 3%nat)) with 238. lia.
  - split; [discriminate |]. split; [reflexivity |].
    split; [reflexivity |].
    intros H. apply (f_equal lastUpdateTime) in H. discriminate H.
Qed.

(** ** What a computation emits *)

Section EmitsOnly.

Variable P : event -> Prop.

Lemma emits_ret {A : Type} (a : A) : emits_only P (ret a).
Proof. intros g e []. Qed.

Lemma emits_gets {A : Type} (f : Globals -> A) : emits_only P (gets f).
Proof. intros g e []. Qed.

Lemma emits_modify (f : Globals -> Globals) : emits_only P (modify f).
Proof. intros g e []. Qed.

Lemma emits_rd (data : ptr) (k : nat) :
  P (EvFrameRead (off data + k)) -> emits_only P (rd data k).
Proof. intros HP g e [<- | []]. exact HP. Qed.

(** The value read is the byte of the frame. *)
Lemma emits_bind_rd {B : Type} (data : ptr) (k : nat) (f : Z -> M B) :
  P (EvFrameRead (off data + k)) ->
  emits_only P (f (byte_at data k)) ->
  emits_only P (bind (rd data k) f).
Proof.
  intros HP Hf g e Hin. rewrite trace_of_bind in Hin.
  apply in_app_or in Hin. destruct Hin as [[<- | []] | Hin].
  - exact HP.
  - exact (Hf _ e Hin).
Qed.

Lemma emits_emit (e : event) : P e -> emits_only P (emit e).
Proof. intros HP g e' [<- | []]. exact HP. Qed.

Lemma emits_write_cell (k : Z) (x : f32) :
  P (EvCellWrite k x) -> emits_only P (write_cell k x).
Proof. intros HP g e [<- | []]. exact HP. Qed.

Lemma emits_bind {A B : Type} (m : M A) (k : A -> M B) :
  emits_only P m -> (forall a : A, emits_only P (k a)) ->
  emits_only P (bind m k).
Proof.
  intros Hm Hk g e Hin. rewrite trace_of_bind in Hin.
  apply in_app_or in Hin. destruct Hin as [Hin | Hin].
  - exact (Hm g e Hin).
  - exact (Hk _ _ e Hin).
Qed.

Lemma emits_when (b : bool) (m : M unit) :
  emits_only P m -> emits_only P (when b m).
Proof. destruct b; [trivial | intros _; apply emits_ret]. Qed.

End EmitsOnly.

Lemma emits_weaken {A : Type} (P Q : event -> Prop) (m : M A) :
  (forall e : event, P e -> Q e) -> emits_only P m -> emits_only Q m.
Proof. intros HPQ Hm g e Hin. apply HPQ. exact (Hm g e Hin). Qed.

Create HintDb emits.
#[local] Hint Resolve emits_ret emits_gets emits_modify : emits.

(** One step through a computation: a bind, a branch, or a leaf whose
    event is checked by [side]. *)
Ltac emits_step side :=
  match goal with
  | |- emits_only _ (bind _ _) => apply emits_bind; [| intros ?]
  | |- emits_only _ (if ?c then _ else _) => destruct c
  | |- emits_only _ (when _ _) => apply emits_when
  | |- emits_only _ (emit _) => apply emits_emit; side
  | |- emits_only _ (rd _ _) => apply emits_rd; side
  | |- emits_only _ (write_cell _ _) => apply emits_write_cell; side
  | |- emits_only _ _ => solve [auto with emits]
  end.

(** ** Cell stores stay inside cells 1 to 28 *)

Ltac write_side := first [exact I | cbn [cell_write_in]; lia].
Ltac writes_step := emits_step write_side.

Lemma writes_in_weaken {A : Type} (lo hi lo' hi' : Z) (m : M A) :
  lo' <= lo -> hi <= hi' ->
  emits_only (cell_write_in lo hi) m -> emits_only (cell_write_in lo' hi') m.
Proof.
  intros Hlo Hhi. apply emits_weaken.
  intros [] H; cbn [cell_write_in] in *; try exact I. lia.
Qed.

Lemma writes_in_read_all (lo hi : Z) (data : ptr) (n : nat) :
  forall i : nat, emits_only (cell_write_in lo hi) (read_all data i n).
Proof.
  induction n as [| n IH]; intros i; cbn [read_all]; repeat writes_step.
Qed.

Lemma writes_in_debug_packet (lo hi : Z) (data : ptr) (len : nat) (regId : Z) :
  emits_only (cell_write_in lo hi) (debug_packet data len regId).
Proof.
  unfold debug_packet. writes_step; [writes_step |].
  writes_step. writes_step; [apply writes_in_read_all | writes_step].
Qed.

Lemma writes_in_debug_line (lo hi : Z) (l : serial_line) :
  emits_only (cell_write_in lo hi) (debug_line l).
Proof. unfold debug_line. repeat writes_step. Qed.

Lemma writes_in_rd16 (lo hi : Z) (data : ptr) (i j : nat) :
  emits_only (cell_write_in lo hi) (rd16 data i j).
Proof. unfold rd16. repeat writes_step. Qed.

Lemma writes_in_get32BitLEValue (lo hi : Z) (data : ptr) (index : nat) :
  emits_only (cell_write_in lo hi) (get32BitLEValue data index).
Proof. unfold get32BitLEValue. repeat writes_step. Qed.

#[local] Hint Resolve writes_in_debug_packet writes_in_debug_line
  writes_in_rd16 writes_in_get32BitLEValue : emits.

(** The loop stores cells [currentCell .. cellEndNum] at most. *)
Lemma writes_in_cell_loop (fuel : nat) (data : ptr) (dataMaxIndex : nat)
    (cellEndNum : Z) (isShiftedBlock : bool) :
  forall (i : nat) (currentCell : Z),
  emits_only (cell_write_in (currentCell - 1) (cellEndNum - 1))
    (cell_loop fuel data i dataMaxIndex currentCell cellEndNum isShiftedBlock).
Proof.
  induction fuel as [| fuel IH]; intros i currentCell; cbn [cell_loop].
  - apply emits_ret.
  - destruct (i <? dataMaxIndex)%nat; [| apply emits_ret].
    destruct (Z.ltb_spec cellEndNum currentCell) as [Hgt | Hle];
      [apply emits_ret |].
    do 2 (apply emits_bind; [apply emits_rd; exact I | intros ?]).
    destruct (negb isShiftedBlock && (dataMaxIndex <=? i + 1)%nat);
      [apply emits_ret |].
    apply emits_bind;
      [apply emits_write_cell; cbn [cell_write_in]; lia | intros _].
    apply writes_in_weaken with (lo := currentCell + 1 - 1)
                                (hi := cellEndNum - 1); [lia | lia |].
    apply IH.
Qed.

(** [printDetailedCellTable] stores the first cell of a shifted block
    unconditionally, then cells up to [cellEndNum]. *)
Lemma writes_in_printDetailedCellTable (cellStartNum cellEndNum : Z)
    (data : ptr) (startDataIndex dataMaxIndex : nat) (shiftLSB : Z)
    (isShiftedBlock : bool) :
  emits_only
    (cell_write_in (cellStartNum - 1) (Z.max cellStartNum cellEndNum - 1))
    (printDetailedCellTable cellStartNum cellEndNum data startDataIndex
       dataMaxIndex shiftLSB isShiftedBlock).
Proof.
  unfold printDetailedCellTable. destruct isShiftedBlock.
  - apply emits_bind; [apply emits_rd; exact I | intros msb].
    apply emits_bind;
      [apply emits_write_cell; cbn [cell_write_in]; lia | intros _].
    apply writes_in_weaken with (lo := cellStartNum + 1 - 1)
                                (hi := cellEndNum - 1); [lia | lia |].
    apply writes_in_cell_loop.
  - apply writes_in_weaken with (lo := cellStartNum - 1)
                                (hi := cellEndNum - 1); [lia | lia |].
    apply writes_in_cell_loop.
Qed.

Lemma writes_in_table_28 (cellStartNum cellEndNum : Z) (data : ptr)
    (startDataIndex dataMaxIndex : nat) (shiftLSB : Z) (isShiftedBlock : bool) :
  1 <= cellStartNum <= 28 -> cellEndNum <= 28 ->
  emits_only (cell_write_in 0 27)
    (printDetailedCellTable cellStartNum cellEndNum data startDataIndex
       dataMaxIndex shiftLSB isShiftedBlock).
Proof.
  intros Hs He.
  apply writes_in_weaken with (lo := cellStartNum - 1)
                              (hi := Z.max cellStartNum cellEndNum - 1);
    [lia | lia |].
  apply writes_in_printDetailedCellTable.
Qed.

Lemma writes_in_decode_followup (data : ptr) :
  emits_only (cell_write_in 0 27) (decode_followup data).
Proof.
  unfold decode_followup.
  repeat first [apply writes_in_table_28; lia | writes_step].
Qed.

Lemma writes_in_decode_register (data : ptr) (len : nat) (regId : Z) :
  emits_only (cell_write_in 0 27) (decode_register data len regId).
Proof.
  unfold decode_register.
  repeat first [apply writes_in_table_28; lia
               | apply writes_in_decode_followup
               | writes_step].
Qed.

Lemma writes_in_decodeGreenway (data : ptr) (len : nat) (now : Z) :
  emits_only (cell_write_in 0 27) (decodeGreenway data len now).
Proof.
  unfold decodeGreenway.
  repeat first [apply writes_in_decode_register | writes_step].
Qed.

Lemma writes_in_checkChargeControl (lo hi : Z) :
  emits_only (cell_write_in lo hi) checkChargeControl.
Proof. unfold checkChargeControl. repeat writes_step. Qed.

#[local] Hint Resolve writes_in_checkChargeControl : emits.

Lemma writes_in_run_call (c : call) :
  emits_only (cell_write_in 0 27) (run_call c).
Proof.
  destruct c; cbn [run_call].
  - apply writes_in_decodeGreenway.
  - apply writes_in_checkChargeControl.
  - unfold publishData, printBMSDataDebug. repeat writes_step.
  - unfold mqttCb. cbv zeta. repeat writes_step.
  - unfold handleSetMaster. repeat writes_step.
  - unfold handleSetMode. repeat writes_step.
  - unfold handleSetLimit. repeat writes_step.
  - unfold onDisconnect. repeat writes_step.
  - unfold toggleDebug. repeat writes_step.
  - unfold updateLeds. repeat writes_step.
  - unfold zigbeeStatusCheck. split_line; repeat writes_step.
  - unfold handleZigbeeJoin. repeat writes_step.
Qed.

(** C10. Whatever frames arrive, of any length and content and in any
    order, and whatever else the firmware is asked to do in between, every
    store into the cell-voltage array has an index between 0 and 27. *)
Theorem C10_cell_writes_in_range (cs : list call) (g : Globals) (i : Z) (v : f32) :
  In (EvCellWrite i v) (trace_of (run_calls cs g)) -> 0 <= i <= 27.
Proof.
  revert g. induction cs as [| c cs IH]; intros g Hin.
  - destruct Hin.
  - cbn [run_calls] in Hin. rewrite trace_of_bind in Hin.
    apply in_app_or in Hin. destruct Hin as [Hin | Hin].
    + exact (writes_in_run_call c g _ Hin).
    + exact (IH _ Hin).
Qed.

(** ** Reads stay inside the frame, but for two register ids *)

Ltac read_side :=
  first [exact I
        | cbn [read_below frame_ptr padd off Nat.add]; lia].
Ltac reads_step := emits_step read_side.

Lemma reads_read_all (data : ptr) (n bound : nat) :
  forall i : nat,
  (off data + i + n <= bound)%nat ->
  emits_only (read_below bound) (read_all data i n).
Proof.
  induction n as [| n IH]; intros i Hb; cbn [read_all].
  - apply emits_ret.
  - apply emits_bind; [apply emits_rd; cbn [read_below]; lia | intros b].
    apply emits_bind; [apply IH; lia | intros r; apply emits_ret].
Qed.

(** The loop reads [data[i]] and [data[i+1]] for [i < dataMaxIndex]. *)
Lemma reads_cell_loop (fuel : nat) (data : ptr) (dataMaxIndex bound : nat)
    (cellEndNum : Z) (isShiftedBlock : bool) :
  (off data + dataMaxIndex < bound)%nat ->
  forall (i : nat) (currentCell : Z),
  emits_only (read_below bound)
    (cell_loop fuel data i dataMaxIndex currentCell cellEndNum isShiftedBlock).
Proof.
  intros Hb. induction fuel as [| fuel IH]; intros i currentCell;
    cbn [cell_loop].
  - apply emits_ret.
  - destruct (Nat.ltb_spec i dataMaxIndex); [| apply emits_ret].
    destruct (cellEndNum <? currentCell); [apply emits_ret |].
    do 2 (apply emits_bind;
          [apply emits_rd; cbn [read_below]; lia | intros ?]).
    destruct (negb isShiftedBlock && (dataMaxIndex <=? i + 1)%nat);
      [apply emits_ret |].
    apply emits_bind; [apply emits_write_cell; exact I | intros _].
    apply IH.
Qed.

(** A loop entered past its last cell does nothing. *)
Lemma cell_loop_past_end (P : event -> Prop) (fuel : nat) (data : ptr)
    (i dataMaxIndex : nat) (currentCell cellEndNum : Z)
    (isShiftedBlock : bool) :
  cellEndNum < currentCell ->
  emits_only P
    (cell_loop fuel data i dataMaxIndex currentCell cellEndNum isShiftedBlock).
Proof.
  intros Hlt. destruct fuel as [| fuel]; cbn [cell_loop].
  - apply emits_ret.
  - destruct (i <? dataMaxIndex)%nat; [| apply emits_ret].
    destruct (Z.ltb_spec cellEndNum currentCell); [apply emits_ret | lia].
Qed.

Lemma reads_table (cellStartNum cellEndNum : Z) (data : ptr)
    (startDataIndex dataMaxIndex bound : nat) (shiftLSB : Z) :
  (off data + dataMaxIndex < bound)%nat ->
  emits_only (read_below bound)
    (printDetailedCellTable cellStartNum cellEndNum data startDataIndex
       dataMaxIndex shiftLSB false).
Proof. intros Hb. unfold printDetailedCellTable. apply reads_cell_loop, Hb. Qed.

(** The first cell of a follow-up frame: one read, at index 0. *)
Lemma reads_shifted_cell (cell : Z) (data : ptr)
    (startDataIndex dataMaxIndex bound : nat) (shiftLSB : Z) :
  (off data < bound)%nat ->
  emits_only (read_below bound)
    (printDetailedCellTable cell cell data startDataIndex dataMaxIndex
       shiftLSB true).
Proof.
  intros Hb. unfold printDetailedCellTable.
  apply emits_bind; [apply emits_rd; cbn [read_below]; lia | intros msb].
  apply emits_bind; [apply emits_write_cell; exact I | intros _].
  apply cell_loop_past_end. lia.
Qed.

Lemma reads_debug_line (bound : nat) (l : serial_line) :
  emits_only (read_below bound) (debug_line l).
Proof. unfold debug_line. repeat reads_step. Qed.

#[local] Hint Resolve reads_debug_line : emits.

Lemma reads_decode_followup (m : nat -> byte) :
  emits_only (read_below 18) (decode_followup (frame_ptr m)).
Proof.
  unfold decode_followup, rd16.
  repeat first [apply reads_shifted_cell; cbn [frame_ptr off]; lia
               | apply reads_table; cbn [frame_ptr off]; lia
               | reads_step].
Qed.

(** With the register id and the length of the frame at hand, every read
    of the register chain is inside the frame, except for a temperature
    frame of length 9 and a current frame of length 18. *)
Lemma reads_decode_register (m : nat -> byte) (len : nat) (regId : Z) :
  ~ (regId = 0x08 /\ len = 9%nat) ->
  ~ (regId = 0x0A /\ len = 18%nat) ->
  emits_only (read_below len) (decode_register (frame_ptr m) len regId).
Proof.
  intros H8 HA. unfold decode_register.
  repeat match goal with
         | |- emits_only _ (if ?a && ?b then _ else _) =>
             let E := fresh "E" in
             destruct (a && b) eqn:E;
             [apply andb_true_iff in E; destruct E as [?E ?E];
              match goal with
              | H : (_ =? _) = true |- _ => apply Z.eqb_eq in H
              end;
              match goal with
              | H : (_ <=? _)%nat = true |- _ => apply Nat.leb_le in H
              end
             | clear E]
         end.
  - unfold get32BitLEValue. cbn [Nat.add Nat.leb]. repeat reads_step.
  - assert (19 <= len)%nat by lia.
    unfold get32BitLEValue, rd16. cbn [Nat.add Nat.leb]. repeat reads_step.
  - assert (10 <= len)%nat by lia. repeat reads_step.
  - unfold rd16. repeat reads_step.
  - repeat first [apply reads_table; cbn [frame_ptr off]; lia | reads_step].
  - repeat first [apply reads_table; cbn [frame_ptr off]; lia | reads_step].
  - destruct (Nat.eqb_spec len 18) as [-> | _]; [| apply emits_ret].
    apply reads_decode_followup.
Qed.

(** All reads of [decodeGreenway] are inside the frame, except the two of
    C2: the decoder tests [len >= 9] before it reads [data[9]] of a
    temperature frame, and [len >= 18] before it reads [data[18]] of a
    current frame. *)
Lemma decodeGreenway_reads_in_bounds (m : nat -> byte) (len : nat) (now : Z)
    (g : Globals) (i : nat) :
  ~ (byte_val (m 3%nat) = 0x08 /\ len = 9%nat) ->
  ~ (byte_val (m 3%nat) = 0x0A /\ len = 18%nat) ->
  In (EvFrameRead i) (trace_of (decodeGreenway (frame_ptr m) len now g)) ->
  (i < len)%nat.
Proof.
  intros H8 HA Hin.
  assert (Hall : emits_only (read_below len)
                   (decodeGreenway (frame_ptr m) len now)).
  { unfold decodeGreenway.
    apply emits_bind; [apply emits_modify | intros _].
    destruct (Nat.ltb_spec len 6); [apply emits_ret |].
    apply emits_bind_rd; [cbn [read_below frame_ptr off]; lia |].
    apply emits_bind; [apply emits_modify | intros _].
    apply emits_bind.
    { unfold debug_packet. repeat reads_step.
      apply reads_read_all. cbn [frame_ptr off]. lia. }
    intros _. apply emits_bind; [| intros _; apply emits_modify].
    apply reads_decode_register; assumption. }
  exact (Hall g _ Hin).
Qed.

(** ** Millivolt rounding *)

Lemma d1000_eq : d1000 = S754_finite false m1000 (-43).
Proof. vm_compute. reflexivity. Qed.

Lemma div_eucl_scale (a b c : Z) :
  0 < b -> 0 < c ->
  Z.div_eucl (a * c) (b * c) = (let '(q, r) := Z.div_eucl a b in (q, r * c)).
Proof.
  intros Hb Hc.
  pose proof (Z.div_eucl_eq a b ltac:(lia)) as Ha.
  pose proof (Z.mod_pos_bound a b Hb) as Hr.
  unfold Z.modulo in Hr.
  destruct (Z.div_eucl a b) as [q r].
  pose proof (Z.div_eucl_eq (a * c) (b * c) ltac:(nia)) as Hac.
  pose proof (Z.mod_pos_bound (a * c) (b * c) ltac:(nia)) as Hrc.
  unfold Z.modulo in Hrc.
  destruct (Z.div_eucl (a * c) (b * c)) as [q' r'].
  assert (H : q' = q /\ r' = r * c).
  { apply (Z.div_mod_unique (b * c)); [lia | nia | nia]. }
  destruct H as [-> ->]. reflexivity.
Qed.

Lemma new_location_1000 (r : Z) :
  new_location (1000 * 2 ^ 43) (r * 2 ^ 43) = new_location 1000 r.
Proof.
  unfold new_location.
  change (Z.even (1000 * 2 ^ 43)) with true. change (Z.even 1000) with true.
  cbv iota. unfold new_location_even.
  destruct (Z.eqb_spec r 0) as [-> | Hr].
  - reflexivity.
  - destruct (Z.eqb_spec (r * 2 ^ 43) 0) as [H0 | _]; [lia |].
    f_equal.
    replace (2 * (r * 2 ^ 43)) with (2 * r * 2 ^ 43) by ring.
    symmetry. apply Zmult_compare_compat_r. lia.
Qed.

(** Dividing by [1000.0]: numerator and denominator share the factor
    [2^43], which the quotient and the rounding direction do not see. *)
Lemma div1000_fast (m1 : positive) (e1 : Z) :
  digits2_pos m1 = 53%positive -> -1064 <= e1 ->
  SFdiv prec64 emax64 (S754_finite false m1 e1) d1000 = div1000_small m1 e1.
Proof.
  intros Hd He. rewrite d1000_eq. unfold div1000_small.
  cbn [SFdiv xorb]. unfold SFdiv_core_binary.
  cbn [Zdigits2]. rewrite Hd.
  change (Z.pos (digits2_pos m1000)) with 53.
  assert (He' : Z.min (fexp prec64 emax64 (53 + e1 - (53 + -43))) (e1 - -43)
                = e1 - 10).
  { unfold fexp, emin, prec64, emax64. lia. }
  rewrite He'.
  replace (e1 - -43 - (e1 - 10)) with 53 by lia.
  cbv iota beta.
  rewrite Z.shiftl_mul_pow2 by lia.
  replace (Z.pos m1 * 2 ^ 53) with (Z.pos m1 * 1024 * 2 ^ 43)
    by (change (2 ^ 53) with (1024 * 2 ^ 43); ring).
  change (Z.pos m1000) with (1000 * 2 ^ 43).
  rewrite div_eucl_scale by lia.
  destruct (Z.div_eucl (Z.pos m1 * 1024) 1000) as [q r].
  rewrite new_location_1000. reflexivity.
Qed.

Lemma close_Z_within (x : f32) (mv : Z) :
  close_Z x mv = true -> within_1mV x mv.
Proof.
  unfold close_Z, within_1mV, to_Q.
  destruct x as [s | s | | s m e]; try discriminate.
  - intros H. apply Z.eqb_eq in H. subst mv. reflexivity.
  - destruct s; [discriminate |]. destruct e as [| e | e]; try discriminate.
    intros H. apply Z.ltb_lt in H.
    cbn [signed_mantissa pow2].
    apply Qabs_Qlt_condition.
    unfold Qlt, Qminus, Qplus, Qopp, Qmult, inject_Z.
    cbn [Qnum Qden].
    rewrite !Pos2Z.inj_mul.
    set (P := Z.pos (2 ^ e)) in *.
    assert (HP : 0 < P) by (subst P; lia).
    split; nia.
Qed.


(** *** Number of binary digits *)

Lemma digits2_pos_size (p : positive) : digits2_pos p = Pos.size p.
Proof. induction p as [p IH | p IH |]; cbn; congruence. Qed.

Lemma Zdigits2_bounds (p : positive) :
  2 ^ (Zpos (digits2_pos p) - 1) <= Zpos p < 2 ^ Zpos (digits2_pos p).
Proof.
  rewrite digits2_pos_size. split.
  - pose proof (Pos.size_le p) as H.
    assert (H2 : 2 ^ Zpos (Pos.size p) <= 2 * Zpos p).
    { rewrite <- Pos2Z.inj_pow. change (2 * Z.pos p) with (Z.pos p~0). lia. }
    replace (Zpos (Pos.size p)) with (Zpos (Pos.size p) - 1 + 1) in H2 by lia.
    rewrite Z.pow_add_r in H2 by lia. lia.
  - pose proof (Pos.size_gt p) as H.
    rewrite <- Pos2Z.inj_pow. lia.
Qed.

Lemma digits_unique (p : positive) (k : Z) :
  2 ^ (k - 1) <= Zpos p < 2 ^ k -> Zpos (digits2_pos p) = k.
Proof.
  intros [Hlo Hhi]. pose proof (Zdigits2_bounds p) as [Dlo Dhi].
  assert (Hk : 0 < k).
  { destruct (Z_lt_le_dec 0 k); [assumption |].
    assert (2 ^ k <= 1).
    { destruct (Z.eq_dec k 0) as [-> | ]; [cbn; lia |].
      rewrite Z.pow_neg_r by lia. lia. }
    lia. }
  set (d := Zpos (digits2_pos p)) in *.
  assert (d - 1 < k).
  { apply (Z.pow_lt_mono_r_iff 2); lia. }
  assert (k - 1 < d).
  { apply (Z.pow_lt_mono_r_iff 2); lia. }
  lia.
Qed.

Lemma digits_le (p : positive) (k : Z) :
  0 <= k -> Zpos p < 2 ^ k -> Zpos (digits2_pos p) <= k.
Proof.
  intros Hk Hlt. pose proof (Zdigits2_bounds p) as [Dlo _].
  assert (Zpos (digits2_pos p) - 1 < k).
  { apply (Z.pow_lt_mono_r_iff 2); lia. }
  lia.
Qed.

(** *** Shifting a mantissa right *)

Lemma shr_1_m (mrs : shr_record) :
  0 <= shr_m mrs -> shr_m (shr_1 mrs) = shr_m mrs / 2.
Proof.
  destruct mrs as [m r s]. cbn [shr_m]. intros Hm.
  destruct m as [| p | p]; [reflexivity | | lia].
  destruct p as [p | p |]; cbn [shr_1 shr_m].
  - rewrite <- Z.div2_div. reflexivity.
  - rewrite <- Z.div2_div. reflexivity.
  - reflexivity.
Qed.

Lemma shr_m_iter (p : positive) :
  forall mrs : shr_record, 0 <= shr_m mrs ->
  shr_m (SpecFloat.iter_pos shr_1 p mrs) = shr_m mrs / 2 ^ Zpos p.
Proof.
  assert (Hnn : forall mrs, 0 <= shr_m mrs -> 0 <= shr_m (shr_1 mrs)).
  { intros mrs H. rewrite shr_1_m by exact H. apply Z.div_pos; lia. }
  induction p as [p IH | p IH |]; intros mrs Hm; cbn [SpecFloat.iter_pos].
  - assert (H1 : 0 <= shr_m (shr_1 mrs)) by auto.
    assert (H2 : 0 <= shr_m (SpecFloat.iter_pos shr_1 p (shr_1 mrs))).
    { rewrite IH by exact H1. apply Z.div_pos; lia. }
    rewrite IH by exact H2. rewrite IH by exact H1. rewrite shr_1_m by exact Hm.
    rewrite !Z.div_div by lia.
    assert (E : 2 ^ Z.pos p~1 = 2 * (2 ^ Z.pos p * 2 ^ Z.pos p)).
    { rewrite (Pos2Z.inj_xI p), Z.pow_add_r, Z.pow_twice_r by lia.
      change (2 ^ 1) with 2. ring. }
    rewrite E. reflexivity.
  - assert (H2 : 0 <= shr_m (SpecFloat.iter_pos shr_1 p mrs)).
    { rewrite IH by exact Hm. apply Z.div_pos; lia. }
    rewrite IH by exact H2. rewrite IH by exact Hm.
    rewrite Z.div_div by lia.
    assert (E : 2 ^ Z.pos p~0 = 2 ^ Z.pos p * 2 ^ Z.pos p).
    { rewrite (Pos2Z.inj_xO p), Z.pow_twice_r. reflexivity. }
    rewrite E. reflexivity.
  - rewrite shr_1_m by exact Hm. reflexivity.
Qed.

Lemma shr_record_of_loc_m (m : Z) (l : location) :
  shr_m (shr_record_of_loc m l) = m.
Proof. destruct l as [| []]; reflexivity. Qed.

(** *** Rounding to [prec] digits *)

Section Round.

Variables prec emax : Z.
Hypothesis Hprec : 0 < prec.

Lemma shr_fexp_spec (m e : Z) (l : location) :
  0 <= m ->
  let n := Z.max 0 (fexp prec emax (Zdigits2 m + e) - e) in
  shr_m (fst (shr_fexp prec emax m e l)) = m / 2 ^ n
  /\ snd (shr_fexp prec emax m e l) = e + n.
Proof.
  intros Hm n. unfold shr_fexp, shr. subst n.
  destruct (fexp prec emax (Zdigits2 m + e) - e) as [| p | p] eqn:E.
  - cbn [fst snd]. rewrite shr_record_of_loc_m.
    change (Z.max 0 0) with 0. rewrite Z.div_1_r. split; [reflexivity | lia].
  - cbn [fst snd]. rewrite shr_m_iter by (rewrite shr_record_of_loc_m; exact Hm).
    rewrite shr_record_of_loc_m.
    replace (Z.max 0 (Z.pos p)) with (Z.pos p) by lia. split; reflexivity.
  - cbn [fst snd]. rewrite shr_record_of_loc_m.
    replace (Z.max 0 (Z.neg p)) with 0 by lia.
    rewrite Z.div_1_r. split; [reflexivity | lia].
Qed.

Lemma round_nearest_even_cases (m : Z) (l : location) :
  round_nearest_even m l = m \/ round_nearest_even m l = m + 1.
Proof.
  unfold round_nearest_even. destruct l as [| []]; auto.
  destruct (Z.even m); auto.
Qed.

(** [binary_round_aux] in the normal range: the result is finite, its
    exponent is at most one above the target exponent, its mantissa has at
    most [prec] digits, and its value is within one unit of its last place
    of [m * 2^e]. *)
Lemma binary_round_aux_spec (s : bool) (m : positive) (e : Z) (l : location) :
  let d := Zpos (digits2_pos m) in
  let et := Z.max e (d + e - prec) in
  emin prec emax <= d + e - prec ->
  et + 1 <= emax - prec ->
  exists (mc : positive) (ec : Z),
    binary_round_aux prec emax s (Zpos m) e l = S754_finite s mc ec
    /\ et <= ec <= et + 1
    /\ Zpos mc < 2 ^ prec
    /\ Z.abs (Zpos mc * 2 ^ (ec - e) - Zpos m) <= 2 ^ (ec - e).
Proof.
  intros d et Hnorm Hover.
  pose proof (Zdigits2_bounds m) as [Dlo Dhi]. fold d in Dlo, Dhi.
  assert (Hd : 0 < d) by (subst d; lia).
  unfold binary_round_aux.
  pose proof (shr_fexp_spec (Zpos m) e l ltac:(lia)) as [Hm1 He1].
  cbv zeta in Hm1, He1. cbn [Zdigits2] in Hm1, He1. fold d in Hm1, He1.
  assert (Hf : fexp prec emax (d + e) = d + e - prec) by (unfold fexp; lia).
  rewrite Hf in Hm1, He1.
  set (n1 := Z.max 0 (d + e - prec - e)) in *.
  assert (Hn1 : 0 <= n1 /\ n1 = Z.max 0 (d - prec)) by (subst n1; lia).
  destruct Hn1 as [Hn1 En1].
  destruct (shr_fexp prec emax (Zpos m) e l) as [mrs1 e1].
  cbn [fst snd] in Hm1, He1. subst e1.
  assert (Eet : e + n1 = et) by (subst et; lia).
  set (N := 2 ^ n1) in *.
  assert (HN : 0 < N) by (subst N; apply Z.pow_pos_nonneg; lia).
  set (ma := Zpos m / N) in *.
  assert (Hdiv : ma * N <= Zpos m < (ma + 1) * N).
  { subst ma. pose proof (Z.div_mod (Zpos m) N ltac:(lia)) as Hdm.
    pose proof (Z.mod_pos_bound (Zpos m) N HN). nia. }
  assert (Hma_lo : 1 <= ma).
  { subst ma. apply Z.div_le_lower_bound; [lia |].
    assert (N <= 2 ^ (d - 1)); [| lia].
    subst N. apply Z.pow_le_mono_r; lia. }
  assert (Hma_hi : ma < 2 ^ prec).
  { subst ma. apply Z.div_lt_upper_bound; [lia |].
    assert (2 ^ d <= N * 2 ^ prec); [| lia].
    subst N. rewrite <- Z.pow_add_r by lia. apply Z.pow_le_mono_r; lia. }
  set (mb := round_nearest_even (shr_m mrs1) (loc_of_shr_record mrs1)).
  assert (Hmb : mb = ma \/ mb = ma + 1).
  { subst mb. rewrite Hm1. apply round_nearest_even_cases. }
  assert (Hmb_pos : 0 < mb) by lia.
  destruct mb as [| pb | pb] eqn:Emb; try lia.
  pose proof (shr_fexp_spec (Zpos pb) (e + n1) loc_Exact ltac:(lia)) as [Hm2 He2].
  cbv zeta in Hm2, He2. cbn [Zdigits2] in Hm2, He2.
  destruct (shr_fexp prec emax (Zpos pb) (e + n1) loc_Exact) as [mrs2 e2].
  cbn [fst snd] in Hm2, He2. rewrite Eet in *.
  pose proof (Zdigits2_bounds pb) as [Blo Bhi].
  set (db := Zpos (digits2_pos pb)) in *.
  destruct (Z_lt_le_dec (Zpos pb) (2 ^ prec)) as [Hlt | Hge].
  - (* no carry *)
    assert (Hdb : db <= prec) by (subst db; apply digits_le; lia).
    assert (Hn2 : Z.max 0 (fexp prec emax (db + et) - et) = 0)
      by (unfold fexp; lia).
    rewrite Hn2 in Hm2, He2. rewrite Z.div_1_r in Hm2.
    rewrite Hm2. subst e2.
    exists pb, (et + 0).
    assert (Hle : (et + 0 <=? emax - prec) = true) by (apply Z.leb_le; lia).
    rewrite Hle.
    split; [reflexivity |]. split; [lia |]. split; [exact Hlt |].
    replace (et + 0 - e) with n1 by lia. fold N. lia.
  - (* carry: the rounded mantissa is 2^prec *)
    assert (Epb : Zpos pb = 2 ^ prec) by lia.
    assert (Hdb : db = prec + 1).
    { subst db. apply digits_unique.
      replace (prec + 1 - 1) with prec by lia. rewrite Epb.
      split; [lia |]. apply Z.pow_lt_mono_r; lia. }
    assert (Hn2 : Z.max 0 (fexp prec emax (db + et) - et) = 1)
      by (unfold fexp; lia).
    rewrite Hn2 in Hm2, He2. change (2 ^ 1) with 2 in Hm2.
    assert (Hhalf : Zpos pb / 2 = 2 ^ (prec - 1)).
    { rewrite Epb. replace prec with (prec - 1 + 1) at 1 by lia.
      rewrite Z.pow_add_r by lia. change (2 ^ 1) with 2.
      apply Z.div_mul. lia. }
    rewrite Hhalf in Hm2.
    assert (Hpos : 0 < 2 ^ (prec - 1)) by (apply Z.pow_pos_nonneg; lia).
    rewrite Hm2. subst e2.
    destruct (2 ^ (prec - 1)) as [| pc | pc] eqn:Epc; try lia.
    exists pc, (et + 1).
    assert (Hle : (et + 1 <=? emax - prec) = true) by (apply Z.leb_le; lia).
    rewrite Hle.
    split; [reflexivity |]. split; [lia |]. split.
    + rewrite <- Epc. apply Z.pow_lt_mono_r; lia.
    + replace (et + 1 - e) with (n1 + 1) by lia.
      rewrite Z.pow_add_r by lia. fold N. change (2 ^ 1) with 2.
      rewrite <- Epc.
      assert (E2 : 2 ^ (prec - 1) * (N * 2) = 2 ^ prec * N).
      { replace prec with (prec - 1 + 1) at 2 by lia.
        rewrite Z.pow_add_r by lia. change (2 ^ 1) with 2. ring. }
      rewrite E2. rewrite <- Epb. nia.
Qed.

End Round.

Section Exact.

Variables prec emax : Z.
Hypothesis Hprec : 0 < prec.

(** A mantissa of exactly [prec] digits is its own rounding. *)
Lemma binary_round_aux_exact (s : bool) (m : positive) (e : Z) :
  Zpos (digits2_pos m) = prec ->
  emin prec emax <= e <= emax - prec ->
  binary_round_aux prec emax s (Zpos m) e loc_Exact = S754_finite s m e.
Proof.
  intros Hd He. unfold binary_round_aux, shr_fexp.
  cbn [Zdigits2]. rewrite Hd.
  assert (Hn : fexp prec emax (prec + e) - e = 0) by (unfold fexp; lia).
  rewrite Hn. cbn [shr shr_record_of_loc shr_m loc_of_shr_record
                   round_nearest_even Zdigits2].
  rewrite Hd, Hn. cbn [shr shr_record_of_loc shr_m].
  assert (Hle : (e <=? emax - prec) = true) by (apply Z.leb_le; lia).
  rewrite Hle. reflexivity.
Qed.

Lemma iter_xO_pow (m : positive) (k : positive) :
  Zpos (Pos.iter xO m k) = Zpos m * 2 ^ Zpos k.
Proof.
  rewrite <- Z.shiftl_mul_pow2 by lia. cbn [Z.shiftl].
  apply (Pos.iter_swap_gen _ _ Zpos xO (Z.mul 2)). reflexivity.
Qed.

(** A mantissa of at most [prec] digits is represented exactly, shifted
    to [prec] digits. *)
Lemma binary_round_exact (s : bool) (m : positive) (e : Z) :
  let d := Zpos (digits2_pos m) in
  d <= prec ->
  emin prec emax <= d + e - prec -> d + e <= emax ->
  exists mz : positive,
    binary_round prec emax s m e = S754_finite s mz (d + e - prec)
    /\ Zpos mz = Zpos m * 2 ^ (prec - d)
    /\ Zpos (digits2_pos mz) = prec.
Proof.
  intros d Hd Hnorm Hover.
  pose proof (Zdigits2_bounds m) as [Dlo Dhi]. fold d in Dlo, Dhi.
  unfold binary_round. fold d.
  assert (Hf : fexp prec emax (d + e) = d + e - prec) by (unfold fexp; lia).
  rewrite Hf. unfold shl_align.
  destruct (d + e - prec - e) as [| k | k] eqn:Ek.
  - assert (Edp : d = prec) by lia.
    exists m. rewrite binary_round_aux_exact by (fold d; lia).
    replace (d + e - prec) with e by lia.
    split; [reflexivity |]. split; [| fold d; exact Edp].
    replace (prec - d) with 0 by lia. lia.
  - lia.
  - assert (Ek' : Zpos k = prec - d) by lia.
    assert (Hmz : Zpos (Pos.iter xO m k) = Zpos m * 2 ^ (prec - d)).
    { rewrite iter_xO_pow, Ek'. reflexivity. }
    assert (Hdz : Zpos (digits2_pos (Pos.iter xO m k)) = prec).
    { apply digits_unique. rewrite Hmz.
      assert (E1 : 2 ^ (prec - 1) = 2 ^ (d - 1) * 2 ^ (prec - d)).
      { rewrite <- Z.pow_add_r by lia. f_equal. lia. }
      assert (E2 : 2 ^ prec = 2 ^ d * 2 ^ (prec - d)).
      { rewrite <- Z.pow_add_r by lia. f_equal. lia. }
      assert (0 < 2 ^ (prec - d)) by (apply Z.pow_pos_nonneg; lia).
      rewrite E1, E2. nia. }
    exists (Pos.iter xO m k).
    rewrite binary_round_aux_exact by (try exact Hdz; lia).
    split; [reflexivity |]. split; [exact Hmz | exact Hdz].
Qed.

End Exact.

(** *** The stored voltage *)

Lemma digits_gt (p : positive) (k : Z) :
  0 <= k -> 2 ^ k <= Zpos p -> k < Zpos (digits2_pos p).
Proof.
  intros Hk Hle. pose proof (Zdigits2_bounds p) as [_ Dhi].
  apply (Z.pow_lt_mono_r_iff 2); lia.
Qed.

Lemma shl_align_noop (mx : positive) (ex ex' : Z) :
  ex <= ex' -> shl_align mx ex ex' = (mx, ex).
Proof.
  intros H. unfold shl_align.
  destruct (ex' - ex) as [| k | k] eqn:E; try reflexivity. lia.
Qed.

Lemma pow2_range (k lo hi : Z) :
  0 <= lo -> lo <= k <= hi -> 2 ^ lo <= 2 ^ k <= 2 ^ hi.
Proof. intros Hlo Hk. split; apply Z.pow_le_mono_r; lia. Qed.

(** The integer inequality behind the bound: [m2] and [m3] are the two
    roundings of the quotient [pq] of [p * K * a * b] by 1000. *)
Lemma scaled_error_bound (m3 m2 pq p K a b r : Z) :
  1 <= a <= 4 -> 1 <= b <= 1073741824 -> 0 < K ->
  2 ^ 44 <= K * (a * b) ->
  p * (K * (a * b)) = 1000 * pq + r -> 0 <= r < 1000 ->
  Z.abs (m2 * a - pq) <= a -> Z.abs (m3 * b - m2) <= b ->
  Z.abs (1000 * m3 - p * K) < K.
Proof.
  intros Ha Hb HK HW Hqr Hr T2 T3.
  change (2 ^ 44) with (4096 * (4 * 1073741824)) in HW.
  assert (Hab : 1 <= a * b <= 4 * 1073741824).
  { split.
    - change 1 with (1 * 1). apply Z.mul_le_mono_nonneg; lia.
    - apply Z.mul_le_mono_nonneg; lia. }
  assert (Haab : a <= a * b).
  { rewrite <- (Z.mul_1_r a) at 1. apply Z.mul_le_mono_nonneg_l; lia. }
  set (ab := a * b) in *.
  assert (HKlo : 4096 <= K).
  { destruct (Z_lt_le_dec K 4096) as [Hlt | Hge]; [| exact Hge].
    exfalso.
    assert (K * ab <= 4095 * ab) by (apply Z.mul_le_mono_nonneg_r; lia).
    lia. }
  set (X := m3 * b - m2) in *. set (Y := m2 * a - pq) in *.
  assert (HaX : Z.abs (a * X) <= ab).
  { rewrite Z.abs_mul, (Z.abs_eq a) by lia. subst ab.
    apply Z.mul_le_mono_nonneg_l; lia. }
  assert (Hid : (1000 * m3 - p * K) * ab = 1000 * (a * X) + 1000 * Y - r).
  { subst X Y ab.
    assert (Er : r = p * (K * (a * b)) - 1000 * pq) by lia.
    rewrite Er. ring. }
  assert (Hscaled : Z.abs (1000 * m3 - p * K) * ab <= 3000 * ab).
  { rewrite <- (Z.abs_eq ab) at 1 by lia.
    rewrite <- Z.abs_mul, Hid. lia. }
  assert (Z.abs (1000 * m3 - p * K) <= 3000).
  { apply (Z.mul_le_mono_pos_r _ _ ab); lia. }
  lia.
Qed.


Lemma milli_close_pos (p : positive) :
  Zpos p < 524288 -> close_Z (milli (Zpos p)) (Zpos p) = true.
Proof.
  intros Hp.
  pose proof (Zdigits2_bounds p) as [Dlo Dhi].
  set (d := Zpos (digits2_pos p)) in *.
  assert (Hd : 1 <= d <= 19).
  { split; [subst d; lia |]. subst d. apply digits_le; [lia |].
    change (2 ^ 19) with 524288. exact Hp. }
  (* (float)mv is exact *)
  unfold milli, div1000, f32_of_Z. cbn [binary_normalize].
  destruct (binary_round_exact prec32 emax32 eq_refl false p 0)
    as (m0 & E0 & V0 & D0).
  { fold d. unfold prec32. lia. }
  { fold d. unfold emin, prec32, emax32. lia. }
  { fold d. unfold emax32. lia. }
  fold d in E0, V0. rewrite E0. clear E0.
  (* so is its promotion to double *)
  cbn [f64_of_f32 signed_mantissa binary_normalize].
  destruct (binary_round_exact prec64 emax64 eq_refl false m0 (d + 0 - prec32))
    as (m1 & E1 & V1 & D1).
  { rewrite D0. unfold prec32, prec64. lia. }
  { rewrite D0. unfold emin, prec32, prec64, emax64. lia. }
  { rewrite D0. unfold prec32, emax64. lia. }
  rewrite D0 in E1, V1. rewrite E1. clear E1.
  set (e1 := prec32 + (d + 0 - prec32) - prec64) in *.
  assert (He1 : e1 = d - 53) by (subst e1; unfold prec32, prec64; lia).
  (* the division *)
  rewrite div1000_fast by (try exact D1; lia).
  unfold div1000_small.
  set (A := Zpos m1 * 1024).
  assert (HA : A = Zpos p * 2 ^ (63 - d)).
  { subst A. rewrite V1, V0. unfold prec32, prec64.
    replace (63 - d) with (24 - d + (53 - 24) + 10) by lia.
    rewrite !Z.pow_add_r by lia. change (2 ^ 10) with 1024. ring. }
  assert (HArange : 2 ^ 62 <= A < 2 ^ 63).
  { rewrite HA.
    assert (E62 : 2 ^ 62 = 2 ^ (d - 1) * 2 ^ (63 - d)).
    { rewrite <- Z.pow_add_r by lia. f_equal. lia. }
    assert (E63 : 2 ^ 63 = 2 ^ d * 2 ^ (63 - d)).
    { rewrite <- Z.pow_add_r by lia. f_equal. lia. }
    assert (0 < 2 ^ (63 - d)) by (apply Z.pow_pos_nonneg; lia).
    rewrite E62, E63. nia. }
  pose proof (Z.div_eucl_eq A 1000 ltac:(lia)) as Hqr.
  pose proof (Z.mod_pos_bound A 1000 ltac:(lia)) as Hr.
  unfold Z.modulo in Hr.
  destruct (Z.div_eucl A 1000) as [q r].
  change (2 ^ 62) with 4611686018427387904 in HArange.
  change (2 ^ 63) with 9223372036854775808 in HArange.
  assert (Hq : 2 ^ 52 <= q < 2 ^ 54).
  { change (2 ^ 52) with 4503599627370496.
    change (2 ^ 54) with 18014398509481984. lia. }
  destruct q as [| pq | pq]; try lia.
  set (dq := Zpos (digits2_pos pq)).
  assert (Hdq : 53 <= dq <= 54).
  { split.
    - assert (52 < dq) by (subst dq; apply digits_gt; lia). lia.
    - subst dq. apply digits_le; lia. }
  destruct (binary_round_aux_spec prec64 emax64 eq_refl false pq (e1 - 10)
              (new_location 1000 r)) as (m2 & e2 & E2 & He2 & Hm2 & Herr2).
  { fold dq. unfold emin, prec64, emax64. lia. }
  { fold dq. unfold prec64, emax64. lia. }
  fold dq in He2. rewrite E2. clear E2.
  unfold prec64 in He2, Hm2.
  set (a := 2 ^ (e2 - (e1 - 10))) in *.
  assert (Ha : 1 <= a <= 4).
  { subst a. change 1 with (2 ^ 0). change 4 with (2 ^ 2).
    apply pow2_range; lia. }
  (* the result stored in a float *)
  cbn [f32_of_f64 signed_mantissa binary_normalize].
  assert (Hm2lo : 2 ^ 49 <= Zpos m2).
  { change (2 ^ 52) with 4503599627370496 in Hq.
    change (2 ^ 49) with 562949953421312.
    assert (Zpos m2 * a <= Zpos m2 * 4) by nia. lia. }
  set (d2 := Zpos (digits2_pos m2)).
  assert (Hd2 : 50 <= d2 <= 53).
  { split.
    - assert (49 < d2) by (subst d2; apply digits_gt; lia). lia.
    - subst d2. apply digits_le; lia. }
  unfold binary_round. fold d2.
  rewrite shl_align_noop by (unfold fexp, emin, prec32, emax32; lia).
  destruct (binary_round_aux_spec prec32 emax32 eq_refl false m2 e2 loc_Exact)
    as (m3 & e3 & E3 & He3 & Hm3 & Herr3).
  { fold d2. unfold emin, prec32, emax32. lia. }
  { fold d2. unfold prec32, emax32. lia. }
  fold d2 in He3. rewrite E3. clear E3.
  unfold prec32 in He3, Hm3.
  set (b := 2 ^ (e3 - e2)) in *.
  assert (Hb : 1 <= b <= 2 ^ 30).
  { subst b. change 1 with (2 ^ 0). apply pow2_range; lia. }
  (* within one millivolt *)
  assert (He3neg : e3 < 0) by lia.
  destruct e3 as [| k | k]; try lia.
  unfold close_Z. apply Z.ltb_lt.
  set (K := Zpos (2 ^ k)).
  assert (HK : K = 2 ^ Zpos k) by (subst K; apply Pos2Z.inj_pow).
  assert (HW : 2 ^ (63 - d) = K * (a * b)).
  { rewrite HK. subst a b.
    rewrite <- !Z.pow_add_r by lia. f_equal. lia. }
  assert (HWlo : 2 ^ 44 <= 2 ^ (63 - d)) by (apply Z.pow_le_mono_r; lia).
  rewrite HA, HW in Hqr. rewrite HW in HWlo.
  change (2 ^ 30) with 1073741824 in Hb.
  apply (scaled_error_bound (Zpos m3) (Zpos m2) (Zpos pq) (Zpos p) K a b r);
    try assumption; subst K; lia.
Qed.

(** Every 16-bit millivolt value is stored as a [float] within 0.001 V
    of it. *)
Lemma milli_within_1mV (mv : Z) : is_mv mv -> within_1mV (milli mv) mv.
Proof.
  unfold is_mv. intros Hmv. apply close_Z_within.
  destruct mv as [| p | p]; try lia.
  - reflexivity.
  - apply milli_close_pos. lia.
Qed.

Lemma Forall2_milli_within (mvs : list Z) :
  Forall is_mv mvs -> Forall2 within_1mV (map milli mvs) mvs.
Proof.
  induction 1 as [| mv mvs Hmv _ IH]; cbn [map]; constructor.
  - apply milli_within_1mV. exact Hmv.
  - exact IH.
Qed.

(** ** The cells after a packet *)

Local Arguments word_of : simpl never.
Local Arguments lo_byte : simpl never.
Local Arguments hi_byte : simpl never.

Lemma set_cells_same (g : Globals) : set_cells (cellVolts (bmsData g)) g = g.
Proof. destruct g as [b ? ? ? ? ? ? ? ? ? ? ? ?]. destruct b. reflexivity. Qed.

Lemma write_cell_state (i : Z) (v : f32) (g : Globals) :
  state_of (write_cell i v g)
  = set_cells (store_cell i v (cellVolts (bmsData g))) g.
Proof. reflexivity. Qed.

Lemma cell_loop_state (fuel : nat) (data : ptr) (dataMaxIndex : nat)
    (cellEndNum : Z) (sh : bool) :
  forall (i : nat) (cur : Z) (g : Globals),
  state_of (cell_loop fuel data i dataMaxIndex cur cellEndNum sh g) =
  set_cells (loop_stores fuel data i dataMaxIndex cur cellEndNum sh
               (cellVolts (bmsData g))) g.
Proof.
  induction fuel as [| fuel IH]; intros i cur g; cbn [cell_loop loop_stores].
  - symmetry. apply set_cells_same.
  - destruct (i <? dataMaxIndex)%nat; [| symmetry; apply set_cells_same].
    destruct (cellEndNum <? cur); [symmetry; apply set_cells_same |].
    rewrite !state_of_bind. cbn [rd fst snd state_of].
    destruct (negb sh && (dataMaxIndex <=? i + 1)%nat);
      [symmetry; apply set_cells_same |].
    rewrite state_of_bind, write_cell_state, IH. reflexivity.
Qed.

Lemma printDetailedCellTable_state (s e : Z) (data : ptr) (st mx : nat)
    (shl : Z) (sh : bool) (g : Globals) :
  state_of (printDetailedCellTable s e data st mx shl sh g) =
  set_cells (table_stores s e data st mx shl sh (cellVolts (bmsData g))) g.
Proof.
  unfold printDetailedCellTable, table_stores. destruct sh.
  - rewrite !state_of_bind. cbn [rd fst snd state_of].
    rewrite write_cell_state, cell_loop_state. reflexivity.
  - apply cell_loop_state.
Qed.

(** The loop ends by its own tests: any fuel from [dataMaxIndex - i] on
    gives the same run. *)
Lemma cell_loop_fuel (data : ptr) (dataMaxIndex : nat) (cellEndNum : Z)
    (sh : bool) (fuel : nat) :
  forall (fuel' i : nat) (cur : Z) (g : Globals),
  (dataMaxIndex - i <= fuel)%nat -> (dataMaxIndex - i <= fuel')%nat ->
  cell_loop fuel data i dataMaxIndex cur cellEndNum sh g =
  cell_loop fuel' data i dataMaxIndex cur cellEndNum sh g.
Proof.
  induction fuel as [| fuel IH]; intros fuel' i cur g H1 H2.
  - destruct fuel' as [| fuel']; [reflexivity |]. cbn [cell_loop].
    destruct (Nat.ltb_spec i dataMaxIndex); [lia | reflexivity].
  - destruct fuel' as [| fuel']; cbn [cell_loop].
    + destruct (Nat.ltb_spec i dataMaxIndex); [lia | reflexivity].
    + destruct (Nat.ltb_spec i dataMaxIndex); [| reflexivity].
      destruct (cellEndNum <? cur); [reflexivity |].
      unfold bind at 1 3. cbn [rd]. unfold bind at 1 3. cbn [rd].
      destruct (negb sh && (dataMaxIndex <=? i + 1)%nat); [reflexivity |].
      unfold bind. cbn [write_cell].
      rewrite (IH fuel') by lia. reflexivity.
Qed.

(** A block header frame: seven cells, the carry byte, the pending flag. *)
Lemma decode_header_cells (m : nat -> byte) (len : nat) (now : Z)
    (g : Globals) (tag : Z) :
  byte_val (m 3%nat) = tag -> tag = 0x24 \/ tag = 0x25 -> (20 <= len)%nat ->
  let g' := state_of (decodeGreenway (frame_ptr m) len now g) in
  cellVolts (bmsData g') =
    table_stores (if tag =? 0x24 then 1 else 17) (if tag =? 0x24 then 7 else 23)
      (frame_ptr m) 5 19 0 false (cellVolts (bmsData g))
  /\ main_packet_shift_byte g' = byte_val (m 19%nat)
  /\ expect_suite_24 g' = (tag =? 0x24)
  /\ expect_suite_25 g' = (tag =? 0x25).
Proof.
  intros Hreg Htag Hlen. cbv zeta. rewrite decodeGreenway_state.
  destruct (Nat.ltb_spec len 6); [lia |].
  cbn [frame_ptr mem off Nat.add]. rewrite Hreg.
  unfold decode_register.
  assert (H20 : (20 <=? len)%nat = true) by (apply Nat.leb_le; lia).
  rewrite H20.
  destruct Htag as [-> | ->]; cbn [Z.eqb Pos.eqb andb];
    rewrite !state_of_bind; cbn [rd modify fst snd state_of];
    rewrite printDetailedCellTable_state; repeat split; reflexivity.
Qed.

Lemma decode_register_followup (data : ptr) (regId : Z) :
  ~ followup_tag_clash regId ->
  decode_register data 18 regId = decode_followup data.
Proof.
  unfold followup_tag_clash. intros H. unfold decode_register.
  destruct (Z.eqb_spec regId 9); [tauto |].
  destruct (Z.eqb_spec regId 10); [tauto |].
  destruct (Z.eqb_spec regId 8); [tauto |].
  destruct (Z.eqb_spec regId 23); [tauto |].
  cbn [andb Nat.leb Nat.eqb]. rewrite !andb_false_r. reflexivity.
Qed.

Lemma decode_followup_low (data : ptr) (g : Globals) :
  expect_suite_25 g = false -> expect_suite_24 g = true ->
  cellVolts (bmsData (state_of (decode_followup data g))) =
    table_stores 9 16 data 1 17 0 false
      (table_stores 8 8 data 0 18 (main_packet_shift_byte g) true
         (cellVolts (bmsData g)))
  /\ expect_suite_25 (state_of (decode_followup data g)) = false
  /\ expect_suite_24 (state_of (decode_followup data g)) = false.
Proof.
  intros H25 H24. unfold decode_followup.
  rewrite state_of_bind. cbn [gets fst snd state_of]. rewrite H25.
  rewrite state_of_bind. cbn [gets fst snd state_of]. rewrite H24.
  repeat (rewrite state_of_bind; cbn [gets modify fst snd state_of]).
  rewrite !printDetailedCellTable_state.
  repeat split; try reflexivity. exact H25.
Qed.

Lemma decode_followup_high (data : ptr) (g : Globals) :
  expect_suite_25 g = true ->
  cellVolts (bmsData (state_of (decode_followup data g))) =
    table_stores 25 28 data 1 9 0 false
      (table_stores 24 24 data 0 18 (main_packet_shift_byte g) true
         (cellVolts (bmsData g)))
  /\ expect_suite_25 (state_of (decode_followup data g)) = false
  /\ expect_suite_24 (state_of (decode_followup data g)) = expect_suite_24 g.
Proof.
  intros H25. unfold decode_followup.
  rewrite state_of_bind. cbn [gets fst snd state_of]. rewrite H25.
  repeat (rewrite state_of_bind;
          cbn [gets modify rd rd16 ret fst snd state_of]).
  rewrite !printDetailedCellTable_state.
  repeat split; reflexivity.
Qed.

(** A follow-up frame after the header [0x24]: cells 8 to 16. *)
Lemma decode_low_followup_frame (m : nat -> byte) (now : Z) (g : Globals) :
  expect_suite_25 g = false -> expect_suite_24 g = true ->
  ~ followup_tag_clash (byte_val (m 3%nat)) ->
  let g' := state_of (decodeGreenway (frame_ptr m) 18 now g) in
  cellVolts (bmsData g') =
    table_stores 9 16 (frame_ptr m) 1 17 0 false
      (table_stores 8 8 (frame_ptr m) 0 18 (main_packet_shift_byte g) true
         (cellVolts (bmsData g)))
  /\ pendingBlock g' = NONE.
Proof.
  intros H25 H24 Hclash. cbv zeta. rewrite decodeGreenway_state.
  cbn [Nat.ltb Nat.leb frame_ptr mem off Nat.add].
  rewrite (decode_register_followup _ _ Hclash).
  destruct (decode_followup_low (mkptr m 0)
              (with_bms (set_lastUpdateTime now)
                 (with_bluetoothDataReceived true g)) H25 H24)
    as (Hc & H5 & H4).
  split; [exact Hc |].
  apply pendingBlock_NONE. split; [exact H4 | exact H5].
Qed.

(** A follow-up frame after the header [0x25]: cells 24 to 28. *)
Lemma decode_high_followup_frame (m : nat -> byte) (now : Z) (g : Globals) :
  expect_suite_25 g = true -> expect_suite_24 g = false ->
  ~ followup_tag_clash (byte_val (m 3%nat)) ->
  let g' := state_of (decodeGreenway (frame_ptr m) 18 now g) in
  cellVolts (bmsData g') =
    table_stores 25 28 (frame_ptr m) 1 9 0 false
      (table_stores 24 24 (frame_ptr m) 0 18 (main_packet_shift_byte g) true
         (cellVolts (bmsData g)))
  /\ pendingBlock g' = NONE.
Proof.
  intros H25 H24 Hclash. cbv zeta. rewrite decodeGreenway_state.
  cbn [Nat.ltb Nat.leb frame_ptr mem off Nat.add].
  rewrite (decode_register_followup _ _ Hclash).
  destruct (decode_followup_high (mkptr m 0)
              (with_bms (set_lastUpdateTime now)
                 (with_bluetoothDataReceived true g)) H25)
    as (Hc & H5 & H4).
  split; [exact Hc |].
  apply pendingBlock_NONE. split; [exact (eq_trans H4 H24) | exact H5].
Qed.

(** ** Round trip of the cell blocks *)

Lemma word_of_bytes (c : Z) :
  is_mv c -> word_of (byte_val (lo_byte c)) (byte_val (hi_byte c)) = c.
Proof.
  unfold is_mv. intros Hc. unfold lo_byte, hi_byte, word_of.
  assert (Hlo : 0 <= c mod 256 < 256) by (apply Z.mod_pos_bound; lia).
  assert (Hhi : 0 <= c / 256 < 256).
  { split; [apply Z.div_pos; lia | apply Z.div_lt_upper_bound; lia]. }
  rewrite !byte_val_of_Z by assumption.
  assert (Hland : Z.land (Z.shiftl (c / 256) 8) (c mod 256) = 0).
  { apply Z.bits_inj'. intros n Hn. rewrite Z.land_spec, Z.bits_0.
    destruct (Z_lt_le_dec n 8).
    - rewrite Z.shiftl_spec_low by lia. reflexivity.
    - change 256 with (2 ^ 8). rewrite Z.mod_pow2_bits_high by lia.
      apply andb_false_r. }
  rewrite <- Z.lxor_lor by exact Hland.
  rewrite <- Z.add_nocarry_lxor by exact Hland.
  rewrite Z.shiftl_mul_pow2 by lia. change (2 ^ 8) with 256.
  pose proof (Z.div_mod c 256) as Hdm.
  unfold u16. rewrite Z.mod_small by lia. lia.
Qed.

Ltac list_of_length l H :=
  repeat (destruct l as [| ? l]; [discriminate H |]);
  destruct l; [| discriminate H].

Ltac split_Forall :=
  repeat match goal with
         | H : Forall _ (_ :: _) |- _ =>
             apply Forall_cons_iff in H; destruct H as [? H]
         | H : Forall _ [] |- _ => clear H
         end.

Lemma block_frame_lengths (tag pad : byte) (maxV minV : Z) (lo hi : list Z) :
  length lo = 16%nat -> length hi = 12%nat ->
  length (block_header tag pad lo) = 20%nat
  /\ length (block_header tag pad hi) = 20%nat
  /\ length (low_followup pad lo) = 18%nat
  /\ length (high_followup pad maxV minV hi) = 18%nat.
Proof.
  intros Hlo Hhi. list_of_length lo Hlo. list_of_length hi Hhi.
  repeat split; reflexivity.
Qed.

Lemma low_block_roundtrip (lo : list Z) (pad : byte) (t1 t2 : Z) (g : Globals) :
  length lo = 16%nat -> Forall is_mv lo ->
  ~ followup_tag_clash (nth 9 lo 0 mod 256) ->
  length (cellVolts (bmsData g)) = CELL_ARRAY_LEN ->
  let gl := state_of (run_calls (low_block_calls pad lo t1 t2) g) in
  cellVolts (bmsData gl) = map milli lo ++ drop 16 (cellVolts (bmsData g))
  /\ pendingBlock gl = NONE.
Proof.
  intros Hlen Hmv Hclash Hcells. cbv zeta. unfold low_block_calls.
  cbn [run_calls run_call]. rewrite !state_of_bind. cbn [ret fst snd state_of].
  set (m1 := frame_mem (block_header x24 pad lo) pad).
  set (m2 := frame_mem (low_followup pad lo) pad).
  destruct (decode_header_cells m1 20 t1 g 0x24) as (Hc1 & Hsh & H24 & H25).
  { subst m1. list_of_length lo Hlen. reflexivity. }
  { left; reflexivity. }
  { lia. }
  set (g1 := state_of (decodeGreenway (frame_ptr m1) 20 t1 g)) in *.
  assert (Hm3 : byte_val (m2 3%nat) = nth 9 lo 0 mod 256).
  { subst m2. list_of_length lo Hlen. split_Forall.
    cbn [low_followup frame_mem nth skipn flat_map le16_bytes app].
    unfold lo_byte. apply byte_val_of_Z. apply Z.mod_pos_bound. lia. }
  destruct (decode_low_followup_frame m2 t2 g1) as (Hc2 & Hp).
  { exact H25. } { exact H24. } { rewrite Hm3. exact Hclash. }
  split; [| exact Hp].
  rewrite Hc2, Hsh, Hc1. clear Hc2 Hc1 Hp Hsh H24 H25 g1 Hm3 Hclash.
  subst m1 m2.
  list_of_length lo Hlen. split_Forall.
  remember (cellVolts (bmsData g)) as cells eqn:Ecells. clear Ecells.
  unfold CELL_ARRAY_LEN in Hcells. list_of_length cells Hcells.
  cbv -[milli word_of store_cell byte_val lo_byte hi_byte byte_of_Z].
  rewrite !word_of_bytes by assumption.
  reflexivity.
Qed.

Lemma high_block_roundtrip (hi : list Z) (pad : byte) (maxV minV t1 t2 : Z)
    (g : Globals) :
  length hi = 12%nat -> Forall is_mv hi ->
  ~ followup_tag_clash (nth 9 hi 0 mod 256) ->
  length (cellVolts (bmsData g)) = CELL_ARRAY_LEN ->
  let gh := state_of (run_calls (high_block_calls pad maxV minV hi t1 t2) g) in
  cellVolts (bmsData gh) =
    take 16 (cellVolts (bmsData g)) ++ map milli hi
    ++ drop 28 (cellVolts (bmsData g))
  /\ pendingBlock gh = NONE.
Proof.
  intros Hlen Hmv Hclash Hcells. cbv zeta. unfold high_block_calls.
  cbn [run_calls run_call]. rewrite !state_of_bind. cbn [ret fst snd state_of].
  set (m1 := frame_mem (block_header x25 pad hi) pad).
  set (m2 := frame_mem (high_followup pad maxV minV hi) pad).
  destruct (decode_header_cells m1 20 t1 g 0x25) as (Hc1 & Hsh & H24 & H25).
  { subst m1. list_of_length hi Hlen. reflexivity. }
  { right; reflexivity. }
  { lia. }
  set (g1 := state_of (decodeGreenway (frame_ptr m1) 20 t1 g)) in *.
  assert (Hm3 : byte_val (m2 3%nat) = nth 9 hi 0 mod 256).
  { subst m2. list_of_length hi Hlen. split_Forall.
    cbn [high_followup frame_mem nth skipn flat_map le16_bytes app].
    unfold lo_byte. apply byte_val_of_Z. apply Z.mod_pos_bound. lia. }
  destruct (decode_high_followup_frame m2 t2 g1) as (Hc2 & Hp).
  { exact H25. } { exact H24. } { rewrite Hm3. exact Hclash. }
  split; [| exact Hp].
  rewrite Hc2, Hsh, Hc1. clear Hc2 Hc1 Hp Hsh H24 H25 g1 Hm3 Hclash.
  subst m1 m2.
  list_of_length hi Hlen. split_Forall.
  remember (cellVolts (bmsData g)) as cells eqn:Ecells. clear Ecells.
  unfold CELL_ARRAY_LEN in Hcells. list_of_length cells Hcells.
  cbv -[milli word_of store_cell byte_val lo_byte hi_byte byte_of_Z].
  rewrite !word_of_bytes by assumption.
  reflexivity.
Qed.

(** C3 as the code has it. The block [0x24] is cells 1 to 16 and the
    block [0x25] cells 17 to 28. For every choice of sixteen millivolt
    values for the first and twelve for the second, decoding the header
    frame and then its follow-up frame stores exactly the cells of that
    block, each within 0.001 V of the value sent, leaves the other cells
    as they were and ends with no block pending. The follow-up frame must
    not carry one of the register ids [0x08], [0x09], [0x0A], [0x17] at
    offset 3, where the low byte of the tenth cell of the block stands. *)
Theorem C3_block_roundtrip (lo hi : list Z) (pad : byte)
    (maxV minV t1 t2 : Z) (g : Globals) :
  length lo = 16%nat -> Forall is_mv lo ->
  ~ followup_tag_clash (nth 9 lo 0 mod 256) ->
  length hi = 12%nat -> Forall is_mv hi ->
  ~ followup_tag_clash (nth 9 hi 0 mod 256) ->
  length (cellVolts (bmsData g)) = CELL_ARRAY_LEN ->
  let gl := state_of (run_calls (low_block_calls pad lo t1 t2) g) in
  let gh := state_of (run_calls (high_block_calls pad maxV minV hi t1 t2) g) in
  cellVolts (bmsData gl) = map milli lo ++ drop 16 (cellVolts (bmsData g))
  /\ Forall2 within_1mV (take 16 (cellVolts (bmsData gl))) lo
  /\ pendingBlock gl = NONE
  /\ cellVolts (bmsData gh) =
       take 16 (cellVolts (bmsData g)) ++ map milli hi
       ++ drop 28 (cellVolts (bmsData g))
  /\ Forall2 within_1mV (take 12 (drop 16 (cellVolts (bmsData gh)))) hi
  /\ pendingBlock gh = NONE.
Proof.
  intros Hlo Hmvlo Hclo Hhi Hmvhi Hchi Hcells. cbv zeta.
  destruct (low_block_roundtrip lo pad t1 t2 g Hlo Hmvlo Hclo Hcells)
    as [Hl Hpl].
  destruct (high_block_roundtrip hi pad maxV minV t1 t2 g Hhi Hmvhi Hchi Hcells)
    as [Hh Hph].
  split; [exact Hl |]. split; [| split; [exact Hpl |]].
  - rewrite Hl.
    assert (Ht : take 16 (map milli lo ++ drop 16 (cellVolts (bmsData g)))
                 = map milli lo).
    { clear -Hlo. list_of_length lo Hlo. reflexivity. }
    rewrite Ht. apply Forall2_milli_within. exact Hmvlo.
  - split; [exact Hh |]. split; [| exact Hph].
    rewrite Hh.
    assert (Ht : take 12 (drop 16 (take 16 (cellVolts (bmsData g))
                                   ++ map milli hi
                                   ++ drop 28 (cellVolts (bmsData g))))
                 = map milli hi).
    { clear -Hhi Hcells. unfold CELL_ARRAY_LEN in Hcells.
      remember (cellVolts (bmsData g)) as cells eqn:Ecells. clear Ecells.
      list_of_length cells Hcells. list_of_length hi Hhi. reflexivity. }
    rewrite Ht. apply Forall2_milli_within. exact Hmvhi.
Qed.

Lemma C3_block_roundtrip_witness :
  length low_cells = 16%nat /\ Forall is_mv low_cells
  /\ ~ followup_tag_clash (nth 9 low_cells 0 mod 256)
  /\ length high_cells = 12%nat /\ Forall is_mv high_cells
  /\ ~ followup_tag_clash (nth 9 high_cells 0 mod 256)
  /\ length (cellVolts (bmsData globals_init)) = CELL_ARRAY_LEN
  /\ cellVolts (bmsData (state_of
       (run_calls (low_block_calls x00 low_cells 1 2) globals_init)))
     = map milli low_cells ++ drop 16 (cellVolts (bmsData globals_init))
  /\ Forall2 within_1mV
       (take 12 (drop 16 (cellVolts (bmsData (state_of
          (run_calls (high_block_calls x00 3811 3800 high_cells 1 2)
             globals_init))))))
       high_cells.
Proof.
  assert (H1 : length low_cells = 16%nat) by reflexivity.
  assert (H2 : Forall is_mv low_cells)
    by (repeat constructor; unfold is_mv; lia).
  assert (H3 : ~ followup_tag_clash (nth 9 low_cells 0 mod 256)).
  { unfold followup_tag_clash.
    change (nth 9 low_cells 0 mod 256) with 125. lia. }
  assert (H4 : length high_cells = 12%nat) by reflexivity.
  assert (H5 : Forall is_mv high_cells)
    by (repeat constructor; unfold is_mv; lia).
  assert (H6 : ~ followup_tag_clash (nth 9 high_cells 0 mod 256)).
  { unfold followup_tag_clash.
    change (nth 9 high_cells 0 mod 256) with 225. lia. }
  assert (H7 : length (cellVolts (bmsData globals_init)) = CELL_ARRAY_LEN)
    by reflexivity.
  pose proof (C3_block_roundtrip low_cells high_cells x00 3811 3800 1 2
                globals_init H1 H2 H3 H4 H5 H6 H7) as H.
  cbv zeta in H. destruct H as (Hl & _ & _ & _ & Hh & _).
  repeat (split; [assumption |]). exact Hh.
Defined.

(** The claim as stated, with halves of fourteen cells (1 to 14 and 15 to
    28), fails on the code: the block [0x25] leaves cells 15 and 16 at
    0 V, which is not within 0.001 V of a cell voltage of 3.7 V, and the
    block [0x24] stores cells 15 and 16. *)
Lemma C3_counterexample :
  let gh := state_of (run_calls (high_block_calls x00 3811 3800 high_cells 1 2)
                        globals_init) in
  let gl := state_of (run_calls (low_block_calls x00 low_cells 1 2)
                        globals_init) in
  cellVolts (bmsData gh) !! 14%nat = Some f32_zero
  /\ cellVolts (bmsData gh) !! 15%nat = Some f32_zero
  /\ ~ within_1mV f32_zero 3700
  /\ cellVolts (bmsData globals_init) !! 14%nat = Some f32_zero
  /\ cellVolts (bmsData gl) !! 14%nat = Some (milli 3714)
  /\ cellVolts (bmsData gl) !! 15%nat = Some (milli 3715)
  /\ milli 3714 <> f32_zero.
Proof.
  cbv zeta.
  split; [vm_compute; reflexivity |].
  split; [vm_compute; reflexivity |].
  split.
  { unfold within_1mV. cbn [to_Q f32_zero]. intros H.
    apply Qabs_Qlt_condition in H. destruct H as [H _].
    unfold Qlt in H. cbn in H. lia. }
  split; [reflexivity |].
  split; [vm_compute; reflexivity |].
  split; [vm_compute; reflexivity |].
  vm_compute. discriminate.
Qed.

(** When the low byte of the tenth cell equals a register id, the
    follow-up frame is decoded as that register: here as a total voltage,
    while cells 8 to 16 keep their old values and the block stays
    pending. *)
Lemma followup_clash_example :
  let g := state_of (run_calls (low_block_calls x00 clash_cells 1 2)
                       globals_init) in
  Forall is_mv clash_cells
  /\ followup_tag_clash (nth 9 clash_cells 0 mod 256)
  /\ cellVolts (bmsData g) !! 6%nat = Some (milli 3706)
  /\ cellVolts (bmsData g) !! 7%nat = Some f32_zero
  /\ pendingBlock g = LOW_BLOCK
  /\ totalVoltage (bmsData g) <> totalVoltage (bmsData globals_init).
Proof.
  cbv zeta.
  split; [repeat constructor; unfold is_mv; lia |].
  split; [left; reflexivity |].
  split; [vm_compute; reflexivity |].
  split; [vm_compute; reflexivity |].
  split; [vm_compute; reflexivity |].
  vm_compute. discriminate.
Qed.

Lemma C10_cell_writes_in_range_witness :
  In (EvCellWrite 0 (milli 3700))
     (trace_of (run_calls (low_block_calls x00 low_cells 1 2) globals_init))
  /\ 0 <= 0 <= 27.
Proof.
  assert (H : In (EvCellWrite 0 (milli 3700))
                (trace_of (run_calls (low_block_calls x00 low_cells 1 2)
                             globals_init))).
  { vm_compute. right. right. right. left. reflexivity. }
  split; [exact H |].
  exact (C10_cell_writes_in_range _ _ _ _ H).
Defined.

(** * Further properties of the code *)

(** ** Negative readings *)

(** The sign only labels the result of a rounding. *)
Lemma binary_round_aux_opp (prec emax mx ex : Z) (lx : location) :
  binary_round_aux prec emax true mx ex lx
  = SFopp (binary_round_aux prec emax false mx ex lx).
Proof.
  unfold binary_round_aux.
  destruct (shr_fexp prec emax mx ex lx) as [mrs1 e1].
  destruct (shr_fexp prec emax _ e1 loc_Exact) as [mrs2 e2].
  destruct (shr_m mrs2); [reflexivity | | reflexivity].
  destruct (e2 <=? emax - prec); reflexivity.
Qed.

Lemma binary_round_opp (prec emax : Z) (m : positive) (e : Z) :
  binary_round prec emax true m e = SFopp (binary_round prec emax false m e).
Proof.
  unfold binary_round.
  destruct (shl_align m e _) as [mz ez]. apply binary_round_aux_opp.
Qed.

Lemma SFopp_involutive (x : spec_float) : SFopp (SFopp x) = x.
Proof. destruct x as [s | s | | s m e]; cbn; rewrite ?negb_involutive; reflexivity. Qed.

Lemma binary_round_sign (prec emax : Z) (s : bool) (m : positive) (e : Z) :
  binary_round prec emax (negb s) m e = SFopp (binary_round prec emax s m e).
Proof.
  destruct s; cbn [negb].
  - rewrite binary_round_opp, SFopp_involutive. reflexivity.
  - apply binary_round_opp.
Qed.

Lemma f64_of_f32_opp (x : f32) : f64_of_f32 (SFopp x) = SFopp (f64_of_f32 x).
Proof.
  destruct x as [s | s | | s m e]; try reflexivity.
  cbn [SFopp f64_of_f32]. destruct s; cbn [negb signed_mantissa binary_normalize].
  - rewrite binary_round_opp, SFopp_involutive. reflexivity.
  - apply binary_round_opp.
Qed.

Lemma f32_of_f64_opp (x : f64) : f32_of_f64 (SFopp x) = SFopp (f32_of_f64 x).
Proof.
  destruct x as [s | s | | s m e]; try reflexivity.
  cbn [SFopp f32_of_f64]. destruct s; cbn [negb signed_mantissa binary_normalize].
  - rewrite binary_round_opp, SFopp_involutive. reflexivity.
  - apply binary_round_opp.
Qed.

Lemma SFdiv_d1000_opp (x : f64) :
  SFdiv prec64 emax64 (SFopp x) d1000 = SFopp (SFdiv prec64 emax64 x d1000).
Proof.
  rewrite d1000_eq.
  destruct x as [s | s | | s m e]; try reflexivity.
  - cbn [SFopp SFdiv]. destruct s; reflexivity.
  - cbn [SFopp SFdiv]. destruct s; reflexivity.
  - cbn [SFopp SFdiv].
    destruct (SFdiv_core_binary prec64 emax64 (Z.pos m) e (Z.pos m1000) (-43))
      as [[mz ez] lz].
    destruct s; cbn [negb xorb].
    + rewrite binary_round_aux_opp, SFopp_involutive. reflexivity.
    + apply binary_round_aux_opp.
Qed.

Lemma div1000_opp (x : f32) : div1000 (SFopp x) = SFopp (div1000 x).
Proof.
  unfold div1000. rewrite f64_of_f32_opp, SFdiv_d1000_opp, f32_of_f64_opp.
  reflexivity.
Qed.

(** [(float)(-z) / 1000.0] is the opposite of [(float)z / 1000.0]. *)
Lemma milli_opp (p : positive) : milli (Zneg p) = SFopp (milli (Zpos p)).
Proof.
  unfold milli. rewrite <- div1000_opp. f_equal.
  unfold f32_of_Z. cbn [binary_normalize]. apply binary_round_opp.
Qed.

Lemma within_1mV_opp (x : f32) (z : Z) :
  within_1mV x z -> within_1mV (SFopp x) (- z).
Proof.
  unfold within_1mV.
  destruct x as [s | s | | s m e]; cbn [SFopp to_Q].
  - intros H. apply Qabs_Qlt_condition in H. apply Qabs_Qlt_condition.
    unfold Qlt, Qminus, Qplus, Qopp, Qmult, inject_Z in *.
    cbn [Qnum Qden] in *. lia.
  - intros H; exact H.
  - intros H; exact H.
  - intros H. apply Qabs_Qlt_condition in H. apply Qabs_Qlt_condition.
    assert (Hs : signed_mantissa (negb s) m = - signed_mantissa s m)
      by (destruct s; reflexivity).
    rewrite Hs.
    unfold Qlt, Qminus, Qplus, Qopp, Qmult, inject_Z in *.
    cbn [Qnum Qden] in *.
    set (P := Z.pos (Qden (pow2 e))) in *.
    set (N := Qnum (pow2 e)) in *.
    set (S := signed_mantissa s m) in *.
    destruct H as [H1 H2]. split; nia.
Qed.

(** Every reading of fewer than 2^19 thousandths in absolute value is
    stored as a [float] within 0.001 of it. *)
Lemma milli_within_1mV_signed (z : Z) :
  -524288 < z < 524288 -> within_1mV (milli z) z.
Proof.
  intros Hz. destruct z as [| p | p].
  - apply close_Z_within. reflexivity.
  - apply close_Z_within, milli_close_pos. lia.
  - rewrite milli_opp. change (Z.neg p) with (- Z.pos p).
    apply within_1mV_opp, close_Z_within, milli_close_pos. lia.
Qed.

(** [(float)z] is [z] itself for an integer of at most 24 bits. *)
Lemma f32_of_Z_exact (z : Z) :
  0 <= z < 2 ^ 24 -> denotes (f32_of_Z z) (inject_Z z).
Proof.
  intros Hz. unfold denotes. destruct z as [| p | p]; try lia.
  - reflexivity.
  - unfold f32_of_Z. cbn [binary_normalize].
    pose proof (Zdigits2_bounds p) as [Dlo Dhi].
    set (d := Zpos (digits2_pos p)) in *.
    assert (Hd : 1 <= d <= 24).
    { split; [subst d; lia |]. subst d. apply digits_le; lia. }
    destruct (binary_round_exact prec32 emax32 eq_refl false p 0)
      as (mz & E & V & _).
    { fold d. unfold prec32. lia. }
    { fold d. unfold emin, prec32, emax32. lia. }
    { fold d. unfold emax32. lia. }
    fold d in E, V. rewrite E. cbn [to_Q signed_mantissa].
    unfold prec32 in *.
    destruct (d + 0 - 24) as [| k | k] eqn:Ek; try lia.
    + replace (24 - d) with 0 in V by lia.
      unfold Qeq, Qmult, inject_Z. cbn. lia.
    + assert (Hk : 24 - d = Z.pos k) by lia.
      rewrite Hk, <- Pos2Z.inj_pow in V.
      unfold Qeq, Qmult, inject_Z. cbn [pow2 Qnum Qden]. lia.
Qed.

(** ** Bytes and words *)

Lemma byte_val_of_Z_u8 (z : Z) : byte_val (byte_of_Z z) = u8 z.
Proof.
  assert (E : byte_of_Z z = byte_of_Z (u8 z)).
  { unfold byte_of_Z, u8. rewrite Z.mod_mod by lia. reflexivity. }
  rewrite E. apply byte_val_of_Z. apply Z.mod_pos_bound. lia.
Qed.

Lemma byte_val_bound (b : byte) : 0 <= byte_val b < 256.
Proof.
  unfold byte_val. pose proof (Byte.to_N_bounded b) as Hb. lia.
Qed.

(** [a | (b << n)] is [a + b * 2^n] when [a] has fewer than [n] bits. *)
Lemma lor_shiftl_add (a b n : Z) :
  0 <= n -> 0 <= a < 2 ^ n -> Z.lor a (Z.shiftl b n) = a + b * 2 ^ n.
Proof.
  intros Hn Ha.
  assert (Hland : Z.land a (Z.shiftl b n) = 0).
  { apply Z.bits_inj'. intros k Hk. rewrite Z.land_spec, Z.bits_0.
    destruct (Z_lt_le_dec k n).
    - rewrite Z.shiftl_spec_low by lia. apply andb_false_r.
    - rewrite <- (Z.mod_small a (2 ^ n)) by lia.
      rewrite Z.mod_pow2_bits_high by lia. reflexivity. }
  rewrite <- Z.lxor_lor by exact Hland.
  rewrite <- Z.add_nocarry_lxor by exact Hland.
  rewrite Z.shiftl_mul_pow2 by lia. reflexivity.
Qed.

Lemma le32_sum (z : Z) :
  u8 z + u8 (z / 256) * 256 + u8 (z / 65536) * 65536
  + u8 (z / 16777216) * 16777216 = u32 z.
Proof. unfold u8, u32. Z.to_euclidean_division_equations. lia. Qed.

(** ** The 32-bit reader *)

Lemma get32BitLEValue_run (data : ptr) (index : nat) (g : Globals) :
  (index + 3 < 20)%nat ->
  get32BitLEValue data index g
  = (int32_at data index, g,
     [EvFrameRead (off data + index); EvFrameRead (off data + (index + 1));
      EvFrameRead (off data + (index + 2)); EvFrameRead (off data + (index + 3))]).
Proof.
  intros Hi. unfold get32BitLEValue.
  destruct (Nat.leb_spec 20 (index + 3)) as [Hge | _]; [lia |].
  reflexivity.
Qed.


Lemma le32_decode (z : Z) :
  INT_MIN <= z <= INT_MAX ->
  s32 (u32 (Z.lor (Z.lor (Z.lor (byte_val (byte_of_Z z))
                                (Z.shiftl (byte_val (byte_of_Z (z / 256))) 8))
                         (Z.shiftl (byte_val (byte_of_Z (z / 65536))) 16))
                  (Z.shiftl (byte_val (byte_of_Z (z / 16777216))) 24))) = z.
Proof.
  intros Hz. rewrite !byte_val_of_Z_u8.
  pose proof (Z.mod_pos_bound z 256 ltac:(lia)) as H0.
  pose proof (Z.mod_pos_bound (z / 256) 256 ltac:(lia)) as H1.
  pose proof (Z.mod_pos_bound (z / 65536) 256 ltac:(lia)) as H2.
  pose proof (Z.mod_pos_bound (z / 16777216) 256 ltac:(lia)) as H3.
  fold (u8 z) in H0. fold (u8 (z / 256)) in H1.
  fold (u8 (z / 65536)) in H2. fold (u8 (z / 16777216)) in H3.
  rewrite (lor_shiftl_add (u8 z)) by (change (2 ^ 8) with 256; lia).
  change (2 ^ 8) with 256.
  rewrite (lor_shiftl_add (u8 z + u8 (z / 256) * 256))
    by (change (2 ^ 16) with 65536; lia).
  change (2 ^ 16) with 65536.
  rewrite (lor_shiftl_add (u8 z + u8 (z / 256) * 256 + u8 (z / 65536) * 65536))
    by (change (2 ^ 24) with 16777216; lia).
  change (2 ^ 24) with 16777216.
  rewrite le32_sum.
  assert (E : s32 (u32 (u32 z)) = s32 z).
  { unfold s32, u32. rewrite !Z.mod_mod by lia. reflexivity. }
  rewrite E. apply s32_in_range. exact Hz.
Qed.

Lemma le16_decode (n : Z) :
  0 <= n < 65536 ->
  u16 (Z.lor (byte_val (byte_of_Z (n mod 256)))
             (Z.shiftl (byte_val (byte_of_Z (n / 256))) 8)) = n.
Proof.
  intros Hn. rewrite !byte_val_of_Z_u8.
  assert (H0 : 0 <= u8 (n mod 256) < 256) by (apply Z.mod_pos_bound; lia).
  rewrite lor_shiftl_add by (change (2 ^ 8) with 256; lia).
  change (2 ^ 8) with 256. unfold u8, u16 in *.
  Z.to_euclidean_division_equations. lia.
Qed.

Lemma s8_byte (t : Z) : -128 <= t <= 127 -> s8 (byte_val (byte_of_Z t)) = t.
Proof.
  intros Ht. rewrite byte_val_of_Z_u8. unfold s8, u8.
  rewrite Z.mod_mod by lia.
  destruct (Z.ltb_spec (t mod 256) 128);
    Z.to_euclidean_division_equations; lia.
Qed.




(** ** Register frames *)

Lemma with_bms_id (f : BmsData -> BmsData) (g : Globals) :
  f (bmsData g) = bmsData g -> with_bms f g = g.
Proof. intros H. destruct g. unfold with_bms. cbn in *. rewrite H. reflexivity. Qed.

Lemma debug_line_state (l : serial_line) (g : Globals) :
  state_of (debug_line l g) = g.
Proof. unfold debug_line, bind, gets, when. destruct (debugMode g); reflexivity. Qed.

(** The fields a register frame sets are not looked at by the scan. *)
Lemma settled_commute (f : BmsData -> BmsData) :
  (forall b : BmsData, update_min_max (f b) = f (update_min_max b)) ->
  forall b : BmsData, min_max_settled b -> min_max_settled (f b).
Proof.
  unfold min_max_settled. intros Hf b Hb. rewrite Hf, Hb. reflexivity.
Qed.

Ltac settled_setter :=
  match goal with
  | |- forall b : BmsData, min_max_settled b -> min_max_settled (@?f b) =>
      apply (settled_commute f); intros ?; reflexivity
  end.

Ltac eval_tag_tests :=
  repeat match goal with
         | |- context [Z.eqb ?a ?b] =>
             let v := eval vm_compute in (Z.eqb a b) in
             change (Z.eqb a b) with v
         end;
  cbn [andb].

Ltac guard_holds :=
  match goal with
  | |- context [Nat.leb ?a ?b] =>
      destruct (Nat.leb_spec a b) as [? | ?]; [| lia]
  end.

Ltac guard_fails :=
  match goal with
  | |- context [Nat.leb ?a ?b] =>
      destruct (Nat.leb_spec a b) as [? | ?]; [lia |]
  end.

(** What a frame does when its register sets the fields [f] of the
    snapshot, in a state in which the two cell indices are those the scan
    leaves. *)
Lemma decode_value_state (m : nat -> byte) (len : nat) (now : Z) (g : Globals)
    (f : BmsData -> BmsData) :
  min_max_settled (bmsData g) -> (6 <= len)%nat ->
  (forall g1 : Globals,
     state_of (decode_register (frame_ptr m) len (byte_val (m 3%nat)) g1)
     = with_bms f g1) ->
  (forall b : BmsData, min_max_settled b -> min_max_settled (f b)) ->
  state_of (decodeGreenway (frame_ptr m) len now g)
  = with_bms f (with_bms (set_lastUpdateTime now)
                  (with_bluetoothDataReceived true g)).
Proof.
  intros Hg Hlen Hreg Hf. rewrite decodeGreenway_state.
  destruct (Nat.ltb_spec len 6) as [Hlt | _]; [lia |].
  cbn [frame_ptr mem off Nat.add]. rewrite Hreg.
  apply with_bms_id.
  change (min_max_settled (f (set_lastUpdateTime now (bmsData g)))).
  apply Hf, min_max_settled_lastUpdateTime, Hg.
Qed.

Lemma decode_register_09 (data : ptr) (len : nat) (g : Globals) :
  (9 <= len)%nat ->
  state_of (decode_register data len 0x09 g)
  = with_bms (set_totalVoltage (milli (int32_at (padd data 5) 0))) g.
Proof.
  intros Hlen. unfold decode_register. eval_tag_tests. guard_holds.
  rewrite !state_of_bind, get32BitLEValue_run by lia.
  cbn [fst snd state_of modify]. apply debug_line_state.
Qed.

Lemma decode_register_0A (data : ptr) (len : nat) (g : Globals) :
  (18 <= len)%nat ->
  state_of (decode_register data len 0x0A g)
  = with_bms (fun b =>
      set_fullCapacity
        (f32_of_Z (u16 (Z.lor (byte_at data 17) (Z.shiftl (byte_at data 18) 8))))
        (set_soh (byte_at data 13)
           (set_soc (byte_at data 9)
              (set_current (milli (int32_at (padd data 5) 0)) b)))) g.
Proof.
  intros Hlen. unfold decode_register. eval_tag_tests. guard_holds.
  unfold rd16. rewrite !state_of_bind, get32BitLEValue_run by lia.
  cbn [fst snd state_of modify rd bind ret]. rewrite debug_line_state.
  destruct g as [b ? ? ? ? ? ? ? ? ? ? ? ?]. reflexivity.
Qed.

Lemma decode_register_08 (data : ptr) (len : nat) (g : Globals) :
  (9 <= len)%nat ->
  state_of (decode_register data len 0x08 g)
  = with_bms (set_temps (s8 (byte_at data 5)) (s8 (byte_at data 7))
                (s8 (byte_at data 9))) g.
Proof.
  intros Hlen. unfold decode_register. eval_tag_tests. guard_holds.
  rewrite !state_of_bind.
  cbn [fst snd state_of modify rd bind ret]. apply debug_line_state.
Qed.

Lemma decode_register_17 (data : ptr) (len : nat) (g : Globals) :
  (7 <= len)%nat ->
  state_of (decode_register data len 0x17 g)
  = with_bms (set_cycleCount
                (u16 (Z.lor (byte_at data 5) (Z.shiftl (byte_at data 6) 8)))) g.
Proof.
  intros Hlen. unfold decode_register. eval_tag_tests. guard_holds.
  unfold rd16. rewrite !state_of_bind.
  cbn [fst snd state_of modify rd bind ret]. apply debug_line_state.
Qed.

Ltac frame_bytes :=
  unfold int32_at, byte_at;
  cbn [voltage_frame current_frame temperature_frame cycle_frame
       register_frame le32_bytes le16_bytes lo_byte hi_byte
       frame_ptr padd frame_mem mem off Nat.add app nth].

(** X2. A frame of register [0x09] carrying a total voltage of [mv]
    millivolts sets [totalVoltage] to [(float)mv / 1000.0], stamps the
    snapshot and raises the reception flag; nothing else changes. Up to
    524 V the stored voltage is within 0.001 V of the one sent, and every
    byte read lies inside the frame. The state is any state in which the
    two cell indices are those the scan of the cells leaves, as they are
    at boot and after every function of the sketch. *)
Theorem voltage_frame_roundtrip (pad rest : byte) (post : list byte)
    (mv now : Z) (g : Globals) :
  min_max_settled (bmsData g) -> INT_MIN <= mv <= INT_MAX ->
  let frame := voltage_frame pad mv ++ post in
  let r := decodeGreenway (frame_ptr (frame_mem frame rest)) (length frame)
             now g in
  state_of r
  = with_bms (fun b => set_totalVoltage (milli mv) (set_lastUpdateTime now b))
      (with_bluetoothDataReceived true g)
  /\ (-524288 < mv < 524288 ->
      within_1mV (totalVoltage (bmsData (state_of r))) mv)
  /\ (forall i : nat, In (EvFrameRead i) (trace_of r) -> (i < length frame)%nat).
Proof.
  intros Hg Hmv frame r.
  assert (Hlen : length frame = (9 + length post)%nat).
  { subst frame. rewrite length_app. reflexivity. }
  assert (Htag : byte_val (frame_mem frame rest 3%nat) = 0x09) by reflexivity.
  assert (Hst : state_of r
    = with_bms (fun b => set_totalVoltage (milli mv) (set_lastUpdateTime now b))
        (with_bluetoothDataReceived true g)).
  { subst r.
    rewrite (decode_value_state _ _ _ _
               (set_totalVoltage
                  (milli (int32_at (padd (frame_ptr (frame_mem frame rest)) 5) 0)))
               Hg); [| lia | | settled_setter].
    - replace (int32_at (padd (frame_ptr (frame_mem frame rest)) 5) 0) with mv;
        [reflexivity |].
      subst frame. frame_bytes. symmetry. apply le32_decode. exact Hmv.
    - intros g1. rewrite Htag. apply decode_register_09. lia. }
  split; [exact Hst |]. split.
  - intros Hsmall. rewrite Hst. apply milli_within_1mV_signed. exact Hsmall.
  - intros i Hin. subst r.
    apply decodeGreenway_reads_in_bounds in Hin; [exact Hin | |];
      rewrite Htag; intros [E _]; discriminate E.
Qed.

Lemma voltage_frame_roundtrip_witness :
  min_max_settled (bmsData globals_init) /\ INT_MIN <= 100800 <= INT_MAX /\
  totalVoltage (bmsData (state_of
    (decodeGreenway (frame_ptr (frame_mem (voltage_frame x00 100800 ++ [x5a]) xff))
       10 1000 globals_init)))
  = milli 100800.
Proof.
  assert (Hg : min_max_settled (bmsData globals_init)) by reflexivity.
  assert (Hmv : INT_MIN <= 100800 <= INT_MAX) by (unfold INT_MIN, INT_MAX; lia).
  split; [exact Hg |]. split; [exact Hmv |].
  pose proof (voltage_frame_roundtrip x00 xff [x5a] 100800 1000 globals_init
                Hg Hmv) as H.
  cbv zeta in H. destruct H as (Hst & _ & _).
  change (length (voltage_frame x00 100800 ++ [x5a])) with 10%nat in Hst.
  rewrite Hst. reflexivity.
Defined.

(** X3. A frame of register [0x0A] sets the current to
    [(float)ma / 1000.0], the state of charge and the state of health to
    the bytes at offsets 9 and 13, and the capacity to the 16-bit value at
    offsets 17 and 18, which the [float] holds exactly. A current below
    524 A in absolute value, charging or discharging, is stored within
    0.001 A. With the 19 bytes the branch reads, every read is inside the
    frame. Nothing else changes, in any state in which the two cell indices
    are those the scan of the cells leaves. *)
Theorem current_frame_roundtrip (pad rest : byte) (post : list byte)
    (ma socv sohv cap now : Z) (g : Globals) :
  min_max_settled (bmsData g) -> INT_MIN <= ma <= INT_MAX ->
  0 <= socv < 256 -> 0 <= sohv < 256 -> 0 <= cap < 65536 ->
  let frame := current_frame pad ma socv sohv cap ++ post in
  let r := decodeGreenway (frame_ptr (frame_mem frame rest)) (length frame)
             now g in
  state_of r
  = with_bms (fun b =>
      set_fullCapacity (f32_of_Z cap)
        (set_soh sohv (set_soc socv
           (set_current (milli ma) (set_lastUpdateTime now b)))))
      (with_bluetoothDataReceived true g)
  /\ (-524288 < ma < 524288 -> within_1mV (current (bmsData (state_of r))) ma)
  /\ denotes (fullCapacity (bmsData (state_of r))) (inject_Z cap)
  /\ (forall i : nat, In (EvFrameRead i) (trace_of r) -> (i < length frame)%nat).
Proof.
  intros Hg Hma Hsoc Hsoh Hcap frame r.
  assert (Hlen : length frame = (19 + length post)%nat).
  { subst frame. rewrite length_app. reflexivity. }
  assert (Htag : byte_val (frame_mem frame rest 3%nat) = 0x0A) by reflexivity.
  set (data := frame_ptr (frame_mem frame rest)).
  assert (Hst : state_of r
    = with_bms (fun b =>
        set_fullCapacity (f32_of_Z cap)
          (set_soh sohv (set_soc socv
             (set_current (milli ma) (set_lastUpdateTime now b)))))
        (with_bluetoothDataReceived true g)).
  { subst r.
    rewrite (decode_value_state _ _ _ _
      (fun b =>
         set_fullCapacity
           (f32_of_Z (u16 (Z.lor (byte_at data 17)
                                 (Z.shiftl (byte_at data 18) 8))))
           (set_soh (byte_at data 13)
              (set_soc (byte_at data 9)
                 (set_current (milli (int32_at (padd data 5) 0)) b))))
      Hg); [| lia | | settled_setter].
    - replace (int32_at (padd data 5) 0) with ma.
      2:{ subst data frame. frame_bytes. symmetry. apply le32_decode, Hma. }
      replace (u16 (Z.lor (byte_at data 17) (Z.shiftl (byte_at data 18) 8)))
        with cap.
      2:{ subst data frame. frame_bytes. symmetry. apply le16_decode, Hcap. }
      replace (byte_at data 9) with socv.
      2:{ subst data frame. frame_bytes. symmetry. apply byte_val_of_Z, Hsoc. }
      replace (byte_at data 13) with sohv.
      2:{ subst data frame. frame_bytes. symmetry. apply byte_val_of_Z, Hsoh. }
      reflexivity.
    - intros g1. rewrite Htag. apply decode_register_0A. lia. }
  split; [exact Hst |]. split; [| split].
  - intros Hsmall. rewrite Hst. apply milli_within_1mV_signed. exact Hsmall.
  - rewrite Hst. apply f32_of_Z_exact. change (2 ^ 24) with 16777216. lia.
  - intros i Hin. subst r.
    apply decodeGreenway_reads_in_bounds in Hin; [exact Hin | |];
      rewrite Htag; intros [E1 E2]; [discriminate E1 | lia].
Qed.

Lemma current_frame_roundtrip_witness :
  min_max_settled (bmsData globals_init) /\ INT_MIN <= -12500 <= INT_MAX /\
  0 <= 86 < 256 /\ 0 <= 98 < 256 /\ 0 <= 2900 < 65536 /\
  soc (bmsData (state_of
    (decodeGreenway
       (frame_ptr (frame_mem (current_frame x00 (-12500) 86 98 2900 ++ []) xff))
       19 1000 globals_init))) = 86
  /\ within_1mV (current (bmsData (state_of
       (decodeGreenway
          (frame_ptr (frame_mem (current_frame x00 (-12500) 86 98 2900 ++ []) xff))
          19 1000 globals_init)))) (-12500).
Proof.
  assert (Hg : min_max_settled (bmsData globals_init)) by reflexivity.
  assert (Hma : INT_MIN <= -12500 <= INT_MAX) by (unfold INT_MIN, INT_MAX; lia).
  assert (H1 : 0 <= 86 < 256) by lia.
  assert (H2 : 0 <= 98 < 256) by lia.
  assert (H3 : 0 <= 2900 < 65536) by lia.
  do 5 (split; [assumption |]).
  pose proof (current_frame_roundtrip x00 xff [] (-12500) 86 98 2900 1000
                globals_init Hg Hma H1 H2 H3) as H.
  cbv zeta in H. destruct H as (Hst & Hcur & _ & _).
  change (length (current_frame x00 (-12500) 86 98 2900 ++ [])) with 19%nat
    in Hst, Hcur.
  split.
  - rewrite Hst. reflexivity.
  - apply Hcur. lia.
Defined.

(** X4. A frame of register [0x08] sets the three temperatures to the
    signed bytes at offsets 5, 7 and 9: every temperature from -128 to 127
    degrees is read back as sent. With the 10 bytes the branch reads,
    every read is inside the frame. Nothing else changes, in any state in
    which the two cell indices are those the scan of the cells leaves. *)
Theorem temperature_frame_roundtrip (pad rest : byte) (post : list byte)
    (t1 t2 tm now : Z) (g : Globals) :
  min_max_settled (bmsData g) ->
  -128 <= t1 <= 127 -> -128 <= t2 <= 127 -> -128 <= tm <= 127 ->
  let frame := temperature_frame pad t1 t2 tm ++ post in
  let r := decodeGreenway (frame_ptr (frame_mem frame rest)) (length frame)
             now g in
  state_of r
  = with_bms (fun b => set_temps t1 t2 tm (set_lastUpdateTime now b))
      (with_bluetoothDataReceived true g)
  /\ (forall i : nat, In (EvFrameRead i) (trace_of r) -> (i < length frame)%nat).
Proof.
  intros Hg H1 H2 Hm frame r.
  assert (Hlen : length frame = (10 + length post)%nat).
  { subst frame. rewrite length_app. reflexivity. }
  assert (Htag : byte_val (frame_mem frame rest 3%nat) = 0x08) by reflexivity.
  set (data := frame_ptr (frame_mem frame rest)).
  split.
  - subst r.
    rewrite (decode_value_state _ _ _ _
      (set_temps (s8 (byte_at data 5)) (s8 (byte_at data 7))
         (s8 (byte_at data 9))) Hg); [| lia | | settled_setter].
    + replace (s8 (byte_at data 5)) with t1.
      2:{ subst data frame. frame_bytes. symmetry. apply s8_byte, H1. }
      replace (s8 (byte_at data 7)) with t2.
      2:{ subst data frame. frame_bytes. symmetry. apply s8_byte, H2. }
      replace (s8 (byte_at data 9)) with tm.
      2:{ subst data frame. frame_bytes. symmetry. apply s8_byte, Hm. }
      reflexivity.
    + intros g1. rewrite Htag. apply decode_register_08. lia.
  - intros i Hin. subst r.
    apply decodeGreenway_reads_in_bounds in Hin; [exact Hin | |];
      rewrite Htag; intros [E1 E2]; [lia | discriminate E1].
Qed.

Lemma temperature_frame_roundtrip_witness :
  min_max_settled (bmsData globals_init) /\
  -128 <= 25 <= 127 /\ -128 <= -7 <= 127 /\ -128 <= 31 <= 127 /\
  tempT2 (bmsData (state_of
    (decodeGreenway
       (frame_ptr (frame_mem (temperature_frame x00 25 (-7) 31 ++ []) xff))
       10 1000 globals_init))) = -7.
Proof.
  assert (Hg : min_max_settled (bmsData globals_init)) by reflexivity.
  assert (H1 : -128 <= 25 <= 127) by lia.
  assert (H2 : -128 <= -7 <= 127) by lia.
  assert (H3 : -128 <= 31 <= 127) by lia.
  do 4 (split; [assumption |]).
  pose proof (temperature_frame_roundtrip x00 xff [] 25 (-7) 31 1000
                globals_init Hg H1 H2 H3) as H.
  cbv zeta in H. destruct H as (Hst & _).
  change (length (temperature_frame x00 25 (-7) 31 ++ [])) with 10%nat in Hst.
  rewrite Hst. reflexivity.
Defined.

(** X5. A frame of register [0x17] sets the cycle count to the 16-bit
    value at offsets 5 and 6: every count from 0 to 65535 is read back as
    sent, from a frame of 7 bytes or more, and every read is inside the
    frame. Nothing else changes, in any state in which the two cell indices
    are those the scan of the cells leaves. *)
Theorem cycle_frame_roundtrip (pad rest : byte) (post : list byte)
    (n now : Z) (g : Globals) :
  min_max_settled (bmsData g) -> 0 <= n < 65536 ->
  let frame := cycle_frame pad n ++ post in
  let r := decodeGreenway (frame_ptr (frame_mem frame rest)) (length frame)
             now g in
  state_of r
  = with_bms (fun b => set_cycleCount n (set_lastUpdateTime now b))
      (with_bluetoothDataReceived true g)
  /\ (forall i : nat, In (EvFrameRead i) (trace_of r) -> (i < length frame)%nat).
Proof.
  intros Hg Hn frame r.
  assert (Hlen : length frame = (7 + length post)%nat).
  { subst frame. rewrite length_app. reflexivity. }
  assert (Htag : byte_val (frame_mem frame rest 3%nat) = 0x17) by reflexivity.
  set (data := frame_ptr (frame_mem frame rest)).
  split.
  - subst r.
    rewrite (decode_value_state _ _ _ _
      (set_cycleCount
         (u16 (Z.lor (byte_at data 5) (Z.shiftl (byte_at data 6) 8))))
      Hg); [| lia | | settled_setter].
    + replace (u16 (Z.lor (byte_at data 5) (Z.shiftl (byte_at data 6) 8)))
        with n; [reflexivity |].
      subst data frame. frame_bytes. symmetry. apply le16_decode, Hn.
    + intros g1. rewrite Htag. apply decode_register_17. lia.
  - intros i Hin. subst r.
    apply decodeGreenway_reads_in_bounds in Hin; [exact Hin | |];
      rewrite Htag; intros [E1 E2]; discriminate E1.
Qed.

Lemma cycle_frame_roundtrip_witness :
  min_max_settled (bmsData globals_init) /\ 0 <= 412 < 65536 /\
  cycleCount (bmsData (state_of
    (decodeGreenway (frame_ptr (frame_mem (cycle_frame x00 412 ++ []) xff))
       7 1000 globals_init))) = 412.
Proof.
  assert (Hg : min_max_settled (bmsData globals_init)) by reflexivity.
  assert (Hn : 0 <= 412 < 65536) by lia.
  do 2 (split; [assumption |]).
  pose proof (cycle_frame_roundtrip x00 xff [] 412 1000 globals_init Hg Hn)
    as H.
  cbv zeta in H. destruct H as (Hst & _).
  change (length (cycle_frame x00 412 ++ [])) with 7%nat in Hst.
  rewrite Hst. reflexivity.
Defined.

(** ** What a computation leaves alone *)

Section Keeps.

Context {B : Type}.
Variable f : Globals -> B.

Lemma keeps_ret {A : Type} (a : A) : keeps f (ret a).
Proof. intros g. reflexivity. Qed.

Lemma keeps_gets {A : Type} (h : Globals -> A) : keeps f (gets h).
Proof. intros g. reflexivity. Qed.

Lemma keeps_emit (e : event) : keeps f (emit e).
Proof. intros g. reflexivity. Qed.

Lemma keeps_rd (data : ptr) (k : nat) : keeps f (rd data k).
Proof. intros g. reflexivity. Qed.

Lemma keeps_modify (h : Globals -> Globals) :
  (forall g : Globals, f (h g) = f g) -> keeps f (modify h).
Proof. intros H g. apply H. Qed.

Lemma keeps_bind {A C : Type} (m : M A) (k : A -> M C) :
  keeps f m -> (forall a : A, keeps f (k a)) -> keeps f (bind m k).
Proof.
  intros Hm Hk g. rewrite state_of_bind, Hk. apply Hm.
Qed.

Lemma keeps_when (b : bool) (m : M unit) : keeps f m -> keeps f (when b m).
Proof. intros Hm. destruct b; [exact Hm | apply keeps_ret]. Qed.

End Keeps.

Create HintDb keeps.
#[local] Hint Resolve keeps_ret keeps_gets keeps_emit keeps_rd : keeps.

(** One step through a computation; an assignment to the globals is
    checked by computation. *)
Ltac keeps_step :=
  match goal with
  | |- keeps _ (bind _ _) => apply keeps_bind; [| intros ?]
  | |- keeps _ (if ?c then _ else _) => destruct c
  | |- keeps _ (when _ _) => apply keeps_when
  | |- keeps _ (modify _) => apply keeps_modify; intros ?; reflexivity
  | |- keeps _ _ => solve [auto with keeps]
  end.

Lemma keeps_checkChargeControl_reassembly : keeps reassembly checkChargeControl.
Proof. unfold checkChargeControl. repeat keeps_step. Qed.

#[local] Hint Resolve keeps_checkChargeControl_reassembly : keeps.

Lemma keeps_between_reassembly (c : call) :
  match c with CallDecode _ _ _ => True | _ => keeps reassembly (run_call c) end.
Proof.
  destruct c; cbn [run_call]; try exact I.
  - apply keeps_checkChargeControl_reassembly.
  - unfold publishData, printBMSDataDebug. repeat keeps_step.
  - unfold mqttCb. cbv zeta. repeat keeps_step.
  - unfold handleSetMaster. repeat keeps_step.
  - unfold handleSetMode. repeat keeps_step.
  - unfold handleSetLimit. repeat keeps_step.
  - unfold onDisconnect. repeat keeps_step.
  - unfold toggleDebug. repeat keeps_step.
  - unfold updateLeds. repeat keeps_step.
  - unfold zigbeeStatusCheck. split_line; repeat keeps_step.
  - unfold handleZigbeeJoin. repeat keeps_step.
Qed.

(** ** Value registers and the reassembly of cell blocks *)

Lemma decode_register_value (data : ptr) (len : nat) (regId : Z) (g : Globals) :
  value_register regId len ->
  exists F : BmsData -> BmsData,
    state_of (decode_register data len regId g) = with_bms F g
    /\ forall b : BmsData, cellVolts (F b) = cellVolts b.
Proof.
  intros [[-> H] | [[-> H] | [[-> H] | [-> H]]]].
  - eexists. split; [apply decode_register_09, H | reflexivity].
  - eexists. split; [apply decode_register_0A, H | reflexivity].
  - eexists. split; [apply decode_register_08, H | reflexivity].
  - eexists. split; [apply decode_register_17, H | reflexivity].
Qed.

Lemma decode_register_value_quiet (data : ptr) (len : nat) (regId : Z) :
  value_register regId len ->
  emits_only (cell_write_in 1 0) (decode_register data len regId).
Proof.
  intros [[-> H] | [[-> H] | [[-> H] | [-> H]]]];
    unfold decode_register; eval_tag_tests; guard_holds;
    repeat writes_step.
Qed.

Lemma value_frame_quiet (m : nat -> byte) (len : nat) (now : Z) :
  value_register (byte_val (m 3%nat)) len ->
  emits_only (cell_write_in 1 0) (decodeGreenway (frame_ptr m) len now).
Proof.
  intros Hv. unfold decodeGreenway.
  apply emits_bind; [apply emits_modify | intros _].
  destruct (len <? 6)%nat; [apply emits_ret |].
  apply emits_bind_rd; [exact I |].
  repeat first [apply decode_register_value_quiet; exact Hv | writes_step].
Qed.

Lemma value_frame_reassembly (m : nat -> byte) (len : nat) (now : Z)
    (g : Globals) :
  value_register (byte_val (m 3%nat)) len ->
  reassembly (state_of (decodeGreenway (frame_ptr m) len now g)) = reassembly g.
Proof.
  intros Hv. rewrite decodeGreenway_state.
  assert (Hlen : (6 <= len)%nat) by (unfold value_register in Hv; lia).
  destruct (Nat.ltb_spec len 6) as [Hlt | _]; [lia |].
  cbn [frame_ptr mem off Nat.add].
  destruct (decode_register_value (frame_ptr m) len (byte_val (m 3%nat))
              (with_bms (set_lastUpdateTime now)
                 (with_bluetoothDataReceived true g)) Hv) as (F & -> & HF).
  unfold reassembly. cbn [with_bms bmsData main_packet_shift_byte
    expect_suite_24 expect_suite_25 with_bluetoothDataReceived].
  change (cellVolts (update_min_max (F (set_lastUpdateTime now (bmsData g)))))
    with (cellVolts (F (set_lastUpdateTime now (bmsData g)))).
  rewrite HF. reflexivity.
Qed.

Lemma between_block_reassembly (c : call) (g : Globals) :
  between_block c -> reassembly (state_of (run_call c g)) = reassembly g.
Proof.
  intros Hc. pose proof (keeps_between_reassembly c) as Hk.
  destruct c; try (apply Hk).
  apply value_frame_reassembly. exact Hc.
Qed.

Lemma between_blocks_reassembly (cs : list call) :
  Forall between_block cs ->
  forall g : Globals, reassembly (state_of (run_calls cs g)) = reassembly g.
Proof.
  induction 1 as [| c cs Hc _ IH]; intros g.
  - reflexivity.
  - cbn [run_calls]. rewrite state_of_bind, IH.
    apply between_block_reassembly. exact Hc.
Qed.

Lemma run_calls_app (cs1 cs2 : list call) (g : Globals) :
  state_of (run_calls (cs1 ++ cs2) g)
  = state_of (run_calls cs2 (state_of (run_calls cs1 g))).
Proof.
  revert g. induction cs1 as [| c cs1 IH]; intros g.
  - reflexivity.
  - cbn [app run_calls]. rewrite !state_of_bind. apply IH.
Qed.

Lemma low_followup_tag (pad : byte) (lo : list Z) :
  length lo = 16%nat -> Forall is_mv lo ->
  byte_val (frame_mem (low_followup pad lo) pad 3%nat) = nth 9 lo 0 mod 256.
Proof.
  intros Hlen Hmv. list_of_length lo Hlen. split_Forall.
  cbn [low_followup frame_mem nth skipn flat_map le16_bytes app].
  unfold lo_byte. apply byte_val_of_Z. apply Z.mod_pos_bound. lia.
Qed.

Lemma high_followup_tag (pad : byte) (maxV minV : Z) (hi : list Z) :
  length hi = 12%nat -> Forall is_mv hi ->
  byte_val (frame_mem (high_followup pad maxV minV hi) pad 3%nat)
  = nth 9 hi 0 mod 256.
Proof.
  intros Hlen Hmv. list_of_length hi Hlen. split_Forall.
  cbn [high_followup frame_mem nth skipn flat_map le16_bytes app].
  unfold lo_byte. apply byte_val_of_Z. apply Z.mod_pos_bound. lia.
Qed.

Lemma block_header_tag (tag pad : byte) (mvs : list Z) :
  frame_mem (block_header tag pad mvs) pad 3%nat = tag.
Proof. reflexivity. Qed.

Lemma low_block_interleaved_cells (lo : list Z) (pad : byte) (t1 t2 : Z)
    (cs : list call) (g : Globals) :
  length lo = 16%nat -> Forall is_mv lo ->
  ~ followup_tag_clash (nth 9 lo 0 mod 256) ->
  length (cellVolts (bmsData g)) = CELL_ARRAY_LEN ->
  Forall between_block cs ->
  let gl := state_of (run_calls (low_block_interleaved pad lo t1 t2 cs) g) in
  cellVolts (bmsData gl) = map milli lo ++ drop 16 (cellVolts (bmsData g))
  /\ pendingBlock gl = NONE.
Proof.
  intros Hlen Hmv Hclash Hcells Hcs. cbv zeta.
  pose proof (low_block_roundtrip lo pad t1 t2 g Hlen Hmv Hclash Hcells) as Hrt.
  cbv zeta in Hrt. unfold low_block_calls in Hrt.
  cbn [run_calls run_call] in Hrt. rewrite !state_of_bind in Hrt.
  cbn [ret fst snd state_of] in Hrt.
  unfold low_block_interleaved. cbn [run_calls run_call].
  rewrite state_of_bind, run_calls_app. cbn [run_calls run_call].
  rewrite !state_of_bind. cbn [ret fst snd state_of].
  set (m1 := frame_mem (block_header x24 pad lo) pad) in *.
  set (m2 := frame_mem (low_followup pad lo) pad) in *.
  destruct (decode_header_cells m1 20 t1 g 0x24) as (_ & _ & H24 & H25).
  { subst m1. apply (f_equal byte_val (block_header_tag x24 pad lo)). }
  { left; reflexivity. }
  { lia. }
  set (g1 := state_of (decodeGreenway (frame_ptr m1) 20 t1 g)) in *.
  pose proof (between_blocks_reassembly cs Hcs g1) as Hre.
  set (g2 := state_of (run_calls cs g1)) in *.
  unfold reassembly in Hre. injection Hre as Ec Es E24 E25.
  assert (Hm3 : ~ followup_tag_clash (byte_val (m2 3%nat))).
  { subst m2. rewrite low_followup_tag by assumption. exact Hclash. }
  destruct (decode_low_followup_frame m2 t2 g2) as (Hc2 & Hp);
    [rewrite E25; exact H25 | rewrite E24; exact H24 | exact Hm3 |].
  destruct (decode_low_followup_frame m2 t2 g1) as (Hc1 & _);
    [exact H25 | exact H24 | exact Hm3 |].
  split; [| exact Hp].
  rewrite Hc2, Ec, Es, <- Hc1. apply Hrt.
Qed.

Lemma high_block_interleaved_cells (hi : list Z) (pad : byte)
    (maxV minV t1 t2 : Z) (cs : list call) (g : Globals) :
  length hi = 12%nat -> Forall is_mv hi ->
  ~ followup_tag_clash (nth 9 hi 0 mod 256) ->
  length (cellVolts (bmsData g)) = CELL_ARRAY_LEN ->
  Forall between_block cs ->
  let gh := state_of
              (run_calls (high_block_interleaved pad maxV minV hi t1 t2 cs) g) in
  cellVolts (bmsData gh)
  = take 16 (cellVolts (bmsData g)) ++ map milli hi
    ++ drop 28 (cellVolts (bmsData g))
  /\ pendingBlock gh = NONE.
Proof.
  intros Hlen Hmv Hclash Hcells Hcs. cbv zeta.
  pose proof (high_block_roundtrip hi pad maxV minV t1 t2 g Hlen Hmv Hclash
                Hcells) as Hrt.
  cbv zeta in Hrt. unfold high_block_calls in Hrt.
  cbn [run_calls run_call] in Hrt. rewrite !state_of_bind in Hrt.
  cbn [ret fst snd state_of] in Hrt.
  unfold high_block_interleaved. cbn [run_calls run_call].
  rewrite state_of_bind, run_calls_app. cbn [run_calls run_call].
  rewrite !state_of_bind. cbn [ret fst snd state_of].
  set (m1 := frame_mem (block_header x25 pad hi) pad) in *.
  set (m2 := frame_mem (high_followup pad maxV minV hi) pad) in *.
  destruct (decode_header_cells m1 20 t1 g 0x25) as (_ & _ & H24 & H25).
  { subst m1. apply (f_equal byte_val (block_header_tag x25 pad hi)). }
  { right; reflexivity. }
  { lia. }
  set (g1 := state_of (decodeGreenway (frame_ptr m1) 20 t1 g)) in *.
  pose proof (between_blocks_reassembly cs Hcs g1) as Hre.
  set (g2 := state_of (run_calls cs g1)) in *.
  unfold reassembly in Hre. injection Hre as Ec Es E24 E25.
  assert (Hm3 : ~ followup_tag_clash (byte_val (m2 3%nat))).
  { subst m2. rewrite high_followup_tag by assumption. exact Hclash. }
  destruct (decode_high_followup_frame m2 t2 g2) as (Hc2 & Hp);
    [rewrite E25; exact H25 | rewrite E24; exact H24 | exact Hm3 |].
  destruct (decode_high_followup_frame m2 t2 g1) as (Hc1 & _);
    [exact H25 | exact H24 | exact Hm3 |].
  split; [| exact Hp].
  rewrite Hc2, Ec, Es, <- Hc1. apply Hrt.
Qed.

(** X6. A frame of a value register (total voltage, current, temperatures,
    cycle count) stores no cell and leaves the cells, the shift byte and
    the two flags of the reassembly as they are. So a cell block is
    reassembled as if nothing had come in between, whatever such frames
    and whatever calls other than frames come between its header and its
    follow-up. *)
Theorem block_survives_value_frames (lo hi : list Z) (pad : byte)
    (maxV minV t1 t2 : Z) (cs : list call) (g : Globals) :
  length lo = 16%nat -> Forall is_mv lo ->
  ~ followup_tag_clash (nth 9 lo 0 mod 256) ->
  length hi = 12%nat -> Forall is_mv hi ->
  ~ followup_tag_clash (nth 9 hi 0 mod 256) ->
  length (cellVolts (bmsData g)) = CELL_ARRAY_LEN ->
  Forall between_block cs ->
  let gl := state_of (run_calls (low_block_interleaved pad lo t1 t2 cs) g) in
  let gh := state_of
              (run_calls (high_block_interleaved pad maxV minV hi t1 t2 cs) g) in
  (forall (c : call) (g0 : Globals), In c cs ->
     reassembly (state_of (run_call c g0)) = reassembly g0)
  /\ (forall (m : nat -> byte) (len : nat) (now : Z) (g0 : Globals),
        value_register (byte_val (m 3%nat)) len ->
        forall (i : Z) (v : f32),
        ~ In (EvCellWrite i v)
             (trace_of (decodeGreenway (frame_ptr m) len now g0)))
  /\ cellVolts (bmsData gl) = map milli lo ++ drop 16 (cellVolts (bmsData g))
  /\ pendingBlock gl = NONE
  /\ cellVolts (bmsData gh)
     = take 16 (cellVolts (bmsData g)) ++ map milli hi
       ++ drop 28 (cellVolts (bmsData g))
  /\ pendingBlock gh = NONE.
Proof.
  intros Hlo Hlomv Hloc Hhi Hhimv Hhic Hcells Hcs gl gh.
  split; [| split].
  - intros c g0 Hin. apply between_block_reassembly.
    exact (proj1 (List.Forall_forall _ _) Hcs c Hin).
  - intros m len now g0 Hv i v Hin.
    apply (value_frame_quiet m len now Hv g0) in Hin.
    cbn [cell_write_in] in Hin. lia.
  - destruct (low_block_interleaved_cells lo pad t1 t2 cs g Hlo Hlomv Hloc
                Hcells Hcs) as [H1 H2].
    destruct (high_block_interleaved_cells hi pad maxV minV t1 t2 cs g Hhi
                Hhimv Hhic Hcells Hcs) as [H3 H4].
    repeat split; assumption.
Qed.

Lemma block_survives_value_frames_witness :
  length low_cells = 16%nat /\ Forall is_mv low_cells
  /\ ~ followup_tag_clash (nth 9 low_cells 0 mod 256)
  /\ length high_cells = 12%nat /\ Forall is_mv high_cells
  /\ ~ followup_tag_clash (nth 9 high_cells 0 mod 256)
  /\ length (cellVolts (bmsData globals_init)) = CELL_ARRAY_LEN
  /\ Forall between_block calls_between
  /\ cellVolts (bmsData (state_of
       (run_calls (low_block_interleaved x00 low_cells 1 3 calls_between)
          globals_init)))
     = map milli low_cells ++ drop 16 (cellVolts (bmsData globals_init)).
Proof.
  assert (H1 : length low_cells = 16%nat) by reflexivity.
  assert (H2 : Forall is_mv low_cells)
    by (repeat constructor; unfold is_mv; lia).
  assert (H3 : ~ followup_tag_clash (nth 9 low_cells 0 mod 256)).
  { unfold followup_tag_clash.
    change (nth 9 low_cells 0 mod 256) with 125. lia. }
  assert (H4 : length high_cells = 12%nat) by reflexivity.
  assert (H5 : Forall is_mv high_cells)
    by (repeat constructor; unfold is_mv; lia).
  assert (H6 : ~ followup_tag_clash (nth 9 high_cells 0 mod 256)).
  { unfold followup_tag_clash.
    change (nth 9 high_cells 0 mod 256) with 225. lia. }
  assert (H7 : length (cellVolts (bmsData globals_init)) = CELL_ARRAY_LEN)
    by reflexivity.
  assert (H8 : Forall between_block calls_between).
  { repeat constructor. }
  pose proof (block_survives_value_frames low_cells high_cells x00 3811 3800
                1 3 calls_between globals_init H1 H2 H3 H4 H5 H6 H7 H8) as H.
  cbv zeta in H. destruct H as (_ & _ & Hl & _).
  repeat (split; [assumption |]). exact Hl.
Defined.

(** ** Maximum and minimum voltage of the follow-up frame *)

Lemma decode_followup_high_extremes (data : ptr) (g : Globals) :
  expect_suite_25 g = true ->
  maxVoltage (bmsData (state_of (decode_followup data g)))
  = milli (u16 (Z.lor (byte_at data 13) (Z.shiftl (byte_at data 14) 8)))
  /\ minVoltage (bmsData (state_of (decode_followup data g)))
     = milli (u16 (Z.lor (byte_at data 15) (Z.shiftl (byte_at data 16) 8))).
Proof.
  intros H25. unfold decode_followup.
  rewrite state_of_bind. cbn [gets fst snd state_of]. rewrite H25.
  repeat (rewrite state_of_bind;
          cbn [gets modify rd rd16 ret fst snd state_of]).
  split; reflexivity.
Qed.

(** X7. The follow-up frame of the block [0x25] also carries the highest
    and the lowest cell voltage of the pack, in millivolts at offsets 13
    and 15: after the header and this frame, [maxVoltage] and [minVoltage]
    are [(float)mv / 1000.0] of the two values sent, within 0.001 V of
    them. *)
Theorem high_followup_extremes (hi : list Z) (pad : byte)
    (maxV minV t1 t2 : Z) (g : Globals) :
  length hi = 12%nat -> Forall is_mv hi ->
  ~ followup_tag_clash (nth 9 hi 0 mod 256) ->
  is_mv maxV -> is_mv minV ->
  let gh := state_of (run_calls (high_block_calls pad maxV minV hi t1 t2) g) in
  maxVoltage (bmsData gh) = milli maxV
  /\ minVoltage (bmsData gh) = milli minV
  /\ within_1mV (maxVoltage (bmsData gh)) maxV
  /\ within_1mV (minVoltage (bmsData gh)) minV.
Proof.
  intros Hlen Hmv Hclash Hmax Hmin. cbv zeta.
  unfold high_block_calls. cbn [run_calls run_call].
  rewrite !state_of_bind. cbn [ret fst snd state_of].
  set (m1 := frame_mem (block_header x25 pad hi) pad).
  set (m2 := frame_mem (high_followup pad maxV minV hi) pad).
  destruct (decode_header_cells m1 20 t1 g 0x25) as (_ & _ & _ & H25).
  { subst m1. apply (f_equal byte_val (block_header_tag x25 pad hi)). }
  { right; reflexivity. }
  { lia. }
  set (g1 := state_of (decodeGreenway (frame_ptr m1) 20 t1 g)) in *.
  assert (Hm3 : ~ followup_tag_clash (byte_val (m2 3%nat))).
  { subst m2. rewrite high_followup_tag by assumption. exact Hclash. }
  rewrite decodeGreenway_state.
  cbn [Nat.ltb Nat.leb].
  change (byte_val (mem (frame_ptr m2) (off (frame_ptr m2) + 3)%nat))
    with (byte_val (m2 3%nat)).
  rewrite (decode_register_followup _ _ Hm3).
  destruct (decode_followup_high_extremes (frame_ptr m2)
              (with_bms (set_lastUpdateTime t2)
                 (with_bluetoothDataReceived true g1)) H25) as (Ema & Emi).
  assert (Bma : u16 (Z.lor (byte_at (frame_ptr m2) 13)
                           (Z.shiftl (byte_at (frame_ptr m2) 14) 8)) = maxV).
  { subst m2. list_of_length hi Hlen.
    unfold byte_at.
    cbn [high_followup frame_mem nth skipn flat_map le16_bytes app mem off
         Nat.add lo_byte hi_byte frame_ptr].
    apply le16_decode. exact Hmax. }
  assert (Bmi : u16 (Z.lor (byte_at (frame_ptr m2) 15)
                           (Z.shiftl (byte_at (frame_ptr m2) 16) 8)) = minV).
  { subst m2. list_of_length hi Hlen.
    unfold byte_at.
    cbn [high_followup frame_mem nth skipn flat_map le16_bytes app mem off
         Nat.add lo_byte hi_byte frame_ptr].
    apply le16_decode. exact Hmin. }
  rewrite Bma in Ema. rewrite Bmi in Emi.
  assert (Hma : forall x : Globals,
            maxVoltage (bmsData (with_bms update_min_max x))
            = maxVoltage (bmsData x)) by reflexivity.
  assert (Hmi : forall x : Globals,
            minVoltage (bmsData (with_bms update_min_max x))
            = minVoltage (bmsData x)) by reflexivity.
  rewrite Hma, Hmi.
  repeat split.
  - exact Ema.
  - exact Emi.
  - rewrite Ema. apply milli_within_1mV, Hmax.
  - rewrite Emi. apply milli_within_1mV, Hmin.
Qed.

Lemma high_followup_extremes_witness :
  length high_cells = 12%nat /\ Forall is_mv high_cells
  /\ ~ followup_tag_clash (nth 9 high_cells 0 mod 256)
  /\ is_mv 3811 /\ is_mv 3800
  /\ maxVoltage (bmsData (state_of
       (run_calls (high_block_calls x00 3811 3800 high_cells 1 2)
          globals_init))) = milli 3811.
Proof.
  assert (H4 : length high_cells = 12%nat) by reflexivity.
  assert (H5 : Forall is_mv high_cells)
    by (repeat constructor; unfold is_mv; lia).
  assert (H6 : ~ followup_tag_clash (nth 9 high_cells 0 mod 256)).
  { unfold followup_tag_clash.
    change (nth 9 high_cells 0 mod 256) with 225. lia. }
  assert (H7 : is_mv 3811) by (unfold is_mv; lia).
  assert (H8 : is_mv 3800) by (unfold is_mv; lia).
  pose proof (high_followup_extremes high_cells x00 3811 3800 1 2 globals_init
                H4 H5 H6 H7 H8) as H.
  cbv zeta in H. destruct H as (Hma & _).
  repeat (split; [assumption |]). exact Hma.
Defined.

(** ** Invariants of the globals *)

Section Preserves.

Variable I : Globals -> Prop.

Lemma preserves_ret {A : Type} (a : A) : preserves I (ret a).
Proof. intros g Hg. exact Hg. Qed.

Lemma preserves_gets {A : Type} (h : Globals -> A) : preserves I (gets h).
Proof. intros g Hg. exact Hg. Qed.

Lemma preserves_emit (e : event) : preserves I (emit e).
Proof. intros g Hg. exact Hg. Qed.

Lemma preserves_rd (data : ptr) (k : nat) : preserves I (rd data k).
Proof. intros g Hg. exact Hg. Qed.

Lemma preserves_modify (h : Globals -> Globals) :
  (forall g : Globals, I g -> I (h g)) -> preserves I (modify h).
Proof. intros H g Hg. apply H, Hg. Qed.

Lemma preserves_bind {A C : Type} (m : M A) (k : A -> M C) :
  preserves I m -> (forall a : A, preserves I (k a)) -> preserves I (bind m k).
Proof.
  intros Hm Hk g Hg. rewrite state_of_bind. apply Hk, Hm, Hg.
Qed.

(** The continuation may rely on what [m] returns. *)
Lemma preserves_bind_returns {A C : Type} (P : A -> Prop) (m : M A)
    (k : A -> M C) :
  returns P m -> preserves I m -> (forall a : A, P a -> preserves I (k a)) ->
  preserves I (bind m k).
Proof.
  intros HP Hm Hk g Hg. rewrite state_of_bind. apply Hk; [apply HP | apply Hm, Hg].
Qed.

Lemma preserves_when (b : bool) (m : M unit) :
  preserves I m -> preserves I (when b m).
Proof. intros Hm. destruct b; [exact Hm | apply preserves_ret]. Qed.

End Preserves.

Lemma returns_rd (data : ptr) (k : nat) :
  returns (fun v => 0 <= v < 256) (rd data k).
Proof. intros g. apply byte_val_bound. Qed.

Lemma returns_rd16 (data : ptr) (i j : nat) :
  returns (fun v => 0 <= v < 65536) (rd16 data i j).
Proof. intros g. cbn. unfold u16. apply Z.mod_pos_bound. lia. Qed.

Lemma s8_range (z : Z) : -128 <= s8 z <= 127.
Proof.
  unfold s8, u8. pose proof (Z.mod_pos_bound z 256 ltac:(lia)).
  destruct (Z.ltb_spec (z mod 256) 128); lia.
Qed.

Lemma store_cell_length (i : Z) (v : f32) (cells : list f32) :
  length (store_cell i v cells) = length cells.
Proof.
  unfold store_cell. destruct (_ && _); [apply length_insert | reflexivity].
Qed.

(** The scan leaves each index as it was or sets it to the index of a
    cell it looked at. *)
Lemma scan_step_index (i : Z) (v : f32) (s : scan_state) :
  (sc_minIdx (scan_step i v s) = sc_minIdx s
   \/ sc_minIdx (scan_step i v s) = u8 i)
  /\ (sc_maxIdx (scan_step i v s) = sc_maxIdx s
      \/ sc_maxIdx (scan_step i v s) = u8 i).
Proof.
  unfold scan_step.
  destruct (f64_ltb d0_1 (f64_of_f32 v)); [| auto].
  destruct (f32_ltb v (sc_minV s)); cbn [sc_minV sc_maxV sc_minIdx sc_maxIdx];
    match goal with |- context [if ?c then _ else _] => destruct c end;
    cbn [sc_minV sc_maxV sc_minIdx sc_maxIdx]; auto.
Qed.

Lemma scan_loop_index (n : nat) (cells : list f32) :
  forall (i : Z) (s : scan_state),
  0 <= i -> i + Z.of_nat n <= 28 ->
  (sc_minIdx (scan_loop n i cells s) = sc_minIdx s
   \/ 0 <= sc_minIdx (scan_loop n i cells s) < 28)
  /\ (sc_maxIdx (scan_loop n i cells s) = sc_maxIdx s
      \/ 0 <= sc_maxIdx (scan_loop n i cells s) < 28).
Proof.
  induction n as [| n IH]; intros i s Hi Hn.
  - cbn [scan_loop]. auto.
  - cbn [scan_loop].
    destruct (IH (i + 1) (scan_step i (cell_at cells i) s) ltac:(lia)
                ltac:(lia)) as [Hmin Hmax].
    destruct (scan_step_index i (cell_at cells i) s) as [Smin Smax].
    assert (Hu : u8 i = i) by (unfold u8; apply Z.mod_small; lia).
    rewrite Hu in Smin, Smax.
    split.
    + destruct Hmin as [-> | H]; [| right; exact H].
      destruct Smin as [-> | ->]; [left; reflexivity | right; lia].
    + destruct Hmax as [-> | H]; [| right; exact H].
      destruct Smax as [-> | ->]; [left; reflexivity | right; lia].
Qed.

Ltac range_modify :=
  let g := fresh "g" in
  let H := fresh "H" in
  intros g H; unfold fields_in_range in *;
  cbn [with_bms with_shift_byte with_expect with_bluetoothDataReceived
       bmsData main_packet_shift_byte expect_suite_24 expect_suite_25
       set_totalVoltage set_current set_soc set_soh set_cycleCount
       set_fullCapacity set_temps set_minVoltage set_maxVoltage
       set_cellVolts set_lastUpdateTime
       cellVolts soc soh cycleCount tempT1 tempT2 tempMOS minCellIndex
       maxCellIndex];
  repeat match goal with
         | H0 : _ /\ _ |- _ => destruct H0
         end;
  repeat split;
  try assumption; try lia; try apply s8_range; try reflexivity.

Lemma range_update_min_max :
  preserves fields_in_range (modify (with_bms update_min_max)).
Proof.
  apply preserves_modify. intros g H. unfold fields_in_range in *.
  destruct H as (Hl & Hsoc & Hsoh & Hcyc & H1 & H2 & Hm & Hmin & Hmax & Hsh & He).
  destruct (scan_loop_index 28 (cellVolts (bmsData g)) 0
              (mkScan f10 f32_zero (minCellIndex (bmsData g))
                 (maxCellIndex (bmsData g))) ltac:(lia) ltac:(lia))
    as [Smin Smax].
  cbn [sc_minIdx sc_maxIdx] in Smin, Smax.
  unfold with_bms, update_min_max.
  cbn [bmsData main_packet_shift_byte expect_suite_24 expect_suite_25
       set_maxCellIndex set_minCellIndex
       cellVolts soc soh cycleCount tempT1 tempT2 tempMOS minCellIndex
       maxCellIndex].
  unfold scan_cells.
  repeat split; try assumption; try lia.
Qed.

Lemma range_write_cell (i : Z) (v : f32) :
  preserves fields_in_range (write_cell i v).
Proof.
  intros g H. unfold fields_in_range in *.
  destruct H as (Hl & Hrest). split; [| exact Hrest].
  rewrite write_cell_state. cbn [set_cells with_bms bmsData set_cellVolts cellVolts].
  rewrite store_cell_length. exact Hl.
Qed.

Lemma range_cell_loop (fuel : nat) (data : ptr) (dataMaxIndex : nat)
    (cellEndNum : Z) (sh : bool) :
  forall (i : nat) (cur : Z),
  preserves fields_in_range (cell_loop fuel data i dataMaxIndex cur cellEndNum sh).
Proof.
  induction fuel as [| fuel IH]; intros i cur; cbn [cell_loop].
  - apply preserves_ret.
  - destruct (i <? dataMaxIndex)%nat; [| apply preserves_ret].
    destruct (cellEndNum <? cur); [apply preserves_ret |].
    do 2 (apply preserves_bind; [apply preserves_rd | intros ?]).
    destruct (negb sh && (dataMaxIndex <=? i + 1)%nat); [apply preserves_ret |].
    apply preserves_bind; [apply range_write_cell | intros _]. apply IH.
Qed.

Lemma range_printDetailedCellTable (s e : Z) (data : ptr) (st mx : nat)
    (shl : Z) (sh : bool) :
  preserves fields_in_range (printDetailedCellTable s e data st mx shl sh).
Proof.
  unfold printDetailedCellTable. destruct sh.
  - apply preserves_bind; [apply preserves_rd | intros ?].
    apply preserves_bind; [apply range_write_cell | intros _].
    apply range_cell_loop.
  - apply range_cell_loop.
Qed.

Create HintDb range.
#[local] Hint Resolve preserves_ret preserves_gets preserves_emit preserves_rd
  range_printDetailedCellTable range_write_cell range_update_min_max : range.

Ltac range_step :=
  match goal with
  | |- preserves _ (bind (rd16 _ _ _) _) =>
      eapply preserves_bind_returns;
      [apply returns_rd16 | unfold rd16 | cbv beta; intros ? ?]
  | |- preserves _ (bind (rd _ _) _) =>
      eapply preserves_bind_returns;
      [apply returns_rd | apply preserves_rd | cbv beta; intros ? ?]
  | |- preserves _ (bind _ _) => apply preserves_bind; [| intros ?]
  | |- preserves _ (if ?c then _ else _) => destruct c eqn:?
  | |- preserves _ (when _ _) => apply preserves_when
  | |- preserves _ (modify (with_bms update_min_max)) =>
      apply range_update_min_max
  | |- preserves _ (modify _) => apply preserves_modify; range_modify
  | |- preserves _ _ => solve [auto with range]
  end.

Lemma range_decode_followup (data : ptr) :
  preserves fields_in_range (decode_followup data).
Proof.
  unfold decode_followup. repeat range_step.
  all: try (destruct (expect_suite_24 g); reflexivity).
  all: try (destruct (expect_suite_25 g); reflexivity).
Qed.

Lemma range_get32BitLEValue (data : ptr) (index : nat) :
  preserves fields_in_range (get32BitLEValue data index).
Proof. unfold get32BitLEValue. repeat range_step. Qed.

Lemma range_debug_line (l : serial_line) :
  preserves fields_in_range (debug_line l).
Proof. unfold debug_line. repeat range_step. Qed.

Lemma range_debug_packet (data : ptr) (len : nat) (regId : Z) :
  preserves fields_in_range (debug_packet data len regId).
Proof.
  intros g Hg. rewrite debug_packet_state. exact Hg.
Qed.

#[local] Hint Resolve range_get32BitLEValue range_debug_line
  range_debug_packet range_decode_followup : range.

Lemma range_decode_register (data : ptr) (len : nat) (regId : Z) :
  preserves fields_in_range (decode_register data len regId).
Proof. unfold decode_register. repeat range_step. Qed.

#[local] Hint Resolve range_decode_register : range.

Lemma range_decodeGreenway (data : ptr) (len : nat) (now : Z) :
  preserves fields_in_range (decodeGreenway data len now).
Proof. unfold decodeGreenway. repeat range_step. Qed.

Lemma range_checkChargeControl : preserves fields_in_range checkChargeControl.
Proof.
  intros g Hg. rewrite checkChargeControl_state. exact Hg.
Qed.

#[local] Hint Resolve range_checkChargeControl : range.

Lemma range_run_call (c : call) : preserves fields_in_range (run_call c).
Proof.
  destruct c; cbn [run_call].
  - apply range_decodeGreenway.
  - apply range_checkChargeControl.
  - intros g Hg. rewrite publishData_state. exact Hg.
  - unfold mqttCb. cbv zeta. repeat range_step.
  - unfold handleSetMaster. repeat range_step.
  - unfold handleSetMode. repeat range_step.
  - unfold handleSetLimit. repeat range_step.
  - unfold onDisconnect. repeat range_step.
  - unfold toggleDebug. repeat range_step.
  - unfold updateLeds. repeat range_step.
  - unfold zigbeeStatusCheck. split_line; repeat range_step.
  - unfold handleZigbeeJoin. repeat range_step.
Qed.

Lemma reachable_run_calls (cs : list call) :
  forall g : Globals, reachable g -> reachable (state_of (run_calls cs g)).
Proof.
  induction cs as [| c cs IH]; intros g Hg.
  - exact Hg.
  - cbn [run_calls]. rewrite state_of_bind. apply IH, reach_call, Hg.
Qed.

Lemma fields_in_range_reachable (g : Globals) :
  reachable g -> fields_in_range g.
Proof.
  induction 1 as [lim | g c Hg IH].
  - unfold fields_in_range. cbn. repeat split; lia.
  - apply range_run_call. exact IH.
Qed.

(** X8. The ranges of the fields are an invariant of the firmware: each
    integer field of the snapshot holds a value of its C type (state of
    charge and of health in 0..255, cycle count in 0..65535, temperatures
    in -128..127), the indices of the lowest and the highest cell are
    below 28, the cell array has its 32 entries, the shift byte is a byte,
    and the flags of the two blocks are not both set. This holds when
    [setup] is done, whatever limit was stored, and every call keeps it:
    a frame of any length and content, the charge control, a publication,
    a message on any topic, a web request, a disconnect, the debug
    command, an update of the LEDs and a check of the Zigbee line. So it
    holds in every state the firmware can reach. *)
Theorem reachable_fields_in_range (g : Globals) :
  fields_in_range g ->
  (forall c : call, fields_in_range (state_of (run_call c g)))
  /\ (forall cs : list call, fields_in_range (state_of (run_calls cs g)))
  /\ (forall lim : Z, fields_in_range (boot lim))
  /\ (forall g' : Globals, reachable g' -> fields_in_range g').
Proof.
  intros Hg.
  assert (Hboot : forall lim : Z, fields_in_range (boot lim)).
  { intros lim. unfold fields_in_range. cbn. repeat split; lia. }
  split; [intros c; apply range_run_call; exact Hg |].
  split.
  { intros cs. revert g Hg. induction cs as [| c cs IH]; intros g Hg.
    - exact Hg.
    - cbn [run_calls]. rewrite state_of_bind.
      apply IH, range_run_call, Hg. }
  split; [exact Hboot |].
  intros g' Hr. induction Hr as [lim | g' c Hr IH].
  - apply Hboot.
  - apply range_run_call. exact IH.
Qed.

Lemma reachable_fields_in_range_witness :
  fields_in_range globals_init
  /\ fields_in_range (state_of (run_calls calls_between globals_init)).
Proof.
  assert (H : fields_in_range globals_init).
  { unfold fields_in_range. cbn. repeat split; lia. }
  split; [exact H |].
  exact (proj1 (proj2 (reachable_fields_in_range globals_init H))
           calls_between).
Defined.

(** ** The order of the floats *)

Ltac compare_cases :=
  repeat match goal with
         | H : context [Z.compare ?a ?b] |- _ =>
             destruct (Z.compare_spec a b); try discriminate H
         | |- context [Z.compare ?a ?b] => destruct (Z.compare_spec a b)
         | H : context [Pos.compare_cont Eq ?a ?b] |- _ =>
             change (Pos.compare_cont Eq a b) with (Pos.compare a b) in H;
             destruct (Pos.compare_spec a b); try discriminate H
         | |- context [Pos.compare_cont Eq ?a ?b] =>
             change (Pos.compare_cont Eq a b) with (Pos.compare a b);
             destruct (Pos.compare_spec a b)
         end.

Ltac float_cases :=
  unfold f32_ltb, f64_ltb, SFltb, SFcompare in *;
  repeat match goal with
         | x : spec_float |- _ => destruct x as [[] | [] | | [] ? ?]
         | x : f32 |- _ => destruct x as [[] | [] | | [] ? ?]
         end;
  try discriminate; try reflexivity; try congruence;
  cbn [CompOpp] in *;
  compare_cases; cbn [CompOpp] in *;
  try discriminate; try reflexivity; try congruence; try lia.

Lemma SFltb_irrefl (x : spec_float) : SFltb x x = false.
Proof. float_cases. Qed.

Lemma SFltb_trans (x y z : spec_float) :
  SFltb x y = true -> SFltb y z = true -> SFltb x z = true.
Proof. intros H1 H2. float_cases. Qed.

(** [c <= b] in the sense that [c < b] fails for a number [c]. *)
Lemma SFltb_lt_nlt (a b c : spec_float) :
  SFltb a b = true -> SFltb c b = false -> c <> S754_nan ->
  SFltb a c = true.
Proof. intros H1 H2 H3. float_cases. Qed.

Lemma SFltb_nlt_lt (a b c : spec_float) :
  SFltb a b = true -> SFltb a c = false -> c <> S754_nan ->
  SFltb c b = true.
Proof. intros H1 H2 H3. float_cases. Qed.

(** ** The scan for the lowest and the highest cell *)

Lemma eligible_not_nan (v : f32) : eligible v = true -> v <> S754_nan.
Proof. intros H ->. vm_compute in H. discriminate H. Qed.

Lemma scan_step_min (i : Z) (v : f32) (s : scan_state) :
  (sc_minV (scan_step i v s), sc_minIdx (scan_step i v s))
  = if eligible v && f32_ltb v (sc_minV s) then (v, u8 i)
    else (sc_minV s, sc_minIdx s).
Proof.
  unfold scan_step, eligible.
  destruct (f64_ltb d0_1 (f64_of_f32 v)); [| reflexivity].
  destruct (f32_ltb v (sc_minV s)); cbn [andb sc_minV sc_maxV];
    match goal with |- context [if ?c then _ else _] => destruct c end;
    reflexivity.
Qed.

Lemma scan_step_max (i : Z) (v : f32) (s : scan_state) :
  (sc_maxV (scan_step i v s), sc_maxIdx (scan_step i v s))
  = if eligible v && f32_ltb (sc_maxV s) v then (v, u8 i)
    else (sc_maxV s, sc_maxIdx s).
Proof.
  unfold scan_step, eligible.
  destruct (f64_ltb d0_1 (f64_of_f32 v)); [| reflexivity].
  destruct (f32_ltb v (sc_minV s)); cbn [andb sc_minV sc_maxV];
    match goal with |- context [if ?c then _ else _] => destruct c end;
    reflexivity.
Qed.

Lemma min_scanned_step (cells : list f32) (idx0 i : Z) (s : scan_state) :
  0 <= i < 28 -> min_scanned cells idx0 i s ->
  min_scanned cells idx0 (i + 1) (scan_step i (cell_at cells i) s).
Proof.
  intros Hi (Hall & Hcur). unfold min_scanned.
  pose proof (scan_step_min i (cell_at cells i) s) as Hs.
  assert (Hu : u8 i = i) by (unfold u8; apply Z.mod_small; lia).
  rewrite Hu in Hs. set (v := cell_at cells i) in *.
  destruct (eligible v) eqn:Ev; cbn [andb] in Hs.
  - destruct (f32_ltb v (sc_minV s)) eqn:Hlt; injection Hs as -> ->.
    + (* a new minimum *)
      split.
      * intros j Hj Ej. destruct (Z.eq_dec j i) as [-> | Hne].
        -- apply SFltb_irrefl.
        -- destruct (f32_ltb (cell_at cells j) v) eqn:Hjv; [| reflexivity].
           rewrite <- (Hall j ltac:(lia) Ej).
           symmetry. exact (SFltb_trans _ _ _ Hjv Hlt).
      * right. exists i. repeat split; try lia; try assumption.
        -- destruct Hcur as [[E _] | (k & _ & _ & E & _ & Hk & _)].
           ++ rewrite <- E. exact Hlt.
           ++ rewrite E in Hlt. exact (SFltb_trans _ _ _ Hlt Hk).
        -- intros j Hj Ej.
           apply (SFltb_lt_nlt _ _ _ Hlt (Hall j ltac:(lia) Ej)).
           apply eligible_not_nan, Ej.
    + (* the minimum stands *)
      split.
      * intros j Hj Ej. destruct (Z.eq_dec j i) as [-> | Hne].
        -- exact Hlt.
        -- apply Hall; [lia | exact Ej].
      * destruct Hcur as [H | (k & Hk & H)]; [left; exact H |].
        right. exists k. split; [lia | exact H].
  - injection Hs as -> ->. split.
    + intros j Hj Ej. destruct (Z.eq_dec j i) as [-> | Hne].
      * fold v in Ej. congruence.
      * apply Hall; [lia | exact Ej].
    + destruct Hcur as [H | (k & Hk & H)]; [left; exact H |].
      right. exists k. split; [lia | exact H].
Qed.

Lemma max_scanned_step (cells : list f32) (idx0 i : Z) (s : scan_state) :
  0 <= i < 28 -> max_scanned cells idx0 i s ->
  max_scanned cells idx0 (i + 1) (scan_step i (cell_at cells i) s).
Proof.
  intros Hi (Hall & Hcur). unfold max_scanned.
  pose proof (scan_step_max i (cell_at cells i) s) as Hs.
  assert (Hu : u8 i = i) by (unfold u8; apply Z.mod_small; lia).
  rewrite Hu in Hs. set (v := cell_at cells i) in *.
  destruct (eligible v) eqn:Ev; cbn [andb] in Hs.
  - destruct (f32_ltb (sc_maxV s) v) eqn:Hlt; injection Hs as -> ->.
    + (* a new maximum *)
      split.
      * intros j Hj Ej. destruct (Z.eq_dec j i) as [-> | Hne].
        -- apply SFltb_irrefl.
        -- destruct (f32_ltb v (cell_at cells j)) eqn:Hjv; [| reflexivity].
           rewrite <- (Hall j ltac:(lia) Ej).
           symmetry. exact (SFltb_trans _ _ _ Hlt Hjv).
      * right. exists i. repeat split; try lia; try assumption.
        -- destruct Hcur as [[E _] | (k & _ & _ & E & _ & Hk & _)].
           ++ rewrite <- E. exact Hlt.
           ++ rewrite E in Hlt. exact (SFltb_trans _ _ _ Hk Hlt).
        -- intros j Hj Ej.
           apply (SFltb_nlt_lt _ _ _ Hlt (Hall j ltac:(lia) Ej)).
           apply eligible_not_nan, Ej.
    + (* the maximum stands *)
      split.
      * intros j Hj Ej. destruct (Z.eq_dec j i) as [-> | Hne].
        -- exact Hlt.
        -- apply Hall; [lia | exact Ej].
      * destruct Hcur as [H | (k & Hk & H)]; [left; exact H |].
        right. exists k. split; [lia | exact H].
  - injection Hs as -> ->. split.
    + intros j Hj Ej. destruct (Z.eq_dec j i) as [-> | Hne].
      * fold v in Ej. congruence.
      * apply Hall; [lia | exact Ej].
    + destruct Hcur as [H | (k & Hk & H)]; [left; exact H |].
      right. exists k. split; [lia | exact H].
Qed.

Lemma scan_loop_scanned (cells : list f32) (min0 max0 : Z) (n : nat) :
  forall (i : Z) (s : scan_state),
  0 <= i -> i + Z.of_nat n <= 28 ->
  min_scanned cells min0 i s -> max_scanned cells max0 i s ->
  min_scanned cells min0 (i + Z.of_nat n) (scan_loop n i cells s)
  /\ max_scanned cells max0 (i + Z.of_nat n) (scan_loop n i cells s).
Proof.
  induction n as [| n IH]; intros i s Hi Hn Hmin Hmax.
  - cbn [scan_loop]. rewrite Z.add_0_r. split; assumption.
  - cbn [scan_loop].
    replace (i + Z.of_nat (S n)) with (i + 1 + Z.of_nat n) by lia.
    apply IH; [lia | lia | |].
    + apply min_scanned_step; [lia | exact Hmin].
    + apply max_scanned_step; [lia | exact Hmax].
Qed.

(** A rounding keeps the sign it is given. *)
Lemma binary_round_keeps_sign (prec emax : Z) (s : bool) (m : positive) (e : Z) :
  match binary_round prec emax s m e with
  | S754_zero s' | S754_infinity s' | S754_finite s' _ _ => s' = s
  | S754_nan => True
  end.
Proof.
  unfold binary_round. destruct (shl_align m e _) as [mz ez].
  unfold binary_round_aux.
  destruct (shr_fexp prec emax (Z.pos mz) ez loc_Exact) as [mrs1 e1].
  destruct (shr_fexp prec emax _ e1 loc_Exact) as [mrs2 e2].
  destruct (shr_m mrs2); [reflexivity | | exact I].
  destruct (e2 <=? emax - prec); reflexivity.
Qed.

(** A cell above 0.1 V is above 0 V. *)
Lemma eligible_positive (v : f32) :
  eligible v = true -> f32_ltb f32_zero v = true.
Proof.
  unfold eligible, f64_ltb, f32_ltb.
  assert (Hd : exists (m : positive) (e : Z), d0_1 = S754_finite false m e)
    by (vm_compute; eauto).
  destruct Hd as (m0 & e0 & ->).
  destruct v as [s | s | | s m e].
  - intros H; destruct s; discriminate H.
  - destruct s; [intros H; discriminate H | reflexivity].
  - intros H; discriminate H.
  - destruct s; [| reflexivity].
    cbn [f64_of_f32 signed_mantissa binary_normalize].
    pose proof (binary_round_keeps_sign prec64 emax64 true m e) as Hs.
    destruct (binary_round prec64 emax64 true m e) as [s | s | | s m1 e1];
      try subst s; intros H; discriminate H.
Qed.

Lemma scan_cells_scanned (b : BmsData) :
  min_scanned (cellVolts b) (minCellIndex b) 28 (scan_cells b)
  /\ max_scanned (cellVolts b) (maxCellIndex b) 28 (scan_cells b).
Proof.
  unfold scan_cells.
  apply (scan_loop_scanned (cellVolts b) (minCellIndex b) (maxCellIndex b) 28 0);
    try lia.
  - split; [intros j Hj; lia | left; split; reflexivity].
  - split; [intros j Hj; lia | left; split; reflexivity].
Qed.

(** X9. Whenever the two cell indices are those the scan of the cells
    leaves, as they are at boot and after every function of the sketch
    (each frame ends with the scan and nothing else writes the cells or
    the indices), [minCellIndex] is the index of the first cell holding
    the lowest voltage among the cells above 0.1 V, provided one of them
    is below 10 V, and [maxCellIndex] the index of the first cell holding
    the highest voltage among them, provided there is one. Cells at 0.1 V
    or less are ignored, and a cell at 10 V or more is never taken as the
    lowest. *)
Theorem min_max_cell_found (g : Globals) :
  min_max_settled (bmsData g) ->
  (lowest_cell (cellVolts (bmsData g)) (minCellIndex (bmsData g))
   \/ no_lowest (cellVolts (bmsData g)))
  /\ (highest_cell (cellVolts (bmsData g)) (maxCellIndex (bmsData g))
      \/ forall j : Z, 0 <= j < 28 ->
         eligible (cell_at (cellVolts (bmsData g)) j) = false).
Proof.
  intros Hs.
  unfold min_max_settled in Hs.
  assert (Emin : minCellIndex (bmsData g) = sc_minIdx (scan_cells (bmsData g))).
  { rewrite <- Hs at 1. reflexivity. }
  assert (Emax : maxCellIndex (bmsData g) = sc_maxIdx (scan_cells (bmsData g))).
  { rewrite <- Hs at 1. reflexivity. }
  destruct (scan_cells_scanned (bmsData g)) as [[Hmin Cmin] [Hmax Cmax]].
  set (cells := cellVolts (bmsData g)) in *.
  set (s := scan_cells (bmsData g)) in *.
  split.
  - destruct Cmin as [[E _] | (k & Hk & Ek & Ev & El & Ef & Hfirst)].
    + right. intros j Hj Ej. rewrite <- E. apply Hmin; assumption.
    + left. rewrite Emin, Ek. unfold lowest_cell.
      repeat split; try lia; try assumption.
      intros j Hj Ej. rewrite <- Ev. apply Hmin; assumption.
  - destruct Cmax as [[E _] | (k & Hk & Ek & Ev & El & Ef & Hfirst)].
    + right. intros j Hj.
      destruct (eligible (cell_at cells j)) eqn:Ej; [| reflexivity].
      pose proof (Hmax j Hj Ej) as Hn. rewrite E in Hn.
      rewrite (eligible_positive _ Ej) in Hn. discriminate Hn.
    + left. rewrite Emax, Ek. unfold highest_cell.
      repeat split; try lia; try assumption.
      intros j Hj Ej. rewrite <- Ev. apply Hmax; assumption.
Qed.

Lemma min_max_cell_found_witness :
  let g := state_of (run_calls (low_block_calls x00 low_cells 1 2)
                       globals_init) in
  min_max_settled (bmsData g)
  /\ minCellIndex (bmsData g) = 0 /\ maxCellIndex (bmsData g) = 15
  /\ lowest_cell (cellVolts (bmsData g)) 0
  /\ highest_cell (cellVolts (bmsData g)) 15.
Proof.
  cbv zeta.
  assert (Hg : min_max_settled (bmsData (state_of
            (run_calls (low_block_calls x00 low_cells 1 2) globals_init))))
    by (vm_compute; reflexivity).
  assert (Emin : minCellIndex (bmsData (state_of
            (run_calls (low_block_calls x00 low_cells 1 2) globals_init))) = 0)
    by (vm_compute; reflexivity).
  assert (Emax : maxCellIndex (bmsData (state_of
            (run_calls (low_block_calls x00 low_cells 1 2) globals_init))) = 15)
    by (vm_compute; reflexivity).
  assert (E0 : eligible (cell_at (cellVolts (bmsData (state_of
            (run_calls (low_block_calls x00 low_cells 1 2) globals_init)))) 0)
               = true)
    by (vm_compute; reflexivity).
  assert (E10 : f32_ltb (cell_at (cellVolts (bmsData (state_of
            (run_calls (low_block_calls x00 low_cells 1 2) globals_init)))) 0)
                  f10 = true)
    by (vm_compute; reflexivity).
  revert Hg Emin Emax E0 E10.
  generalize (state_of (run_calls (low_block_calls x00 low_cells 1 2)
                          globals_init)).
  intros g Hg Emin Emax E0 E10.
  split; [exact Hg |]. split; [exact Emin |]. split; [exact Emax |].
  destruct (min_max_cell_found g Hg) as [[Hlo | Hno] [Hhi | Hno']].
  - rewrite Emin in Hlo. rewrite Emax in Hhi. split; [exact Hlo | exact Hhi].
  - specialize (Hno' 0 ltac:(lia)). rewrite E0 in Hno'. discriminate Hno'.
  - specialize (Hno 0 ltac:(lia) E0). rewrite E10 in Hno. discriminate Hno.
  - specialize (Hno 0 ltac:(lia) E0). rewrite E10 in Hno. discriminate Hno.
Defined.

(** ** The state machine of the reassembly *)

(** X10. What a frame does to the pending block, in every state in
    which the flags of the two blocks are not both set (the decoder never
    sets both and nothing else writes them): a header of 20 bytes or more
    starts its own block, whatever was pending, and keeps the last byte of
    the header as shift byte; a frame of 18 bytes that is not taken for a
    register ends it; a frame of a value register and a frame of fewer
    than 6 bytes leave it as it is. *)
Theorem pending_transitions (m : nat -> byte) (len : nat) (now : Z)
    (g : Globals) :
  expect_suite_24 g && expect_suite_25 g = false ->
  let g' := state_of (decodeGreenway (frame_ptr m) len now g) in
  (byte_val (m 3%nat) = 0x24 -> (20 <= len)%nat ->
   pendingBlock g' = LOW_BLOCK
   /\ main_packet_shift_byte g' = byte_val (m 19%nat))
  /\ (byte_val (m 3%nat) = 0x25 -> (20 <= len)%nat ->
      pendingBlock g' = HIGH_BLOCK
      /\ main_packet_shift_byte g' = byte_val (m 19%nat))
  /\ (len = 18%nat -> ~ followup_tag_clash (byte_val (m 3%nat)) ->
      pendingBlock g' = NONE)
  /\ (value_register (byte_val (m 3%nat)) len ->
      pendingBlock g' = pendingBlock g)
  /\ ((len < 6)%nat -> pendingBlock g' = pendingBlock g).
Proof.
  intros Hex g'. repeat split.
  - destruct (decode_header_cells m len now g 0x24 H ltac:(left; reflexivity)
                H0) as (_ & _ & H24 & H25).
    subst g'. unfold pendingBlock. rewrite H25, H24. reflexivity.
  - apply (decode_header_cells m len now g 0x24 H ltac:(left; reflexivity) H0).
  - destruct (decode_header_cells m len now g 0x25 H ltac:(right; reflexivity)
                H0) as (_ & _ & H24 & H25).
    subst g'. unfold pendingBlock. rewrite H25. reflexivity.
  - apply (decode_header_cells m len now g 0x25 H ltac:(right; reflexivity) H0).
  - intros -> Hclash. subst g'.
    destruct (expect_suite_25 g) eqn:E25.
    + rewrite andb_true_r in Hex.
      apply (decode_high_followup_frame m now g E25 Hex Hclash).
    + destruct (expect_suite_24 g) eqn:E24.
      * apply (decode_low_followup_frame m now g E25 E24 Hclash).
      * rewrite decodeGreenway_state. cbn [Nat.ltb Nat.leb].
        change (byte_val (mem (frame_ptr m) (off (frame_ptr m) + 3)%nat))
          with (byte_val (m 3%nat)).
        rewrite (decode_register_followup _ _ Hclash).
        unfold decode_followup, pendingBlock.
        rewrite !state_of_bind. cbn [gets fst snd state_of with_bms
          with_bluetoothDataReceived expect_suite_25 expect_suite_24].
        rewrite E25. rewrite !state_of_bind.
        cbn [gets fst snd state_of with_bms with_bluetoothDataReceived
             expect_suite_25 expect_suite_24].
        rewrite E24. cbn [ret state_of fst snd with_bms
          with_bluetoothDataReceived expect_suite_25 expect_suite_24].
        rewrite E25, E24. reflexivity.
  - intros Hv. subst g'.
    pose proof (value_frame_reassembly m len now g Hv) as Hre.
    unfold reassembly in Hre. injection Hre as _ _ E24 E25.
    unfold pendingBlock. rewrite E24, E25. reflexivity.
  - intros Hlt. subst g'. rewrite decodeGreenway_state.
    destruct (Nat.ltb_spec len 6) as [_ | Hge]; [reflexivity | lia].
Qed.

Lemma pending_transitions_witness :
  expect_suite_24 globals_init && expect_suite_25 globals_init = false /\
  pendingBlock (state_of
    (decodeGreenway (frame_ptr (frame_mem (block_header x25 x00 high_cells) x00))
       20 1 globals_init)) = HIGH_BLOCK.
Proof.
  assert (Hex : expect_suite_24 globals_init && expect_suite_25 globals_init
                = false) by reflexivity.
  split; [exact Hex |].
  pose proof (pending_transitions (frame_mem (block_header x25 x00 high_cells) x00)
                20 1 globals_init Hex) as H.
  cbv zeta in H. destruct H as (_ & H25 & _).
  apply H25; [reflexivity | lia].
Defined.

(** ** The relay follows the decision *)

Lemma desiredState_settled (g : Globals) :
  desiredState (with_relayActive (desiredState g) g) = desiredState g.
Proof.
  unfold desiredState.
  cbn [with_relayActive chargeMasterSwitch chargeTargetPercent bmsData modeMQTT
       mqttForceOff relayActive].
  destruct (chargeMasterSwitch g); cbn [negb]; [| reflexivity].
  destruct (modeMQTT g && mqttForceOff g); [reflexivity |].
  destruct (chargeTargetPercent g =? 100); [reflexivity |].
  destruct (int_add (chargeTargetPercent g) 1 <=? soc (bmsData g));
    [reflexivity |].
  destruct (soc (bmsData g) <=? int_sub (chargeTargetPercent g) 1); reflexivity.
Qed.

Lemma checkChargeControl_same (g : Globals) :
  desiredState g = relayActive g -> checkChargeControl g = (tt, g, []).
Proof.
  intros H. unfold checkChargeControl, bind, gets. rewrite H.
  rewrite Bool.eqb_reflx. reflexivity.
Qed.

Lemma checkChargeControl_change (g : Globals) :
  desiredState g <> relayActive g ->
  checkChargeControl g
  = (tt, with_relayActive (desiredState g) g,
     [EvSerial (SerRelayChange (relayActive g) (desiredState g)
                  (soc (bmsData g)) (chargeTargetPercent g)
                  (chargeMasterSwitch g) (modeMQTT g));
      EvDigitalWrite RELAY_PIN (negb (desiredState g))]).
Proof.
  intros H. unfold checkChargeControl, bind, gets, emit, modify.
  destruct (Bool.eqb (desiredState g) (relayActive g)) eqn:E.
  - apply Bool.eqb_prop in E. contradiction.
  - reflexivity.
Qed.

(** X11. [checkChargeControl] touches the pin and the log only when the
    decision differs from the state of the relay: then it logs the change,
    writes the pin LOW to close the relay or HIGH to open it, and records
    the new state. Otherwise it does nothing, and a second run right after
    the first never does anything. The decision is the one of the four
    steps of the charge controller; the limit is any [int] for which
    [limit + 1] and [limit - 1] do not overflow. *)
Theorem checkChargeControl_settles (g : Globals) :
  INT_MIN < chargeTargetPercent g < INT_MAX ->
  desiredState g
  = decide_spec (chargeMasterSwitch g) (chargeTargetPercent g)
      (soc (bmsData g)) (modeMQTT g) (mqttForceOff g) (relayActive g)
  /\ (desiredState g = relayActive g -> checkChargeControl g = (tt, g, []))
  /\ (desiredState g <> relayActive g ->
      checkChargeControl g
      = (tt, with_relayActive (desiredState g) g,
         [EvSerial (SerRelayChange (relayActive g) (desiredState g)
                      (soc (bmsData g)) (chargeTargetPercent g)
                      (chargeMasterSwitch g) (modeMQTT g));
          EvDigitalWrite RELAY_PIN (negb (desiredState g))]))
  /\ checkChargeControl (state_of (checkChargeControl g))
     = (tt, state_of (checkChargeControl g), []).
Proof.
  intros Hlim.
  split; [exact (desiredState_spec g Hlim) |].
  split; [apply checkChargeControl_same |].
  split; [apply checkChargeControl_change |].
  apply checkChargeControl_same.
  rewrite checkChargeControl_state, desiredState_settled. reflexivity.
Qed.

Lemma checkChargeControl_settles_witness :
  INT_MIN < chargeTargetPercent g_soc86 < INT_MAX /\
  checkChargeControl (state_of (checkChargeControl g_soc86))
  = (tt, state_of (checkChargeControl g_soc86), []).
Proof.
  assert (Hlim : INT_MIN < chargeTargetPercent g_soc86 < INT_MAX).
  { unfold INT_MIN, INT_MAX. simpl. lia. }
  split; [exact Hlim |].
  exact (proj2 (proj2 (proj2 (checkChargeControl_settles g_soc86 Hlim)))).
Defined.

(** ** What the decoder never does *)

Section KeepsDecoder.

Context {B : Type}.
Variable f : Globals -> B.
Hypothesis f_write_cell : forall (i : Z) (v : f32), keeps f (write_cell i v).

Lemma keeps_cell_loop (fuel : nat) (data : ptr) (dataMaxIndex : nat)
    (cellEndNum : Z) (sh : bool) :
  forall (i : nat) (cur : Z),
  keeps f (cell_loop fuel data i dataMaxIndex cur cellEndNum sh).
Proof.
  induction fuel as [| fuel IH]; intros i cur; cbn [cell_loop].
  - apply keeps_ret.
  - repeat first [apply IH | apply f_write_cell | keeps_step].
Qed.

Lemma keeps_table (s e : Z) (data : ptr) (st mx : nat) (shl : Z) (sh : bool) :
  keeps f (printDetailedCellTable s e data st mx shl sh).
Proof.
  unfold printDetailedCellTable.
  repeat first [apply keeps_cell_loop | apply f_write_cell | keeps_step].
Qed.

Lemma keeps_read_all (data : ptr) (n : nat) :
  forall i : nat, keeps f (read_all data i n).
Proof.
  induction n as [| n IH]; intros i; cbn [read_all].
  - apply keeps_ret.
  - repeat first [apply IH | keeps_step].
Qed.

End KeepsDecoder.

Lemma keeps_write_cell_control (i : Z) (v : f32) : keeps control (write_cell i v).
Proof. intros g. reflexivity. Qed.

Lemma keeps_table_control (s e : Z) (data : ptr) (st mx : nat) (shl : Z)
    (sh : bool) :
  keeps control (printDetailedCellTable s e data st mx shl sh).
Proof. apply keeps_table, keeps_write_cell_control. Qed.

Lemma keeps_read_all_control (data : ptr) (n i : nat) :
  keeps control (read_all data i n).
Proof. apply keeps_read_all. Qed.

#[local] Hint Resolve keeps_write_cell_control keeps_table_control
  keeps_read_all_control : keeps.

Lemma keeps_decodeGreenway_control (data : ptr) (len : nat) (now : Z) :
  keeps control (decodeGreenway data len now).
Proof.
  unfold decodeGreenway, decode_register, decode_followup, debug_packet,
    debug_line, get32BitLEValue, rd16.
  repeat keeps_step.
Qed.

Lemma decoder_events_cell_loop (fuel : nat) (data : ptr) (dataMaxIndex : nat)
    (cellEndNum : Z) (sh : bool) :
  forall (i : nat) (cur : Z),
  emits_only decoder_event (cell_loop fuel data i dataMaxIndex cur cellEndNum sh).
Proof.
  induction fuel as [| fuel IH]; intros i cur; cbn [cell_loop].
  - apply emits_ret.
  - repeat first [apply IH | emits_step ltac:(exact I)].
Qed.

Lemma decoder_events_table (s e : Z) (data : ptr) (st mx : nat) (shl : Z)
    (sh : bool) :
  emits_only decoder_event (printDetailedCellTable s e data st mx shl sh).
Proof.
  unfold printDetailedCellTable.
  repeat first [apply decoder_events_cell_loop | emits_step ltac:(exact I)].
Qed.

Lemma decoder_events_read_all (data : ptr) (n : nat) :
  forall i : nat, emits_only decoder_event (read_all data i n).
Proof.
  induction n as [| n IH]; intros i; cbn [read_all].
  - apply emits_ret.
  - repeat first [apply IH | emits_step ltac:(exact I)].
Qed.

Lemma decoder_events_decodeGreenway (data : ptr) (len : nat) (now : Z) :
  emits_only decoder_event (decodeGreenway data len now).
Proof.
  unfold decodeGreenway, decode_register, decode_followup, debug_packet,
    debug_line, get32BitLEValue, rd16.
  repeat first [apply decoder_events_table | apply decoder_events_read_all
               | emits_step ltac:(exact I)].
Qed.

(** X12. Receiving a frame, whatever it holds, never writes a pin, never
    publishes, never writes a preference and never answers a request: the
    decoder only reads the frame, stores cells and, in debug mode, prints.
    It leaves the limit, the master switch, the mode, the override, the
    state of the relay, the Zigbee flags and the debug mode as they are:
    the relay only moves when [checkChargeControl] runs. *)
Theorem decoder_is_passive (data : ptr) (len : nat) (now : Z) (g : Globals) :
  (forall e : event, In e (trace_of (decodeGreenway data len now g)) ->
   decoder_event e)
  /\ control (state_of (decodeGreenway data len now g)) = control g.
Proof.
  split.
  - intros e He. exact (decoder_events_decodeGreenway data len now g e He).
  - apply keeps_decodeGreenway_control.
Qed.

(** ** The pin and the flag *)

Lemma relay_level_app (high : bool) (t1 t2 : list event) :
  relay_level high (t1 ++ t2) = relay_level (relay_level high t1) t2.
Proof.
  revert high. induction t1 as [| e t1 IH]; intros high.
  - reflexivity.
  - destruct e; cbn [app relay_level]; apply IH.
Qed.

Lemma relay_level_quiet (high : bool) (t : list event) :
  (forall e : event, In e t -> no_pin_write e) -> relay_level high t = high.
Proof.
  induction t as [| e t IH]; intros H.
  - reflexivity.
  - assert (He : no_pin_write e) by (apply H; left; reflexivity).
    assert (Ht : forall e' : event, In e' t -> no_pin_write e')
      by (intros e' Hin; apply H; right; exact Hin).
    destruct e; cbn [relay_level]; try (apply IH; exact Ht). destruct He.
Qed.

Lemma tracks_quiet {A : Type} (m : M A) :
  emits_only no_pin_write m -> keeps relayActive m -> tracks m.
Proof.
  intros He Hk g. rewrite Hk. apply relay_level_quiet. apply He.
Qed.

Lemma tracks_ret {A : Type} (a : A) : tracks (ret a).
Proof. intros g. reflexivity. Qed.

Lemma tracks_gets {A : Type} (h : Globals -> A) : tracks (gets h).
Proof. intros g. reflexivity. Qed.

Lemma tracks_modify (h : Globals -> Globals) :
  (forall g : Globals, relayActive (h g) = relayActive g) -> tracks (modify h).
Proof. intros H g. cbn. rewrite H. reflexivity. Qed.

Lemma tracks_emit (e : event) : no_pin_write e -> tracks (emit e).
Proof. intros He g. destruct e; try reflexivity. destruct He. Qed.

Lemma tracks_bind {A C : Type} (m : M A) (k : A -> M C) :
  tracks m -> (forall a : A, tracks (k a)) -> tracks (bind m k).
Proof.
  intros Hm Hk g. rewrite trace_of_bind, state_of_bind, relay_level_app.
  rewrite Hm. apply Hk.
Qed.

Lemma tracks_when (b : bool) (m : M unit) : tracks m -> tracks (when b m).
Proof. intros Hm. destruct b; [exact Hm | apply tracks_ret]. Qed.

Lemma tracks_checkChargeControl : tracks checkChargeControl.
Proof.
  intros g. destruct (Bool.bool_dec (desiredState g) (relayActive g)) as [E | N].
  - rewrite checkChargeControl_same by exact E. reflexivity.
  - rewrite checkChargeControl_change by exact N. reflexivity.
Qed.

Lemma tracks_decodeGreenway (data : ptr) (len : nat) (now : Z) :
  tracks (decodeGreenway data len now).
Proof.
  apply tracks_quiet.
  - apply (emits_weaken decoder_event).
    + intros e He. destruct e; try exact I. destruct He.
    + apply decoder_events_decodeGreenway.
  - intros g.
    pose proof (keeps_decodeGreenway_control data len now g) as H.
    unfold control in H. congruence.
Qed.

Create HintDb tracks.
#[local] Hint Resolve tracks_ret tracks_gets tracks_checkChargeControl
  tracks_decodeGreenway : tracks.

(** A write to another pin than the relay's. *)
Lemma tracks_emit_led (pin : Z) (high : bool) :
  (pin =? RELAY_PIN) = false -> tracks (emit (EvDigitalWrite pin high)).
Proof. intros Hp g. cbn. rewrite Hp. reflexivity. Qed.

Ltac tracks_step :=
  match goal with
  | |- tracks (bind _ _) => apply tracks_bind; [| intros ?]
  | |- tracks (if ?c then _ else _) => destruct c
  | |- tracks (when _ _) => apply tracks_when
  | |- tracks (modify _) => apply tracks_modify; intros ?; reflexivity
  | |- tracks (emit _) => apply tracks_emit; exact I
  | |- tracks _ => solve [auto with tracks]
  end.

Lemma tracks_run_call (c : call) : tracks (run_call c).
Proof.
  destruct c; cbn [run_call].
  - apply tracks_decodeGreenway.
  - apply tracks_checkChargeControl.
  - unfold publishData, printBMSDataDebug. repeat tracks_step.
  - unfold mqttCb. cbv zeta. repeat tracks_step.
  - unfold handleSetMaster. repeat tracks_step.
  - unfold handleSetMode. repeat tracks_step.
  - unfold handleSetLimit. repeat tracks_step.
  - unfold onDisconnect. repeat tracks_step.
  - unfold toggleDebug. repeat tracks_step.
  - unfold updateLeds.
    repeat first [apply tracks_emit_led; reflexivity | tracks_step].
  - unfold zigbeeStatusCheck. split_line; repeat tracks_step.
  - unfold handleZigbeeJoin. repeat tracks_step.
Qed.

Lemma tracks_run_calls (cs : list call) : tracks (run_calls cs).
Proof.
  induction cs as [| c cs IH]; cbn [run_calls].
  - apply tracks_ret.
  - apply tracks_bind; [apply tracks_run_call | intros _; exact IH].
Qed.

(** X13. The pin of the relay always agrees with [relayActive]. [setup]
    leaves the pin HIGH, the relay off; after any sequence of frames,
    commands, web requests, publications and runs of the charge control,
    the last level written to the pin is LOW exactly when [relayActive]
    is set, and HIGH (or never written) exactly when it is not. *)
Theorem relay_pin_tracks_state (cs : list call) (lim : Z) :
  relay_level true (trace_of (run_calls cs (boot lim)))
  = negb (relayActive (state_of (run_calls cs (boot lim)))).
Proof.
  assert (T : tracks (run_calls cs)).
  { induction cs as [| c cs IH]; cbn [run_calls].
    - apply tracks_ret.
    - apply tracks_bind; [apply tracks_run_call | intros _; exact IH]. }
  exact (T (boot lim)).
Qed.

(** ** Web switches *)

(** X14. The two switches of the web page act at once: each request flips
    its flag, runs the charge control on the new flags and answers 200.
    Switching the master off always opens the relay. Neither switch is
    written to the preferences, so after a restart the master switch is on
    and the mode is manual again, whatever they were. The limit is any
    [int] for which [limit + 1] and [limit - 1] do not overflow, so that
    the decision is the one of the four steps of the charge controller. *)
Theorem web_switches (g : Globals) :
  INT_MIN < chargeTargetPercent g < INT_MAX ->
  let rm := handleSetMaster g in
  let rd := handleSetMode g in
  chargeMasterSwitch (state_of rm) = negb (chargeMasterSwitch g)
  /\ relayActive (state_of rm)
     = desiredState (with_chargeMasterSwitch (negb (chargeMasterSwitch g)) g)
  /\ relayActive (state_of rm)
     = decide_spec (negb (chargeMasterSwitch g)) (chargeTargetPercent g)
         (soc (bmsData g)) (modeMQTT g) (mqttForceOff g) (relayActive g)
  /\ (chargeMasterSwitch g = true -> relayActive (state_of rm) = false)
  /\ modeMQTT (state_of rd) = negb (modeMQTT g)
  /\ relayActive (state_of rd)
     = desiredState (with_modeMQTT (negb (modeMQTT g)) g)
  /\ relayActive (state_of rd)
     = decide_spec (chargeMasterSwitch g) (chargeTargetPercent g)
         (soc (bmsData g)) (negb (modeMQTT g)) (mqttForceOff g) (relayActive g)
  /\ (forall e : event, In e (trace_of rm) \/ In e (trace_of rd) ->
      no_pref_write e)
  /\ In (EvHttpSend 200) (trace_of rm) /\ In (EvHttpSend 200) (trace_of rd)
  /\ (forall lim : Z,
        chargeMasterSwitch (boot lim) = true /\ modeMQTT (boot lim) = false).
Proof.
  intros Hlim. cbv zeta.
  assert (Hm : state_of (handleSetMaster g)
               = state_of (checkChargeControl
                   (with_chargeMasterSwitch (negb (chargeMasterSwitch g)) g))).
  { unfold handleSetMaster. rewrite !state_of_bind. reflexivity. }
  assert (Hd : state_of (handleSetMode g)
               = state_of (checkChargeControl
                   (with_modeMQTT (negb (modeMQTT g)) g))).
  { unfold handleSetMode. rewrite !state_of_bind. reflexivity. }
  rewrite Hm, Hd, !checkChargeControl_state.
  split; [reflexivity |]. split; [reflexivity |]. split.
  { exact (desiredState_spec
             (with_chargeMasterSwitch (negb (chargeMasterSwitch g)) g) Hlim). }
  split.
  { intros Hon. cbn [relayActive with_relayActive]. unfold desiredState.
    cbn [chargeMasterSwitch with_chargeMasterSwitch]. rewrite Hon. reflexivity. }
  split; [reflexivity |]. split; [reflexivity |]. split.
  { exact (desiredState_spec (with_modeMQTT (negb (modeMQTT g)) g) Hlim). }
  split.
  { assert (Em : emits_only no_pref_write handleSetMaster).
    { unfold handleSetMaster, checkChargeControl.
      repeat emits_step ltac:(exact I). }
    assert (Ed : emits_only no_pref_write handleSetMode).
    { unfold handleSetMode, checkChargeControl.
      repeat emits_step ltac:(exact I). }
    intros e [He | He]; [exact (Em g e He) | exact (Ed g e He)]. }
  split; [| split].
  - unfold handleSetMaster. rewrite !trace_of_bind.
    apply in_or_app. right. apply in_or_app. right. left. reflexivity.
  - unfold handleSetMode. rewrite !trace_of_bind.
    apply in_or_app. right. apply in_or_app. right. left. reflexivity.
  - intros lim. split; reflexivity.
Qed.

Lemma web_switches_witness :
  INT_MIN < chargeTargetPercent g_soc86 < INT_MAX /\
  chargeMasterSwitch g_soc86 = true /\
  relayActive (state_of (handleSetMaster g_soc86)) = false.
Proof.
  assert (Hlim : INT_MIN < chargeTargetPercent g_soc86 < INT_MAX).
  { unfold INT_MIN, INT_MAX. simpl. lia. }
  assert (Hon : chargeMasterSwitch g_soc86 = true) by reflexivity.
  split; [exact Hlim |]. split; [exact Hon |].
  pose proof (web_switches g_soc86 Hlim) as H. cbv zeta in H.
  destruct H as (_ & _ & _ & H & _). exact (H Hon).
Defined.

(** ** Where the snapshot is published *)

Lemma publishData_trace (c : bool) (g : Globals) :
  lastUpdateTime (bmsData g) <> 0 ->
  trace_of (publishData c g)
  = trace_of (printBMSDataDebug g) ++ publications c g.
Proof.
  intros Ht. unfold publishData.
  rewrite trace_of_bind. cbn [gets trace_of fst snd state_of app].
  destruct (Z.eqb_spec (lastUpdateTime (bmsData g)) 0) as [E | _];
    [contradiction |].
  rewrite trace_of_bind. f_equal.
  rewrite printBMSDataDebug_state.
  rewrite trace_of_bind. cbn [gets trace_of fst snd state_of app].
  unfold publications.
  destruct (useZigbee g) eqn:Euz; destruct (zigbeeConnected g) eqn:Ezc;
    destruct c; reflexivity.
Qed.

Lemma printBMSDataDebug_serial (g : Globals) (e : event) :
  In e (trace_of (printBMSDataDebug g)) -> exists l : serial_line, e = EvSerial l.
Proof.
  unfold printBMSDataDebug, bind, gets.
  destruct (negb (debugMode g) || (lastUpdateTime (bmsData g) =? 0)).
  - intros [].
  - intros [<- | []]. eexists. reflexivity.
Qed.

Lemma publishData_events (c : bool) (g : Globals) (e : event) :
  In e (trace_of (publishData c g)) ->
  (exists l : serial_line, e = EvSerial l) \/ In e (publications c g).
Proof.
  intros He.
  destruct (Z.eq_dec (lastUpdateTime (bmsData g)) 0) as [E | N].
  - unfold publishData, bind, gets in He. rewrite E in He. destruct He.
  - rewrite (publishData_trace c g N) in He.
    apply in_app_or in He. destruct He as [He | He]; [left | right; exact He].
    exact (printBMSDataDebug_serial g e He).
Qed.

Lemma publications_zigbee (c : bool) (g : Globals) (p : payload) :
  In (EvZigbeePrintln p) (publications c g) ->
  useZigbee g = true /\ zigbeeConnected g = true.
Proof.
  unfold publications.
  destruct (useZigbee g), (zigbeeConnected g), c; cbn; intros H;
    repeat (destruct H as [H | H]; try discriminate H); try contradiction;
    split; reflexivity.
Qed.

Lemma publications_mqtt (c : bool) (g : Globals) (topic : string) (p : payload) :
  In (EvMqttPublish topic p) (publications c g) ->
  c = true
  /\ (useZigbee g && zigbeeConnected g = true ->
      topic = topic_status /\ p = JsonText "zb UP, data UART").
Proof.
  unfold publications.
  destruct (useZigbee g), (zigbeeConnected g), c; cbn; intros H;
    repeat (destruct H as [H | H]; try discriminate H); try contradiction;
    split; try reflexivity; try (intros E; discriminate E).
  intros _. injection H as <- <-. split; reflexivity.
Qed.

(** X15. [publishData] sends the snapshot on one transport only, and
    changes nothing. With Zigbee in use and connected, the two documents go
    to the Zigbee serial line and MQTT gets at most a fixed notice; in
    every other case nothing goes to Zigbee and, when the broker is
    connected, MQTT gets the status and the cells. With neither link the
    snapshot is dropped. The cells document always lists 28 cells. *)
Theorem publishData_routing (c : bool) (g : Globals) :
  let t := trace_of (publishData c g) in
  state_of (publishData c g) = g
  /\ (sent_on_zigbee t ->
      useZigbee g = true /\ zigbeeConnected g = true
      /\ forall topic p, In (EvMqttPublish topic p) t ->
         topic = topic_status /\ p = JsonText "zb UP, data UART")
  /\ (forall topic p, In (EvMqttPublish topic p) t -> c = true)
  /\ (lastUpdateTime (bmsData g) <> 0 ->
      useZigbee g && zigbeeConnected g = true ->
      In (EvZigbeePrintln (jsonStatus g)) t
      /\ In (EvZigbeePrintln (jsonCells g)) t)
  /\ (lastUpdateTime (bmsData g) <> 0 ->
      useZigbee g && zigbeeConnected g = false -> c = true ->
      In (EvMqttPublish topic_status (jsonStatus g)) t
      /\ In (EvMqttPublish topic_cells (jsonCells g)) t)
  /\ (useZigbee g && zigbeeConnected g = false -> c = false ->
      forall e : event, In e t -> ~ publishes e)
  /\ (exists cells : list f32,
        jsonCells g = JsonCells cells /\ length cells = 28%nat).
Proof.
  cbv zeta. split; [apply publishData_state |].
  split; [| split; [| split; [| split; [| split]]]].
  - intros (p & Hp).
    apply publishData_events in Hp.
    destruct Hp as [[l Hl] | Hp]; [discriminate Hl |].
    destruct (publications_zigbee c g p Hp) as [Euz Ezc].
    split; [exact Euz |]. split; [exact Ezc |].
    intros topic q Hq. apply publishData_events in Hq.
    destruct Hq as [[l Hl] | Hq]; [discriminate Hl |].
    apply (publications_mqtt c g topic q Hq). rewrite Euz, Ezc. reflexivity.
  - intros topic p Hp. apply publishData_events in Hp.
    destruct Hp as [[l Hl] | Hp]; [discriminate Hl |].
    apply (publications_mqtt c g topic p Hp).
  - intros N Hz. rewrite (publishData_trace c g N). unfold publications.
    rewrite Hz. split; apply in_or_app; right.
    + left. reflexivity.
    + right. left. reflexivity.
  - intros N Hz ->. rewrite (publishData_trace true g N). unfold publications.
    rewrite Hz. split; apply in_or_app; right; apply in_or_app; right.
    + left. reflexivity.
    + right. left. reflexivity.
  - intros Hz -> e He Hpub. apply publishData_events in He.
    destruct He as [[l ->] | He]; [exact Hpub |].
    unfold publications in He. rewrite Hz in He. destruct He.
  - eexists. split; [reflexivity |]. rewrite length_map. reflexivity.
Qed.

(** ** Publication after a disconnect *)

Lemma quiet_checkChargeControl :
  emits_only (fun e => ~ publishes e) checkChargeControl.
Proof.
  unfold checkChargeControl. repeat emits_step ltac:(intros []).
Qed.

#[local] Hint Resolve quiet_checkChargeControl : emits.

Lemma no_frame_stamp (c : call) (g : Globals) :
  no_frame c -> lastUpdateTime (bmsData g) = 0 ->
  lastUpdateTime (bmsData (state_of (run_call c g))) = 0.
Proof.
  intros Hc Ht. pose proof (run_call_bmsData c g) as Hb.
  destruct c; try destruct Hc; rewrite Hb; try exact Ht. reflexivity.
Qed.

(** While the snapshot is invalid, no call but a frame and the join
    request sends anything. *)
Lemma quiet_call (c : call) (g : Globals) :
  no_frame c -> c <> CallZigbeeJoin -> lastUpdateTime (bmsData g) = 0 ->
  forall e : event, In e (trace_of (run_call c g)) -> ~ publishes e.
Proof.
  intros Hc Hj Ht.
  destruct c as [m0 len0 now0 | | c0 | tp pl | | | val | |
                 | ap wifi conn srv mq now0 last0
                 | line0 t_beat t_check last0 |];
    cbn [run_call]; try destruct Hc.
  - apply quiet_checkChargeControl.
  - intros e He. unfold publishData, bind, gets in He. rewrite Ht in He.
    destruct He.
  - assert (E : emits_only (fun e => ~ publishes e) (mqttCb tp pl)).
    { unfold mqttCb. cbv zeta. repeat emits_step ltac:(intros []). }
    exact (E g).
  - assert (E : emits_only (fun e => ~ publishes e) handleSetMaster).
    { unfold handleSetMaster. repeat emits_step ltac:(intros []). }
    exact (E g).
  - assert (E : emits_only (fun e => ~ publishes e) handleSetMode).
    { unfold handleSetMode. repeat emits_step ltac:(intros []). }
    exact (E g).
  - assert (E : emits_only (fun e => ~ publishes e) (handleSetLimit val)).
    { unfold handleSetLimit. repeat emits_step ltac:(intros []). }
    exact (E g).
  - intros e [].
  - intros e [].
  - assert (E : emits_only (fun e => ~ publishes e)
                  (let* _ := updateLeds ap wifi conn srv mq now0 last0 in
                   ret tt)).
    { unfold updateLeds. repeat emits_step ltac:(intros []). }
    exact (E g).
  - assert (E : emits_only (fun e => ~ publishes e)
                  (let* _ := zigbeeStatusCheck line0 t_beat t_check last0 in
                   ret tt)).
    { unfold zigbeeStatusCheck.
      destruct line0; repeat emits_step ltac:(intros []). }
    exact (E g).
  - contradiction Hj. reflexivity.
Qed.

Lemma no_frame_quiet (c : call) (g : Globals) :
  no_frame c -> lastUpdateTime (bmsData g) = 0 ->
  forall e : event, In e (trace_of (run_call c g)) -> join_only e.
Proof.
  intros Hc Ht e He Hp.
  assert (Hq : c <> CallZigbeeJoin ->
               forall e : event, In e (trace_of (run_call c g)) -> ~ publishes e)
    by (intros Hj; exact (quiet_call c g Hc Hj Ht)).
  destruct c; try (exfalso; apply (Hq ltac:(discriminate) e He); exact Hp).
  cbn in He. destruct He as [<- | [<- | []]]; [reflexivity | destruct Hp].
Qed.

Lemma no_frames_quiet (cs : list call) :
  Forall no_frame cs ->
  forall g : Globals, lastUpdateTime (bmsData g) = 0 ->
  (forall e : event, In e (trace_of (run_calls cs g)) -> join_only e)
  /\ (~ In CallZigbeeJoin cs ->
      forall e : event, In e (trace_of (run_calls cs g)) -> ~ publishes e)
  /\ lastUpdateTime (bmsData (state_of (run_calls cs g))) = 0.
Proof.
  induction 1 as [| c cs Hc _ IH]; intros g Ht.
  - split; [intros e [] |]. split; [intros _ e [] | exact Ht].
  - pose proof (no_frame_stamp c g Hc Ht) as Ht'.
    destruct (IH _ Ht') as (Hq' & Hs' & Ht'').
    cbn [run_calls]. rewrite trace_of_bind, state_of_bind.
    split; [| split; [| exact Ht'']].
    + intros e He. apply in_app_or in He. destruct He as [He | He].
      * exact (no_frame_quiet c g Hc Ht e He).
      * exact (Hq' e He).
    + intros Hj e He. apply in_app_or in He. destruct He as [He | He].
      * refine (quiet_call c g Hc _ Ht e He).
        intros ->. apply Hj. left. reflexivity.
      * refine (Hs' _ e He). intros H. apply Hj. right. exact H.
Qed.

Lemma keeps_write_cell_stamp (i : Z) (v : f32) :
  keeps (fun g => lastUpdateTime (bmsData g)) (write_cell i v).
Proof. intros g. reflexivity. Qed.

Lemma keeps_decode_register_stamp (data : ptr) (len : nat) (regId : Z) :
  keeps (fun g => lastUpdateTime (bmsData g)) (decode_register data len regId).
Proof.
  unfold decode_register, decode_followup, debug_line, get32BitLEValue, rd16.
  repeat first [apply (keeps_table _ keeps_write_cell_stamp) | keeps_step].
Qed.

Lemma decodeGreenway_stamp (data : ptr) (len : nat) (now : Z) (g : Globals) :
  (6 <= len)%nat ->
  lastUpdateTime (bmsData (state_of (decodeGreenway data len now g))) = now.
Proof.
  intros Hlen. rewrite decodeGreenway_state.
  destruct (Nat.ltb_spec len 6) as [Hlt | _]; [lia |].
  change (lastUpdateTime (bmsData (with_bms update_min_max ?x)))
    with (lastUpdateTime (bmsData x)).
  exact (keeps_decode_register_stamp data len _ _).
Qed.

(** X16. Losing the BLE link silences the publication: from the
    disconnect on, whatever commands, web requests, LED updates, Zigbee
    checks, runs of the charge control and calls of [publishData] follow,
    nothing is published on MQTT and no document of the snapshot goes out
    on the Zigbee line as long as no frame arrives; the one thing that can
    still go out there is the join command of [handleZigbeeJoin]. The
    first frame of 6 bytes or more received at a time other than 0 ends
    the silence, whatever it holds: the next [publishData] sends the
    snapshot. *)
Theorem disconnect_silences_publication (cs : list call) (g : Globals)
    (m : nat -> byte) (len : nat) (now : Z) :
  Forall no_frame cs -> (6 <= len)%nat -> now <> 0 ->
  let t := trace_of (run_calls (CallDisconnect :: cs) g) in
  let g0 := state_of (run_calls (CallDisconnect :: cs) g) in
  let g1 := state_of (decodeGreenway (frame_ptr m) len now g0) in
  (forall (topic : string) (p : payload), ~ In (EvMqttPublish topic p) t)
  /\ (forall p : payload,
        In (EvZigbeePrintln p) t -> p = JsonText "cmd JOIN")
  /\ (~ In CallZigbeeJoin cs -> forall e : event, In e t -> ~ publishes e)
  /\ trace_of (publishData true g0) = []
  /\ (useZigbee g1 && zigbeeConnected g1 = false ->
      In (EvMqttPublish topic_status (jsonStatus g1))
         (trace_of (publishData true g1))
      /\ In (EvMqttPublish topic_cells (jsonCells g1))
            (trace_of (publishData true g1))).
Proof.
  intros Hcs Hlen Hnow. cbv zeta.
  cbn [run_calls run_call]. rewrite trace_of_bind, state_of_bind.
  cbn [onDisconnect modify trace_of state_of fst snd app].
  destruct (no_frames_quiet cs Hcs (with_bms (set_lastUpdateTime 0) g)
              eq_refl) as (Hq & Hs & Ht).
  set (g0 := state_of (run_calls cs (with_bms (set_lastUpdateTime 0) g))) in *.
  split.
  { intros topic p Hin. pose proof (Hq _ Hin I) as E. discriminate E. }
  split.
  { intros p Hin. pose proof (Hq _ Hin I) as E. injection E as ->.
    reflexivity. }
  split; [exact Hs |].
  split.
  - unfold publishData, bind, gets. rewrite Ht. reflexivity.
  - intros Hz.
    set (g1 := state_of (decodeGreenway (frame_ptr m) len now g0)) in *.
    assert (Hstamp : lastUpdateTime (bmsData g1) <> 0).
    { subst g1. rewrite decodeGreenway_stamp by exact Hlen. exact Hnow. }
    rewrite (publishData_trace true g1 Hstamp). unfold publications.
    rewrite Hz.
    split; apply in_or_app; right; apply in_or_app; right.
    + left. reflexivity.
    + right. left. reflexivity.
Qed.

Lemma disconnect_silences_publication_witness :
  Forall no_frame [CallCheck; CallPublish true; CallZigbeeJoin; CallSetMaster]
  /\ (6 <= 6)%nat /\ 1000 <> 0 /\
  trace_of (publishData true
    (state_of (run_calls [CallDisconnect; CallCheck; CallPublish true;
                          CallZigbeeJoin; CallSetMaster] g_soc86))) = [].
Proof.
  assert (H1 : Forall no_frame
                 [CallCheck; CallPublish true; CallZigbeeJoin; CallSetMaster])
    by (repeat constructor).
  assert (H2 : (6 <= 6)%nat) by lia.
  assert (H3 : 1000 <> 0) by lia.
  do 3 (split; [assumption |]).
  pose proof (disconnect_silences_publication
                [CallCheck; CallPublish true; CallZigbeeJoin; CallSetMaster]
                g_soc86 (frame_mem unknown_frame_6 xff) 6 1000 H1 H2 H3) as H.
  cbv zeta in H. destruct H as (_ & _ & _ & H & _). exact H.
Defined.

(** ** The scope of the remote commands *)

(** X17. A message is a command only on the two command topics: on any
    other topic it changes nothing and emits nothing. A command never
    touches the snapshot, the master switch, the mode nor the reassembly;
    a limit command leaves the override alone and a power command the
    limit; and a limit within 50..100 stays so. A limit set over MQTT is
    not written to the preferences, so it is lost at the next restart,
    whereas the web handler persists the limit it applies. *)
Theorem mqttCb_scope (topic : string) (payload : list byte) (g : Globals) :
  let r := mqttCb topic payload g in
  (topic <> topic_set_limit -> topic <> topic_set_power -> r = (tt, g, []))
  /\ bmsData (state_of r) = bmsData g
  /\ reassembly (state_of r) = reassembly g
  /\ chargeMasterSwitch (state_of r) = chargeMasterSwitch g
  /\ modeMQTT (state_of r) = modeMQTT g
  /\ (topic = topic_set_limit -> mqttForceOff (state_of r) = mqttForceOff g)
  /\ (topic = topic_set_power ->
      chargeTargetPercent (state_of r) = chargeTargetPercent g)
  /\ (limit_in_range g -> limit_in_range (state_of r))
  /\ (forall e : event, In e (trace_of r) -> no_pref_write e)
  /\ (forall val : string,
        In (EvPrefPutInt "lim" (toInt val)) (trace_of (handleSetLimit val g))
        /\ chargeTargetPercent (state_of (handleSetLimit val g)) = toInt val).
Proof.
  cbv zeta.
  split; [| split; [| split; [| split; [| split; [| split; [| split;
    [| split; [| split]]]]]]]].
  - intros Hl Hp. unfold mqttCb.
    apply String.eqb_neq in Hl. apply String.eqb_neq in Hp.
    rewrite Hl, Hp. reflexivity.
  - apply mqttCb_bmsData.
  - assert (K : keeps reassembly (mqttCb topic payload)).
    { unfold mqttCb. cbv zeta. repeat keeps_step. }
    apply K.
  - assert (K : keeps chargeMasterSwitch (mqttCb topic payload)).
    { unfold mqttCb, checkChargeControl. cbv zeta. repeat keeps_step. }
    apply K.
  - assert (K : keeps modeMQTT (mqttCb topic payload)).
    { unfold mqttCb, checkChargeControl. cbv zeta. repeat keeps_step. }
    apply K.
  - intros ->. unfold mqttCb. rewrite String.eqb_refl, topic_set_limit_not_power.
    assert (K : forall m : M unit,
              keeps mqttForceOff m -> keeps mqttForceOff (bind m (fun _ => ret tt))).
    { intros m Hm. apply keeps_bind; [exact Hm | intros _; apply keeps_ret]. }
    apply K. unfold checkChargeControl. cbv zeta. repeat keeps_step.
  - intros ->. unfold mqttCb.
    assert (E : String.eqb topic_set_power topic_set_limit = false)
      by reflexivity.
    rewrite E, String.eqb_refl.
    assert (K : keeps chargeTargetPercent
                  (bind (ret tt)
                     (fun _ =>
                        bind (if equals (string_of_list_byte payload) "OFF"
                              then modify (with_mqttForceOff true)
                              else modify (with_mqttForceOff false))
                          (fun _ => checkChargeControl)))).
    { unfold checkChargeControl. repeat keeps_step. }
    apply K.
  - apply mqttCb_limit_in_range.
  - assert (E : emits_only no_pref_write (mqttCb topic payload)).
    { unfold mqttCb, checkChargeControl. cbv zeta.
      repeat emits_step ltac:(exact I). }
    exact (E g).
  - intros val. split; [| apply handleSetLimit_limit].
    unfold handleSetLimit. rewrite !trace_of_bind.
    cbn [modify gets emit trace_of state_of fst snd app with_chargeTargetPercent
         chargeTargetPercent].
    left. reflexivity.
Qed.

(** ** Reads of the frame *)

(** X18. Apart from a temperature frame of exactly 9 bytes and a current
    frame of exactly 18 bytes, every byte the decoder reads lies inside
    the frame, also when the debug mode dumps it; a frame of fewer than 6
    bytes is not read at all. *)
Theorem frame_reads_in_bounds (m : nat -> byte) (len : nat) (now : Z)
    (g : Globals) :
  (byte_val (m 3%nat) = 0x08 -> len <> 9%nat) ->
  (byte_val (m 3%nat) = 0x0A -> len <> 18%nat) ->
  let t := trace_of (decodeGreenway (frame_ptr m) len now g) in
  (forall i : nat, In (EvFrameRead i) t -> (i < len)%nat)
  /\ ((len < 6)%nat -> t = []).
Proof.
  intros H8 HA. cbv zeta. split.
  - intros i Hin.
    apply (decodeGreenway_reads_in_bounds m len now g i); [| | exact Hin].
    + intros [E1 E2]. exact (H8 E1 E2).
    + intros [E1 E2]. exact (HA E1 E2).
  - intros Hlt. unfold decodeGreenway. rewrite trace_of_bind.
    cbn [modify trace_of state_of fst snd app].
    destruct (Nat.ltb_spec len 6) as [_ | Hge]; [reflexivity | lia].
Qed.

Lemma frame_reads_in_bounds_witness :
  (byte_val (frame_mem temp_frame_9 xff 3%nat) = 0x08 -> 10%nat <> 9%nat) /\
  (byte_val (frame_mem temp_frame_9 xff 3%nat) = 0x0A -> 10%nat <> 18%nat) /\
  forall i : nat,
    In (EvFrameRead i)
       (trace_of (decodeGreenway (frame_ptr (frame_mem temp_frame_9 xff)) 10
                    1000 globals_init)) ->
    (i < 10)%nat.
Proof.
  assert (H1 : byte_val (frame_mem temp_frame_9 xff 3%nat) = 0x08 ->
               10%nat <> 9%nat) by (intros _; lia).
  assert (H2 : byte_val (frame_mem temp_frame_9 xff 3%nat) = 0x0A ->
               10%nat <> 18%nat) by (intros _; lia).
  split; [exact H1 |]. split; [exact H2 |].
  exact (proj1 (frame_reads_in_bounds (frame_mem temp_frame_9 xff) 10 1000
                  globals_init H1 H2)).
Defined.

(** ** The request cycle of the BLE task *)

Lemma request_command_at (i k : Z) (reg : Z) :
  0 <= i -> i mod 6 = k ->
  registersToRequest !! Z.to_nat k = Some reg ->
  request_command i = Some [0x46; 0x16; 0x01; reg; 0x20; u8 (0x7D + reg)].
Proof.
  intros Hi Hk Hreg. unfold request_command, int_rem.
  rewrite Z.rem_mod_nonneg by lia. rewrite Hk.
  assert (Hk6 : 0 <= k < 6) by (subst k; apply Z.mod_pos_bound; lia).
  destruct (Z.ltb_spec k 0) as [Hneg | _]; [lia |].
  rewrite Hreg. cbv zeta. unfold checksum. cbn [fold_left app].
  assert (E : u8 (u8 (u8 (u8 (u8 (0 + 70) + 22) + 1) + reg) + 32)
              = u8 (125 + reg)).
  { unfold u8. Z.to_euclidean_division_equations. lia. }
  rewrite E. reflexivity.
Qed.

Lemma register_at (k : Z) :
  0 <= k < 6 ->
  exists reg : Z,
    registersToRequest !! Z.to_nat k = Some reg /\ recognized_tag reg
    /\ 0 <= reg < 256.
Proof.
  intros Hk. unfold recognized_tag.
  assert (Hc : k = 0 \/ k = 1 \/ k = 2 \/ k = 3 \/ k = 4 \/ k = 5) by lia.
  destruct Hc as [-> | [-> | [-> | [-> | [-> | ->]]]]];
    eexists; (split; [reflexivity |]); split; try lia; tauto.
Qed.

Lemma register_position (tag : Z) :
  recognized_tag tag ->
  exists p : Z, 0 <= p < 6 /\ registersToRequest !! Z.to_nat p = Some tag.
Proof.
  unfold recognized_tag.
  intros [-> | [-> | [-> | [-> | [-> | ->]]]]].
  - exists 0. split; [lia | reflexivity].
  - exists 1. split; [lia | reflexivity].
  - exists 2. split; [lia | reflexivity].
  - exists 5. split; [lia | reflexivity].
  - exists 4. split; [lia | reflexivity].
  - exists 3. split; [lia | reflexivity].
Qed.

(** X19. The command the task writes is always six bytes: the header
    [46 16 01], a register, [20], and the sum of these five bytes modulo
    256. The register is taken from the six of [registersToRequest] in
    rotation, so that every six requests in a row ask for each register
    once, and each of them is a register the decoder knows. *)
Theorem request_rotation (i : Z) :
  0 <= i ->
  (exists reg : Z,
     registersToRequest !! Z.to_nat (i mod 6) = Some reg
     /\ recognized_tag reg
     /\ request_command i = Some [0x46; 0x16; 0x01; reg; 0x20; u8 (0x7D + reg)])
  /\ request_command (i + 6) = request_command i
  /\ (forall tag : Z, recognized_tag tag ->
      exists k : Z, 0 <= k < 6 /\
        request_command (i + k)
        = Some [0x46; 0x16; 0x01; tag; 0x20; u8 (0x7D + tag)])
  /\ (forall cmd : list Z, request_command i = Some cmd ->
      length cmd = 6%nat
      /\ Forall (fun b => 0 <= b < 256) cmd
      /\ nth 5 cmd 0
         = (nth 0 cmd 0 + nth 1 cmd 0 + nth 2 cmd 0 + nth 3 cmd 0
            + nth 4 cmd 0) mod 256).
Proof.
  intros Hi.
  pose proof (Z.mod_pos_bound i 6 ltac:(lia)) as Hk.
  destruct (register_at (i mod 6) Hk) as (reg & Hreg & Htag & Hbyte).
  pose proof (request_command_at i (i mod 6) reg Hi eq_refl Hreg) as Hcmd.
  split; [| split; [| split]].
  - exists reg. repeat split; assumption.
  - rewrite Hcmd. apply request_command_at with (k := i mod 6); [lia | | exact Hreg].
    rewrite <- (Z.mul_1_l 6) at 1. apply Z.mod_add. lia.
  - intros tag Ht. destruct (register_position tag Ht) as (p & Hp & Hlook).
    exists ((p - i mod 6) mod 6). split; [apply Z.mod_pos_bound; lia |].
    apply request_command_at with (k := p).
    + pose proof (Z.mod_pos_bound (p - i mod 6) 6 ltac:(lia)). lia.
    + rewrite Zplus_mod_idemp_r.
      replace (i + (p - i mod 6)) with (p + (i - i mod 6)) by lia.
      rewrite (Z.div_mod i 6) at 1 by lia.
      replace (p + (6 * (i / 6) + i mod 6 - i mod 6)) with (p + (i / 6) * 6)
        by lia.
      rewrite Z.mod_add by lia. apply Z.mod_small. exact Hp.
    + exact Hlook.
  - intros cmd Hc. rewrite Hcmd in Hc. injection Hc as <-.
    split; [reflexivity |]. split.
    + repeat constructor; try lia; try exact Hbyte;
        unfold u8; apply Z.mod_pos_bound; lia.
    + cbn [nth]. unfold u8. f_equal. lia.
Qed.

Lemma request_rotation_witness :
  0 <= 10 /\
  request_command 10 = Some [0x46; 0x16; 0x01; 0x25; 0x20; 0xA2].
Proof.
  assert (H : 0 <= 10) by lia.
  split; [exact H |].
  destruct (request_rotation 10 H) as ((reg & Hreg & _ & Hcmd) & _).
  injection Hreg as <-. exact Hcmd.
Defined.

(** ** One pass of the task while connected *)

(** The time elapsed between two readings of [millis()], taken modulo
    2^32 as the unsigned subtraction does, is the true one also across
    the rollover of the counter. *)
Lemma u32_elapsed (last d : Z) :
  0 <= last < 4294967296 -> 0 <= d < 4294967296 ->
  u32 (u32 (last + d) - last) = d.
Proof.
  intros Hl Hd. unfold u32. Z.to_euclidean_division_equations. lia.
Qed.

Lemma active_connection_lost (env : BleEnv) (t : BleTask) (g : Globals) :
  linkUp env = false ->
  active_connection env t g
  = ((mkBleTask false false (requestIndex t) (lastRequestTime t)
        (lastPublish t) (t_lost env),
      [TkSerial "BLE physical link lost (inside active loop). Forcing reconnect."]),
     with_bms (set_lastUpdateTime 0) g, []).
Proof. intros H. unfold active_connection. rewrite H. reflexivity. Qed.

Lemma active_connection_state (env : BleEnv) (t : BleTask) (g : Globals) :
  linkUp env = true ->
  state_of (active_connection env t g) = with_relayActive (desiredState g) g.
Proof.
  intros H. unfold active_connection. rewrite H. cbn [negb]. cbv zeta.
  rewrite !state_of_bind.
  assert (Hp : forall b : bool,
            state_of (when b (publishData (mqttUp env)) g) = g).
  { intros [|]; [apply publishData_state | reflexivity]. }
  rewrite Hp. cbn [ret state_of fst snd]. apply checkChargeControl_state.
Qed.

Lemma publish_then_control_value {A : Type} (b c : bool) (x : A)
    (g : Globals) :
  fst (fst (bind (when b (publishData c))
              (fun _ => bind checkChargeControl (fun _ => ret x)) g)) = x.
Proof.
  unfold bind.
  destruct (when b (publishData c) g) as [[u g1] tr1].
  destruct (checkChargeControl g1) as [[u2 g2] tr2]. reflexivity.
Qed.

Lemma publish_then_control_trace {A : Type} (b c : bool) (x : A)
    (g : Globals) :
  trace_of (bind (when b (publishData c))
              (fun _ => bind checkChargeControl (fun _ => ret x)) g)
  = (if b then trace_of (publishData c g) else [])
    ++ trace_of (checkChargeControl g).
Proof.
  rewrite !trace_of_bind.
  cbn [ret trace_of snd]. rewrite app_nil_r.
  destruct b; cbn [when].
  - rewrite publishData_state. reflexivity.
  - reflexivity.
Qed.

(** X20. One pass of the BLE task while it holds a connection. If the
    link turns out to be lost, the pass invalidates the snapshot and
    clears the connection, sends no request, runs neither the publication
    nor the charge control, and [publishData] stays silent afterwards.
    Otherwise the pass always ends with the charge control, so that the
    relay is what the decision says and no other global changes; it writes
    the next request exactly when more than 500 ms have passed since the
    last one, and publishes exactly when more than 10 s have passed since
    the last publication, both measured correctly across the rollover of
    [millis()]. The limit is any [int] for which [limit + 1] and
    [limit - 1] do not overflow, so that the decision is the one of the
    four steps of the charge controller. *)
Theorem active_connection_pass (env : BleEnv) (t : BleTask) (g : Globals) :
  INT_MIN < chargeTargetPercent g < INT_MAX ->
  let r := active_connection env t g in
  let t' := fst (fst (fst r)) in
  let done := snd (fst (fst r)) in
  (linkUp env = false ->
   connected t' = false /\ chrData t' = false /\ lastTry t' = t_lost env
   /\ requestIndex t' = requestIndex t
   /\ state_of r = with_bms (set_lastUpdateTime 0) g
   /\ trace_of r = []
   /\ (forall cmd, ~ In (TkBleWrite cmd) done)
   /\ forall c : bool, trace_of (publishData c (state_of r)) = [])
  /\ (linkUp env = true ->
      state_of r = with_relayActive (desiredState g) g
      /\ relayActive (state_of r)
         = decide_spec (chargeMasterSwitch g) (chargeTargetPercent g)
             (soc (bmsData g)) (modeMQTT g) (mqttForceOff g) (relayActive g)
      /\ connected t' = connected t /\ chrData t' = chrData t
      /\ (forall d : Z,
            0 <= lastRequestTime t < 4294967296 -> 0 <= d < 4294967296 ->
            t_request env = u32 (lastRequestTime t + d) ->
            (500 < d ->
             done = [TkWdtReset; TkBleWrite (request_command (requestIndex t))]
             /\ requestIndex t' = int_add (requestIndex t) 1
             /\ lastRequestTime t' = t_requested env)
            /\ (d <= 500 ->
                done = [] /\ requestIndex t' = requestIndex t
                /\ lastRequestTime t' = lastRequestTime t))
      /\ (forall d : Z,
            0 <= lastPublish t < 4294967296 -> 0 <= d < 4294967296 ->
            t_publish env = u32 (lastPublish t + d) ->
            (10000 < d ->
             trace_of r = trace_of (publishData (mqttUp env) g)
                          ++ trace_of (checkChargeControl g)
             /\ lastPublish t' = t_published env)
            /\ (d <= 10000 ->
                trace_of r = trace_of (checkChargeControl g)
                /\ lastPublish t' = lastPublish t))).
Proof.
  intros Hlim. cbv zeta. split.
  - intros H. rewrite (active_connection_lost env t g H).
    cbn [fst snd state_of trace_of connected chrData lastTry requestIndex].
    do 6 (split; [reflexivity |]). split.
    + intros cmd [E | []]. discriminate E.
    + intros c. unfold publishData, bind, gets. reflexivity.
  - intros H. split; [exact (active_connection_state env t g H) |].
    split.
    { rewrite (active_connection_state env t g H).
      exact (desiredState_spec g Hlim). }
    unfold active_connection. rewrite H. cbn [negb]. cbv zeta.
    set (requested := REQUEST_INTERVAL_MS <? u32 (t_request env - lastRequestTime t)).
    assert (Hlp : lastPublish
              (if requested
               then mkBleTask (connected t) (chrData t)
                      (int_add (requestIndex t) 1) (t_requested env)
                      (lastPublish t) (lastTry t)
               else t) = lastPublish t) by (destruct requested; reflexivity).
    rewrite Hlp.
    set (publish := publishInterval <? u32 (t_publish env - lastPublish t)).
    rewrite publish_then_control_value, publish_then_control_trace.
    cbn [fst snd].
    split; [destruct publish, requested; reflexivity |].
    split; [destruct publish, requested; reflexivity |].
    split.
    + intros d Hl Hd Et. subst requested. rewrite Et, u32_elapsed by assumption.
      unfold REQUEST_INTERVAL_MS. split; intros Hcmp.
      * destruct (Z.ltb_spec 500 d) as [_ | Hle]; [| lia].
        destruct publish; repeat split; reflexivity.
      * destruct (Z.ltb_spec 500 d) as [Hlt | _]; [lia |].
        destruct publish; repeat split; reflexivity.
    + intros d Hl Hd Et. subst publish. rewrite Et, u32_elapsed by assumption.
      unfold publishInterval. split; intros Hcmp.
      * destruct (Z.ltb_spec 10000 d) as [_ | Hle]; [| lia].
        split; [reflexivity |]. destruct requested; reflexivity.
      * destruct (Z.ltb_spec 10000 d) as [Hlt | _]; [lia |].
        split; [reflexivity |]. destruct requested; reflexivity.
Qed.

(** A pass of the BLE task leads from a reachable state to a reachable
    state: it acts on the globals as [CallDisconnect] or as [CallCheck]. *)
Lemma active_connection_reachable (env : BleEnv) (t : BleTask) (g : Globals) :
  reachable g -> reachable (state_of (active_connection env t g)).
Proof.
  intros Hg. destruct (linkUp env) eqn:H.
  - rewrite (active_connection_state env t g H), <- checkChargeControl_state.
    exact (reach_call g CallCheck Hg).
  - rewrite (active_connection_lost env t g H).
    exact (reach_call g CallDisconnect Hg).
Qed.

Lemma active_connection_pass_witness :
  INT_MIN < chargeTargetPercent g_soc86 < INT_MAX /\
  linkUp (mkBleEnv true 0 1000 1001 12000 12001 true) = true /\
  state_of (active_connection (mkBleEnv true 0 1000 1001 12000 12001 true)
              (mkBleTask true true 3 0 0 0) g_soc86)
  = with_relayActive (desiredState g_soc86) g_soc86.
Proof.
  assert (Hlim : INT_MIN < chargeTargetPercent g_soc86 < INT_MAX).
  { unfold INT_MIN, INT_MAX. simpl. lia. }
  assert (Hup : linkUp (mkBleEnv true 0 1000 1001 12000 12001 true) = true)
    by reflexivity.
  split; [exact Hlim |]. split; [exact Hup |].
  pose proof (active_connection_pass
                (mkBleEnv true 0 1000 1001 12000 12001 true)
                (mkBleTask true true 3 0 0 0) g_soc86 Hlim) as H.
  cbv zeta in H. destruct H as (_ & H). exact (proj1 (H Hup)).
Defined.

(** ** The Zigbee heartbeat *)

Lemma substring_prefix (n post : string) :
  substring 0 (String.length n) (n ++ post) = n.
Proof.
  induction n as [| c n IH]; cbn [String.length append substring].
  - destruct post; reflexivity.
  - rewrite IH. reflexivity.
Qed.

Lemma substring_inside (pre n post : string) :
  substring (String.length pre) (String.length n) (pre ++ n ++ post) = n.
Proof.
  induction pre as [| c pre IH]; cbn [String.length append substring].
  - apply substring_prefix.
  - exact IH.
Qed.

(** A word that occurs in a line before its first NUL is found. *)
Lemma indexOf_found (s pre word post : string) :
  CLib.c_str s = (pre ++ word ++ post)%string ->
  CLib.c_str word = word -> word <> EmptyString ->
  0 <= indexOf s word.
Proof.
  intros Hs Hw Hne. unfold indexOf, CLib.strstr. rewrite Hs, Hw.
  destruct s as [| c r].
  - exfalso. cbn [CLib.c_str] in Hs.
    destruct pre; [destruct word; [contradiction | discriminate Hs]
                  | discriminate Hs].
  - change ((String.length (String c r) =? 0)%nat) with false. cbv iota.
    destruct (String.index 0 word (pre ++ word ++ post)) as [i |] eqn:E;
      [lia |].
    exfalso.
    apply (index_correct3 0 (String.length pre) word _ E Hne); [lia |].
    apply substring_inside.
Qed.

Lemma substring_starts (t : string) :
  forall s : string,
  substring 0 (String.length t) s = t ->
  exists post : string, s = (t ++ post)%string.
Proof.
  induction t as [| c t IH]; intros s H.
  - exists s. reflexivity.
  - destruct s as [| c' s']; cbn [String.length substring] in H;
      [discriminate |].
    injection H as -> H. destruct (IH s' H) as (post & ->).
    exists post. reflexivity.
Qed.

Lemma substring_occurs (m : nat) :
  forall s t : string,
  substring m (String.length t) s = t ->
  exists pre post : string, s = (pre ++ t ++ post)%string.
Proof.
  induction m as [| m IH]; intros s t H.
  - destruct (substring_starts t s H) as (post & ->).
    exists EmptyString, post. reflexivity.
  - destruct s as [| c s']; cbn [substring] in H.
    + subst t. exists EmptyString, EmptyString. reflexivity.
    + destruct (IH s' t H) as (pre & post & ->).
      exists (String c pre), post. reflexivity.
Qed.

(** A word that is found occurs in the line before its first NUL. *)
Lemma indexOf_occurs (s word : string) :
  0 <= indexOf s word ->
  exists pre post : string,
    CLib.c_str s = (pre ++ CLib.c_str word ++ post)%string.
Proof.
  unfold indexOf, CLib.strstr. intros H.
  destruct (String.length s =? 0)%nat; [lia |].
  destruct (String.index 0 (CLib.c_str word) (CLib.c_str s)) as [i |] eqn:E;
    [| lia].
  apply index_correct1 in E.
  exact (substring_occurs i (CLib.c_str s) (CLib.c_str word) E).
Qed.

(** X21. The Zigbee link is a watchdog on heartbeats. The check of the
    main loop emits nothing and changes nothing but [zigbeeConnected]. The
    line is searched as a C string, up to its first NUL byte: a line that
    contains [heartbeat] or [zb_beat] there marks the link connected and
    restamps the heartbeat, and the link is only ever marked connected by
    such a line. Without a heartbeat the link is marked lost once more
    than 30000 ms have gone by since the last one, exactly 30000 still
    being in time, and the elapsed time is right across the wrap-around
    of [millis()]. *)
Theorem zigbee_link_watchdog (line : option string) (t_beat t_check last : Z)
    (g : Globals) :
  let r := zigbeeStatusCheck line t_beat t_check last g in
  trace_of r = []
  /\ (exists b : bool, state_of r = with_zigbeeConnected b g)
  /\ (forall (s pre word post : string) (d : Z),
        line = Some s ->
        CLib.c_str s = (pre ++ word ++ post)%string ->
        word = "heartbeat"%string \/ word = "zb_beat"%string ->
        0 <= t_beat < 4294967296 -> 0 <= d <= 30000 ->
        t_check = u32 (t_beat + d) ->
        zigbeeConnected (state_of r) = true /\ fst (fst r) = t_beat)
  /\ (zigbeeConnected g = false -> zigbeeConnected (state_of r) = true ->
      exists s pre word post : string,
        line = Some s
        /\ CLib.c_str s = (pre ++ word ++ post)%string
        /\ (word = "heartbeat"%string \/ word = "zb_beat"%string))
  /\ (forall d : Z,
        (line = None
         \/ exists s : string,
              line = Some s /\ indexOf s "heartbeat" = -1
              /\ indexOf s "zb_beat" = -1) ->
        0 <= last < 4294967296 -> 0 <= d < 4294967296 ->
        t_check = u32 (last + d) ->
        fst (fst r) = last
        /\ zigbeeConnected (state_of r)
           = if 30000 <? d then false else zigbeeConnected g).
Proof.
  intros r. subst r.
  split; [apply zigbee_check_trace |].
  split; [apply zigbee_check_flag |].
  split.
  { intros s pre word post d -> Hs Hw Hb Hd ->.
    assert (Hbeat : (0 <=? indexOf s "heartbeat")
                    || (0 <=? indexOf s "zb_beat") = true).
    { apply orb_true_iff. destruct Hw as [-> | ->]; [left | right];
        apply Z.leb_le, (indexOf_found s pre _ post Hs);
        first [reflexivity | discriminate]. }
    rewrite zigbee_check_state, zigbee_check_value. cbv zeta.
    rewrite Hbeat, u32_elapsed by lia.
    destruct (Z.ltb_spec 30000 d) as [Hlt | _]; [lia |].
    split; reflexivity. }
  split.
  { intros Hoff Hon. rewrite zigbee_check_state in Hon. cbv zeta in Hon.
    destruct line as [s |].
    - destruct ((0 <=? indexOf s "heartbeat") || (0 <=? indexOf s "zb_beat"))
        eqn:Hbeat.
      + apply orb_true_iff in Hbeat.
        destruct Hbeat as [H | H]; apply Z.leb_le, indexOf_occurs in H;
          destruct H as (pre & post & H).
        * exists s, pre, "heartbeat"%string, post.
          split; [reflexivity |]. split; [exact H | left; reflexivity].
        * exists s, pre, "zb_beat"%string, post.
          split; [reflexivity |]. split; [exact H | right; reflexivity].
      + exfalso. destruct (30000 <? u32 (t_check - last)); cbn in Hon; congruence.
    - exfalso. destruct (30000 <? u32 (t_check - last)); cbn in Hon; congruence. }
  intros d Hline Hl Hd ->.
  rewrite zigbee_check_state, zigbee_check_value. cbv zeta.
  assert (Hbeat : match line with
                  | Some s => (0 <=? indexOf s "heartbeat")
                              || (0 <=? indexOf s "zb_beat")
                  | None => false
                  end = false).
  { destruct Hline as [-> | (s & -> & H1 & H2)]; [reflexivity |].
    rewrite H1, H2. reflexivity. }
  destruct line as [s |]; [rewrite Hbeat |]; cbv iota;
    rewrite u32_elapsed by lia;
    (split; [reflexivity |]); destruct (30000 <? d); reflexivity.
Qed.

(** ** The status LEDs *)

Lemma bluetoothDataReceived_decodeGreenway (data : ptr) (len : nat) (now : Z)
    (g : Globals) :
  bluetoothDataReceived (state_of (decodeGreenway data len now g)) = true.
Proof.
  unfold decodeGreenway. rewrite state_of_bind.
  assert (K : forall u : unit,
            keeps bluetoothDataReceived
              (if (len <? 6)%nat then ret tt
               else
                 let* regId := rd data 3 in
                 modify (with_bms (set_lastUpdateTime now)) ;;;
                 debug_packet data len regId ;;;
                 decode_register data len regId ;;;
                 modify (with_bms update_min_max))).
  { intros _.
    unfold decode_register, decode_followup, debug_packet, debug_line,
      get32BitLEValue, rd16.
    repeat first [ apply keeps_table; intros ? ? ?; reflexivity
                 | apply keeps_read_all
                 | keeps_step ]. }
  rewrite (K tt). reflexivity.
Qed.

(** X22. What [updateLeds] does: it writes the five LED pins, once each,
    and never the pin of the relay, whose level it leaves alone; of the
    state it only consumes the frame flag, and only while the BMS is
    connected. The relay LED shows [relayActive], so on every run of the
    firmware it is lit exactly when the relay pin is LOW (relay closed);
    the WiFi LED is lit in access-point mode; the MQTT LED stays off while
    no server is configured; the BLE LED is off while the BMS is not
    connected, and the pending flag then waits. *)
Theorem updateLeds_scope (isApMode wifiConnected connected : bool)
    (mqtt_server : string) (mqttConnected : bool) (now last : Z)
    (g : Globals) :
  let r := updateLeds isApMode wifiConnected connected mqtt_server
             mqttConnected now last g in
  map (fun e => match e with EvDigitalWrite pin _ => pin | _ => -1 end)
      (trace_of r)
  = [LED_RELAY; LED_WIFI; LED_BT; LED_MQTT; LED_ZIGBEE]
  /\ (forall high : bool, relay_level high (trace_of r) = high)
  /\ control (state_of r) = control g
  /\ bmsData (state_of r) = bmsData g
  /\ reassembly (state_of r) = reassembly g
  /\ bluetoothDataReceived (state_of r)
     = (if connected then false else bluetoothDataReceived g)
  /\ last_write LED_RELAY (trace_of r) = Some (relayActive g)
  /\ (forall (cs : list call) (lim : Z),
        g = state_of (run_calls cs (boot lim)) ->
        last_write LED_RELAY (trace_of r)
        = Some (negb (relay_level true (trace_of (run_calls cs (boot lim))))))
  /\ (isApMode = true -> last_write LED_WIFI (trace_of r) = Some true)
  /\ (mqtt_server = EmptyString ->
      last_write LED_MQTT (trace_of r) = Some false)
  /\ last_write LED_ZIGBEE (trace_of r) = Some (zigbeeConnected g)
  /\ (connected = false ->
      last_write LED_BT (trace_of r) = Some false /\ fst (fst r) = last).
Proof.
  intros r. subst r. rewrite updateLeds_run.
  cbn [trace_of state_of fst snd map].
  split; [reflexivity |].
  split; [intros high; reflexivity |].
  split; [destruct connected; reflexivity |].
  split; [destruct connected; reflexivity |].
  split; [destruct connected; reflexivity |].
  split; [destruct connected; reflexivity |].
  split; [reflexivity |].
  split.
  { intros cs lim ->.
    pose proof (tracks_run_calls cs (boot lim)) as T. unfold tracks in T.
    change (negb (relayActive (boot lim))) with true in T.
    rewrite T, negb_involutive. reflexivity. }
  split; [intros ->; reflexivity |].
  split; [intros ->; reflexivity |].
  split; [reflexivity |].
  intros ->. split; reflexivity.
Qed.

(** X23. The BLE LED flashes on every frame. After [decodeGreenway] has
    received a frame, whatever it holds, the next [updateLeds] (the BMS
    being connected) lights the BLE LED, stamps the flash and consumes
    the flag; with no further frame, an [updateLeds] [d] ms later keeps
    the LED lit exactly while [d] is below 100, across the wrap-around of
    [millis()], and leaves the stamp alone. *)
Theorem ble_led_flash (data : ptr) (len : nat) (t_frame : Z)
    (ap1 wifi1 mq1 ap2 wifi2 mq2 : bool) (srv : string) (now last d : Z)
    (g : Globals) :
  0 <= now < 4294967296 -> 0 <= d < 4294967296 ->
  let g1 := state_of (decodeGreenway data len t_frame g) in
  let r1 := updateLeds ap1 wifi1 true srv mq1 now last g1 in
  let r2 := updateLeds ap2 wifi2 true srv mq2 (u32 (now + d)) (fst (fst r1))
              (state_of r1) in
  last_write LED_BT (trace_of r1) = Some true
  /\ fst (fst r1) = now
  /\ bluetoothDataReceived (state_of r1) = false
  /\ last_write LED_BT (trace_of r2) = Some (d <? BLE_FLASH_DURATION)
  /\ fst (fst r2) = now
  /\ state_of r2 = state_of r1.
Proof.
  intros Hn Hd g1 r1 r2. subst r2 r1.
  pose proof (bluetoothDataReceived_decodeGreenway data len t_frame g) as F.
  fold g1 in F. rewrite !updateLeds_run.
  cbn [trace_of state_of fst snd]. rewrite F.
  cbn [andb orb bluetoothDataReceived with_bluetoothDataReceived].
  rewrite u32_elapsed by assumption.
  repeat split; reflexivity.
Qed.

Lemma ble_led_flash_witness :
  0 <= 4294967290 < 4294967296 /\ 0 <= 40 < 4294967296 /\
  last_write LED_BT
    (trace_of
       (updateLeds false true true "broker" true (u32 (4294967290 + 40))
          (fst (fst (updateLeds false true true "broker" true 4294967290 0
                       (state_of (decodeGreenway
                                    (frame_ptr (frame_mem temp_frame_9 xff))
                                    10 4294967280 globals_init)))))
          (state_of
             (updateLeds false true true "broker" true 4294967290 0
                (state_of (decodeGreenway
                             (frame_ptr (frame_mem temp_frame_9 xff))
                             10 4294967280 globals_init))))))
  = Some (40 <? BLE_FLASH_DURATION).
Proof.
  assert (H1 : 0 <= 4294967290 < 4294967296) by lia.
  assert (H2 : 0 <= 40 < 4294967296) by lia.
  split; [exact H1 |]. split; [exact H2 |].
  pose proof (ble_led_flash (frame_ptr (frame_mem temp_frame_9 xff)) 10
                4294967280 false true true false true true "broker"
                4294967290 0 40 globals_init H1 H2) as H.
  cbv zeta in H. destruct H as (_ & _ & _ & H & _). exact H.
Defined.

(** ** The limit across a restart *)

Lemma persisted_limit_app (stored : Z) (t1 t2 : list event) :
  persisted_limit stored (t1 ++ t2)
  = persisted_limit (persisted_limit stored t1) t2.
Proof. unfold persisted_limit. apply fold_left_app. Qed.

Lemma persisted_limit_quiet (t : list event) :
  forall stored : Z,
  (forall e : event, In e t -> no_pref_write e) ->
  persisted_limit stored t = stored.
Proof.
  induction t as [| e t IH]; intros stored H.
  - reflexivity.
  - assert (He : no_pref_write e) by (apply H; left; reflexivity).
    assert (Ht : forall e' : event, In e' t -> no_pref_write e')
      by (intros e' Hin; apply H; right; exact Hin).
    change (persisted_limit stored (e :: t))
      with (persisted_limit
              (match e with
               | EvPrefPutInt key x => if String.eqb key "lim" then x else stored
               | _ => stored
               end) t).
    destruct e; try (apply IH; exact Ht). destruct He.
Qed.

Lemma limit_stored_quiet {A : Type} (m : M A) :
  emits_only no_pref_write m -> keeps chargeTargetPercent m -> limit_stored m.
Proof.
  intros He Hk g stored Hg. rewrite Hk, Hg. symmetry.
  apply persisted_limit_quiet. apply He.
Qed.

Lemma limit_stored_bind {A C : Type} (m : M A) (k : A -> M C) :
  limit_stored m -> (forall a : A, limit_stored (k a)) ->
  limit_stored (bind m k).
Proof.
  intros Hm Hk g stored Hg.
  rewrite state_of_bind, trace_of_bind, persisted_limit_app.
  apply Hk. apply Hm. exact Hg.
Qed.

Lemma no_pref_checkChargeControl : emits_only no_pref_write checkChargeControl.
Proof. unfold checkChargeControl. repeat emits_step ltac:(exact I). Qed.

Lemma keeps_limit_checkChargeControl :
  keeps chargeTargetPercent checkChargeControl.
Proof. unfold checkChargeControl. repeat keeps_step. Qed.

#[local] Hint Resolve no_pref_checkChargeControl : emits.
#[local] Hint Resolve keeps_limit_checkChargeControl : keeps.

Lemma no_pref_mqttCb (topic : string) (payload0 : list byte) :
  emits_only no_pref_write (mqttCb topic payload0).
Proof. unfold mqttCb. cbv zeta. repeat emits_step ltac:(exact I). Qed.

Lemma handleSetLimit_run (val : string) (g : Globals) :
  handleSetLimit val g
  = (tt,
     state_of (checkChargeControl (with_chargeTargetPercent (toInt val) g)),
     EvPrefPutInt "lim" (toInt val)
       :: trace_of (checkChargeControl (with_chargeTargetPercent (toInt val) g))
       ++ [EvHttpSend 303]).
Proof.
  unfold handleSetLimit, bind, modify, gets, emit, state_of, trace_of.
  destruct (checkChargeControl (with_chargeTargetPercent (toInt val) g))
    as [[u g2] t2].
  destruct u. destruct g; reflexivity.
Qed.

Lemma limit_stored_run_call (c : call) :
  sets_limit_over_mqtt c = false -> limit_stored (run_call c).
Proof.
  destruct c as [m0 len0 now0 | | c0 | tp pl | | | val | |
                 | ap wifi conn srv mq now0 last0
                 | line0 t_beat t_check last0 |];
    cbn [run_call sets_limit_over_mqtt]; intros Hc.
  - apply limit_stored_quiet.
    + apply (emits_weaken decoder_event).
      * intros [i | i v | [] | | | | |] H; try exact I; destruct H.
      * apply decoder_events_decodeGreenway.
    + intros g.
      pose proof (keeps_decodeGreenway_control (frame_ptr m0) len0 now0 g) as K.
      unfold control in K. congruence.
  - apply limit_stored_quiet; auto with emits keeps.
  - apply limit_stored_quiet; unfold publishData, printBMSDataDebug.
    + repeat emits_step ltac:(exact I).
    + repeat keeps_step.
  - apply limit_stored_quiet; [apply no_pref_mqttCb |].
    unfold mqttCb. cbv zeta.
    destruct (String.eqb tp topic_set_limit);
      [destruct ((50 <=? toInt (string_of_list_byte pl))
                 && (toInt (string_of_list_byte pl) <=? 100));
       [discriminate Hc |] |];
      repeat keeps_step.
  - apply limit_stored_quiet; unfold handleSetMaster.
    + repeat emits_step ltac:(exact I).
    + repeat keeps_step.
  - apply limit_stored_quiet; unfold handleSetMode.
    + repeat emits_step ltac:(exact I).
    + repeat keeps_step.
  - intros g stored _. rewrite handleSetLimit_run.
    cbn [state_of trace_of fst snd]. rewrite keeps_limit_checkChargeControl.
    change (persisted_limit stored (?e :: ?t))
      with (persisted_limit (toInt val) t).
    rewrite persisted_limit_quiet.
    + destruct g; reflexivity.
    + intros e Hin. apply in_app_or in Hin. destruct Hin as [Hin | [<- | []]].
      * exact (no_pref_checkChargeControl _ e Hin).
      * exact I.
  - apply limit_stored_quiet; unfold onDisconnect.
    + repeat emits_step ltac:(exact I).
    + repeat keeps_step.
  - apply limit_stored_quiet; unfold toggleDebug.
    + repeat emits_step ltac:(exact I).
    + repeat keeps_step.
  - apply limit_stored_quiet; unfold updateLeds.
    + repeat emits_step ltac:(exact I).
    + repeat keeps_step.
  - apply limit_stored_quiet; unfold zigbeeStatusCheck; destruct line0.
    + repeat emits_step ltac:(exact I).
    + repeat emits_step ltac:(exact I).
    + repeat keeps_step.
    + repeat keeps_step.
  - apply limit_stored_quiet; unfold handleZigbeeJoin.
    + repeat emits_step ltac:(exact I).
    + repeat keeps_step.
Qed.

Lemma limit_stored_run_calls (cs : list call) :
  forallb (fun c => negb (sets_limit_over_mqtt c)) cs = true ->
  limit_stored (run_calls cs).
Proof.
  induction cs as [| c cs IH]; cbn [run_calls forallb]; intros H.
  - intros g stored Hg. exact Hg.
  - apply andb_true_iff in H. destruct H as [Hc Hcs].
    apply limit_stored_bind.
    + apply limit_stored_run_call. apply negb_true_iff. exact Hc.
    + intros _. apply IH. exact Hcs.
Qed.

Lemma run_calls_app_trace (cs1 cs2 : list call) (g : Globals) :
  trace_of (run_calls (cs1 ++ cs2) g)
  = trace_of (run_calls cs1 g)
    ++ trace_of (run_calls cs2 (state_of (run_calls cs1 g))).
Proof.
  revert g. induction cs1 as [| c cs1 IH]; intros g.
  - reflexivity.
  - cbn [app run_calls]. rewrite !trace_of_bind, !state_of_bind, IH.
    apply app_assoc.
Qed.

Lemma mqttCb_limit_accepted (topic : string) (payload0 : list byte)
    (g : Globals) :
  sets_limit_over_mqtt (CallMqtt topic payload0) = true ->
  chargeTargetPercent (state_of (mqttCb topic payload0 g))
  = toInt (string_of_list_byte payload0).
Proof.
  cbn [sets_limit_over_mqtt]. intros H.
  apply andb_true_iff in H. destruct H as [Ht Hr].
  apply String.eqb_eq in Ht. subst topic.
  unfold mqttCb. cbv zeta. rewrite Hr.
  change (String.eqb topic_set_limit topic_set_limit) with true.
  change (String.eqb topic_set_limit topic_set_power) with false.
  cbv iota.
  rewrite state_of_bind. cbn [ret state_of fst snd].
  rewrite state_of_bind, keeps_limit_checkChargeControl.
  destruct g; reflexivity.
Qed.

(** X24. The limit survives a restart only when it was set on the web
    page. [setup] loads the limit from the preferences, and of all the
    calls only [handleSetLimit] writes it there. So after any run of
    frames, web requests, publications, power commands and refused limit
    commands, a restart resumes with the limit in force; but a limit
    accepted over MQTT is in force without being stored, and a restart
    falls back to the limit before it. *)
Theorem limit_survives_restart (cs : list call) (lim : Z) :
  forallb (fun c => negb (sets_limit_over_mqtt c)) cs = true ->
  let r := run_calls cs (boot lim) in
  chargeTargetPercent (boot (persisted_limit lim (trace_of r)))
  = chargeTargetPercent (state_of r)
  /\ forall (topic : string) (payload0 : list byte),
       sets_limit_over_mqtt (CallMqtt topic payload0) = true ->
       let r' := run_calls (cs ++ [CallMqtt topic payload0]) (boot lim) in
       chargeTargetPercent (state_of r') = toInt (string_of_list_byte payload0)
       /\ chargeTargetPercent (boot (persisted_limit lim (trace_of r')))
          = chargeTargetPercent (state_of r).
Proof.
  intros Hcs r.
  assert (Hr : chargeTargetPercent (state_of r)
               = persisted_limit lim (trace_of r)).
  { subst r. apply limit_stored_run_calls; [exact Hcs | reflexivity]. }
  assert (Hboot : forall x : Z, chargeTargetPercent (boot x) = x)
    by (intros x; reflexivity).
  split; [rewrite Hboot; symmetry; exact Hr |].
  intros topic payload0 Hacc r'. subst r'.
  rewrite run_calls_app, run_calls_app_trace. fold r.
  cbn [run_calls run_call]. rewrite state_of_bind, trace_of_bind.
  cbn [ret state_of trace_of fst snd]. rewrite app_nil_r.
  split.
  - apply mqttCb_limit_accepted. exact Hacc.
  - rewrite Hboot, persisted_limit_app, <- Hr.
    apply persisted_limit_quiet. apply no_pref_mqttCb.
Qed.

Lemma limit_survives_restart_witness :
  forallb (fun c => negb (sets_limit_over_mqtt c))
    [CallSetLimit "90"; CallMqtt topic_set_power [x4f; x46; x46];
     CallMqtt topic_set_limit [x31; x32; x30]; CallCheck] = true /\
  chargeTargetPercent
    (boot (persisted_limit 80
             (trace_of
                (run_calls
                   [CallSetLimit "90"; CallMqtt topic_set_power [x4f; x46; x46];
                    CallMqtt topic_set_limit [x31; x32; x30]; CallCheck]
                   (boot 80)))))
  = chargeTargetPercent
      (state_of
         (run_calls
            [CallSetLimit "90"; CallMqtt topic_set_power [x4f; x46; x46];
             CallMqtt topic_set_limit [x31; x32; x30]; CallCheck]
            (boot 80))).
Proof.
  assert (H : forallb (fun c => negb (sets_limit_over_mqtt c))
                [CallSetLimit "90"; CallMqtt topic_set_power [x4f; x46; x46];
                 CallMqtt topic_set_limit [x31; x32; x30]; CallCheck] = true)
    by (vm_compute; reflexivity).
  split; [exact H |].
  exact (proj1 (limit_survives_restart
                  [CallSetLimit "90"; CallMqtt topic_set_power [x4f; x46; x46];
                   CallMqtt topic_set_limit [x31; x32; x30]; CallCheck]
                  80 H)).
Defined.
